(** * pydap.handlers.binary.ssmi: the binary SSMI handler

    A shallow embedding of [BinarySsmiHandler] (src/pydap/handlers/binary/ssmi/__init__.py):
    the coordinate generators [read_variable_lon], [read_variable_lat],
    [read_variable_part], the flat-grid decoder [read_variable_data] and the
    orchestrator [parse_constraints], followed by the properties of the
    specification that concern them.

    Python integers are [Z]; a raised exception is the left summand of
    [result]; the handler's dataset, which [parse_constraints] mutates in place,
    is threaded explicitly. *)

From Stdlib Require Import ZArith QArith Lqa String Ascii Strings.Byte DecimalString SpecFloat.
From stdpp Require Import base list strings.

Local Open Scope string_scope.
Local Open Scope list_scope.
Local Open Scope Z_scope.

(** ** Exceptions and the error monad *)

Inductive exn : Type :=
| ValueError (msg : string)
| IndexError
| TypeError (msg : string)
| KeyError (key : string)
| OpenFileError (msg : string).

(** [inl e]: the call raised [e]; [inr x]: it returned [x]. *)
Definition result (A : Type) : Type := exn + A.

Definition raise {A} (e : exn) : result A := inl e.
Definition ret {A} (x : A) : result A := inr x.

Definition bind {A B} (m : result A) (k : A -> result B) : result B :=
  match m with
  | inl e => inl e
  | inr x => k x
  end.

Notation "x <- m ;; k" := (bind m (fun x => k))
  (at level 100, m at next level, right associativity).

(** [for x in l: body], the loop state threaded through [body]; the first
    exception leaves the loop. *)
Fixpoint for_in {A S} (l : list A) (body : S -> A -> result S) (s : S) : result S :=
  match l with
  | [] => ret s
  | x :: l' => s' <- body s x ;; for_in l' body s'
  end.

(** ** Python sequences: indexing and slicing *)

(** A [slice(start, stop, step)] object.  pydap's hyperslab parser builds every
    slice from three integers, so no field is [None]. *)
Record slice : Type := Slice { start : Z; stop : Z; step : Z }.

(** Subscript of a list or tuple by an integer: a negative index counts from
    the end, anything else out of range raises IndexError. *)
Definition py_getitem {A} (l : list A) (idx : Z) : result A :=
  let n := Z.of_nat (length l) in
  let idx := if idx <? 0 then idx + n else idx in
  if (idx <? 0) || (n <=? idx) then raise IndexError
  else match l !! Z.to_nat idx with
       | Some x => ret x
       | None => raise IndexError
       end.

(** CPython's [PySlice_GetIndicesEx] on integer fields: the adjusted start and
    stop, the step, and the length of the slice. *)
Definition slice_indices (length : Z) (r : slice) : result (Z * Z * Z * Z) :=
  let step := step r in
  if step =? 0 then raise (ValueError "slice step cannot be zero")
  else
    let start := start r in
    let start := if start <? 0 then start + length else start in
    let start := if start <? 0 then (if step <? 0 then -1 else 0) else start in
    let start := if length <=? start then (if step <? 0 then length - 1 else length) else start in
    let stop := stop r in
    let stop := if stop <? 0 then stop + length else stop in
    let stop := if stop <? 0 then (if step <? 0 then -1 else 0) else stop in
    let stop := if length <=? stop then (if step <? 0 then length - 1 else length) else stop in
    let slicelength :=
      if ((step <? 0) && (start <=? stop)) || ((0 <? step) && (stop <=? start)) then 0
      else if step <? 0 then Z.quot (stop - start + 1) step + 1
      else Z.quot (stop - start - 1) step + 1 in
    ret (start, stop, step, slicelength).

(** [l[r]] for a list [l] and a slice [r]: the items at [start], [start+step],
    ..., [slicelength] of them. *)
Definition list_getslice {A} (l : list A) (r : slice) : result (list A) :=
  ind <- slice_indices (Z.of_nat (length l)) r ;;
  let '(start, _, step, slicelength) := ind in
  ret (omap (fun t : nat => l !! Z.to_nat (start + Z.of_nat t * step))
            (seq 0 (Z.to_nat slicelength))).

(** [range(n)] of Python 2: the list [0, 1, ..., n-1]. *)
Definition range (n : Z) : list Z := seqZ 0 n.

(** ** numpy arrays *)

(** A cell of an array allocated by [np.empty] holds no defined value until it
    is assigned: [None] is an unassigned cell. *)
Abbreviation ndarray1 A := (list (option A)) (only parsing).
Abbreviation ndarray3 A := (list (list (list (option A)))) (only parsing).

Definition np_empty {A} (n : nat) : ndarray1 A := replicate n None.
Definition np_empty3 {A} (shape : nat * nat * nat) : ndarray3 A :=
  let '(n0, n1, n2) := shape in replicate n0 (replicate n1 (replicate n2 None)).

(** Bounds check of one subscript along an axis of [size] items. *)
Definition np_index (size : nat) (idx : Z) : result nat :=
  let n := Z.of_nat size in
  let idx := if idx <? 0 then idx + n else idx in
  if (idx <? 0) || (n <=? idx) then raise IndexError else ret (Z.to_nat idx).

(** [a[idx]] on a one-dimensional array of assigned items. *)
Definition np_getitem {A} (a : list A) (idx : Z) : result A :=
  i <- np_index (length a) idx ;;
  match a !! i with
  | Some x => ret x
  | None => raise IndexError
  end.

(** [buf[idx] = v] *)
Definition np_setitem {A} (buf : ndarray1 A) (idx : Z) (v : A) : result (ndarray1 A) :=
  i <- np_index (length buf) idx ;;
  ret (<[i := Some v]> buf).

(** [buf[x][y][z] = v]: [buf[x]] and [buf[x][y]] are views into [buf]. *)
Definition np_setitem3 {A} (buf : ndarray3 A) (x y z : Z) (v : A) : result (ndarray3 A) :=
  ix <- np_index (length buf) x ;;
  plane <- (match buf !! ix with Some p => ret p | None => raise IndexError end) ;;
  iy <- np_index (length plane) y ;;
  row <- (match plane !! iy with Some r => ret r | None => raise IndexError end) ;;
  iz <- np_index (length row) z ;;
  ret (<[ix := <[iy := <[iz := Some v]> row]> plane]> buf).

(** The item of a three-dimensional array at a position, when it is there. *)
Definition ndarray3_at {A} (buf : ndarray3 A) (x y z : nat) : option (option A) :=
  plane ← buf !! x; row ← plane !! y; row !! z.

(** ** Floating point *)

(** Python floats are IEEE 754 binary64, [np.float32] is binary32; both are
    computed with the reference operations of [SpecFloat]. *)
Definition float : Type := spec_float.

Definition float_of_int (z : Z) : float := binary_normalize 53 1024 z 0 false.
Definition float_mul : float -> float -> float := SFmul 53 1024.
Definition float_sub : float -> float -> float := SFsub 53 1024.

(** Storing a Python float into an [np.float32] array rounds it to binary32. *)
Definition to_float32 (x : float) : float :=
  match x with
  | S754_finite s m e => binary_round 24 128 s m e
  | _ => x
  end.

(** The literals [0.25], [0.125] and [90.125]. *)
Definition lit_0_25 : float := Eval cbv in binary_normalize 53 1024 1 (-2) false.
Definition lit_0_125 : float := Eval cbv in binary_normalize 53 1024 1 (-3) false.
Definition lit_90_125 : float := Eval cbv in binary_normalize 53 1024 721 (-3) false.

(** The rational a finite float denotes. *)
Definition float_to_Q (x : float) : option Q :=
  match x with
  | S754_zero _ => Some 0%Q
  | S754_finite s m e =>
      let v := (inject_Z (Z.pos m) * Qpower 2 e)%Q in
      Some (if s then Qopp v else v)
  | _ => None
  end.

(** ** Coordinate generators *)

Definition lonValue (i : Z) : float := float_sub (float_mul lit_0_25 (float_of_int (i + 1))) lit_0_125.
Definition latValue (j : Z) : float := float_sub (float_mul lit_0_25 (float_of_int j)) lit_90_125.

Definition read_variable_lat (slices_lat : slice) : result (ndarray1 float) :=
  let latMax := 719 in
  sel <- list_getslice (range (latMax + 1)) slices_lat ;;
  let buf := np_empty (length sel) in
  let cnt := 0 in
  rng <- list_getslice (range 720) slices_lat ;;
  st <- for_in rng (fun '(buf, cnt) j =>
      buf <- np_setitem buf cnt (to_float32 (latValue j)) ;;
      ret (buf, cnt + 1)) (buf, cnt) ;;
  ret (fst st).

Definition read_variable_lon (slices_lot : slice) : result (ndarray1 float) :=
  let lonMax := 1439 in
  sel <- list_getslice (range (lonMax + 1)) slices_lot ;;
  let buf := np_empty (length sel) in
  let cnt := 0 in
  rng <- list_getslice (range 1440) slices_lot ;;
  st <- for_in rng (fun '(buf, cnt) i =>
      buf <- np_setitem buf cnt (to_float32 (lonValue i)) ;;
      ret (buf, cnt + 1)) (buf, cnt) ;;
  ret (fst st).

(** The [np.uint16] array of day parts. *)
Definition read_variable_part (slices_part : slice) : result (ndarray1 Z) :=
  sel <- list_getslice (range 2) slices_part ;;
  let buf := np_empty (length sel) in
  let cnt := 0 in
  rng <- list_getslice (range 2) slices_part ;;
  st <- for_in rng (fun '(buf, cnt) i =>
      buf <- np_setitem buf cnt i ;;
      ret (buf, cnt + 1)) (buf, cnt) ;;
  ret (fst st).

(** ** Flat-grid decoder *)

(** The value of an [np.uint8] item, as stored into an [np.uint16] cell. *)
Definition uint8_value (b : byte) : Z := Z.of_N (Byte.to_N b).

Definition byteIndex (i j k index : Z) : Z :=
  (1440 * j + i) + (1440 * 720 * index) + (1440 * 720 * 5 * k).

Definition read_variable_data (bytes : list byte) (index : Z) (slices : list slice)
  : result (ndarray3 Z) :=
  s0 <- py_getitem slices 0 ;;
  l0 <- list_getslice (range 1440) s0 ;;
  s1 <- py_getitem slices 1 ;;
  l1 <- list_getslice (range 720) s1 ;;
  s2 <- py_getitem slices 2 ;;
  l2 <- list_getslice (range 2) s2 ;;
  let buf := np_empty3 (length l0, length l1, length l2) in
  s0 <- py_getitem slices 0 ;;
  l0 <- list_getslice (range 1440) s0 ;;
  for_in l0 (fun buf i =>
    s1 <- py_getitem slices 1 ;;
    l1 <- list_getslice (range 720) s1 ;;
    for_in l1 (fun buf j =>
      s2 <- py_getitem slices 2 ;;
      l2 <- list_getslice (range 2) s2 ;;
      for_in l2 (fun buf k =>
        let byteIndex := byteIndex i j k index in
        v <- np_getitem bytes byteIndex ;;
        s0 <- py_getitem slices 0 ;;
        s1 <- py_getitem slices 1 ;;
        s2 <- py_getitem slices 2 ;;
        np_setitem3 buf (i - start s0) (j - start s1) (k - start s2) (uint8_value v))
      buf) buf) buf.

(** ** pydap's data model

    [BaseType] is a named array, [GridType] and [DatasetType] are ordered
    mappings from names to children.  The [attributes] dictionaries are
    presentation metadata that no method below reads or writes; they are left
    out. *)

Inductive array : Type :=
| Float32Array (a : ndarray1 float)
| UInt16Array (a : ndarray1 Z)
| UInt16Array3 (a : ndarray3 Z).

Inductive dap_type : Type := UInt16 | Float32.

Record BaseType : Type := mkBaseType {
  name : string;
  data : option array;
  shape : list Z;
  dimensions : list string;
  type : dap_type
}.

Definition set_data_field (v : array) (b : BaseType) : BaseType :=
  mkBaseType (name b) (Some v) (shape b) (dimensions b) (type b).

Inductive variable : Type :=
| Base (b : BaseType)
| Grid (grid_name : string) (children : list (string * BaseType)).

Definition DatasetType : Type := list (string * variable).

(** Ordered mappings: lookup, update in place of the entry of a key, removal. *)
Fixpoint alist_lookup {V} (k : string) (l : list (string * V)) : option V :=
  match l with
  | [] => None
  | (k', v) :: l' => if String.eqb k k' then Some v else alist_lookup k l'
  end.

Fixpoint alist_update {V} (k : string) (f : V -> V) (l : list (string * V)) : list (string * V) :=
  match l with
  | [] => []
  | (k', v) :: l' => if String.eqb k k' then (k', f v) :: l' else (k', v) :: alist_update k f l'
  end.

Definition keys {V} (l : list (string * V)) : list string := map fst l.

(** [d.pop(key, None)] *)
Definition pop {V} (key : string) (l : list (string * V)) : list (string * V) :=
  List.filter (fun kv => negb (String.eqb (fst kv) key)) l.

(** ** The handler *)

Definition _dim : list string := ["lon"; "lat"; "part_of_day"].
Definition _shape : list Z := [1440; 720; 2].
Definition _type : dap_type := UInt16.

(** The names of [self.variables], in catalog order.  Each [self.variables[i]]
    is the very object stored as the array child of its grid, so its [data] is
    that child's; through [self.variables] only the names are read. *)
Definition variables : list string := ["time"; "wspd"; "vapor"; "cloud"; "rain"].

Definition lonVar : BaseType := mkBaseType "lon" None [1440] ["lon"] Float32.
Definition latVar : BaseType := mkBaseType "lat" None [720] ["lat"] Float32.
Definition partVar : BaseType := mkBaseType "part_of_day" None [2] ["part_of_day"] UInt16.

Definition grid_of (variable_name : string) : variable :=
  Grid variable_name
    [(variable_name, mkBaseType variable_name None _shape _dim _type);
     ("lon", lonVar); ("lat", latVar); ("part_of_day", partVar)].

Record handler : Type := mkHandler { filepath : string; dataset : DatasetType }.

(** [BinarySsmiHandler(filepath)] *)
Definition init_dataset : DatasetType :=
  [("lon", Base lonVar); ("lat", Base latVar); ("part_of_day", Base partVar)]
  ++ map (fun n => (n, grid_of n)) variables.

Definition BinarySsmiHandler (filepath : string) : handler := mkHandler filepath init_dataset.

(** *** Actions on [self.dataset]

    A method that mutates [self.dataset] is a function of the dataset that
    returns the dataset as the call leaves it, also when it raises. *)
Definition action (A : Type) : Type := DatasetType -> DatasetType * result A.

Definition aret {A} (x : A) : action A := fun ds => (ds, inr x).
Definition lift {A} (r : result A) : action A := fun ds => (ds, r).
Definition abind {A B} (m : action A) (k : A -> action B) : action B :=
  fun ds => match m ds with
            | (ds', inl e) => (ds', inl e)
            | (ds', inr x) => k x ds'
            end.

Notation "x <~ m ;; k" := (abind m (fun x => k))
  (at level 100, m at next level, right associativity).

Fixpoint afor_in {A} (l : list A) (body : A -> action unit) : action unit :=
  match l with
  | [] => aret tt
  | x :: l' => _ <~ body x ;; afor_in l' body
  end.

(** The write [self.dataset[g][c].data = v], on a dataset that has the path. *)
Definition write (g c : string) (v : array) (ds : DatasetType) : DatasetType :=
  alist_update g (fun var => match var with
                             | Grid n ch => Grid n (alist_update c (set_data_field v) ch)
                             | Base b => Base b
                             end) ds.

(** [self.dataset[g][c].data = v].  The handler subscripts only its grids this
    way; on an array, whose [data] is still [None], the subscript would fail. *)
Definition set_grid_data (g c : string) (v : array) : action unit :=
  fun ds => match alist_lookup g ds with
            | None => (ds, raise (KeyError g))
            | Some (Base _) => (ds, raise (TypeError "'NoneType' object has no attribute '__getitem__'"))
            | Some (Grid _ ch) =>
                match alist_lookup c ch with
                | None => (ds, raise (KeyError c))
                | Some _ => (write g c v ds, ret tt)
                end
            end.

(** [self.dataset[key].data = v] *)
Definition set_top_data (key : string) (v : array) : action unit :=
  fun ds => match alist_lookup key ds with
            | None => (ds, raise (KeyError key))
            | Some _ => (alist_update key (fun var => match var with
                                                       | Base b => Base (set_data_field v b)
                                                       | Grid n ch => Grid n ch
                                                       end) ds, ret tt)
            end.

Definition show_nat (n : nat) : string := NilZero.string_of_uint (Nat.to_uint n).

(** A call of a method declared [def meth(self, x)] with the arguments [args]: any
    number of arguments other than one raises TypeError before the body runs. *)
Definition call_method {A B} (meth : string) (body : A -> result B) (args : list A) : result B :=
  match args with
  | [x] => body x
  | _ => raise (TypeError (meth ++ "() takes exactly 2 arguments ("
                             ++ show_nat (S (length args)) ++ " given)")%string)
  end.

Definition slices_message (var_name : string) (n : nat) : string :=
  ("Cannot obtain slices for " ++ var_name ++ ". Should be 3 slices, but " ++ show_nat n ++ " found")%string.

(** One item of a parsed projection: the dotted components of a name, each with
    its hyperslab. *)
Abbreviation projected := (list (string * list slice)) (only parsing).

(** The body of [for variable in self.variables] for a name that is no
    coordinate.  ([print] writes to standard output only.) *)
Definition decode_variable (bytes_read : list byte) (var : projected) (var_name : string)
    (variable_name : string) : action unit :=
  if String.eqb variable_name var_name then
    last <~ lift (py_getitem var (Z.of_nat (length var) - 1)) ;;
    let slices := snd last in
    if negb (length slices =? 3)%nat then
      lift (raise (ValueError (slices_message var_name (length slices))))
    else
      index <~ lift (for_in (range (Z.of_nat (length variables))) (fun index i =>
                       n <- py_getitem variables i ;;
                       ret (if String.eqb n variable_name then i else index)) 0) ;;
      s0 <~ lift (py_getitem slices 0) ;;
      lon <~ lift (call_method "read_variable_lon" read_variable_lon [s0]) ;;
      _ <~ set_grid_data variable_name "lon" (Float32Array lon) ;;
      s1 <~ lift (py_getitem slices 1) ;;
      lat <~ lift (call_method "read_variable_lat" read_variable_lat [s1]) ;;
      _ <~ set_grid_data variable_name "lat" (Float32Array lat) ;;
      s2 <~ lift (py_getitem slices 2) ;;
      part <~ lift (call_method "read_variable_part" read_variable_part [s2]) ;;
      _ <~ set_grid_data variable_name "part_of_day" (UInt16Array part) ;;
      buf <~ lift (read_variable_data bytes_read index slices) ;;
      set_grid_data variable_name variable_name (UInt16Array3 buf)
  else aret tt.

(** The body of [for var in projection]. *)
Definition process_var (bytes_read : list byte) (var : projected) : action unit :=
  last <~ lift (py_getitem var (Z.of_nat (length var) - 1)) ;;
  let var_name := fst last in
  if existsb (String.eqb var_name) ["lat"; "lon"; "part_of_day"] then
    if String.eqb var_name "lon" then
      v <~ lift (call_method "read_variable_lon" read_variable_lon []) ;;
      set_top_data "lon" (Float32Array v)
    else if String.eqb var_name "lat" then
      v <~ lift (call_method "read_variable_lat" read_variable_lat []) ;;
      set_top_data "lat" (Float32Array v)
    else if String.eqb var_name "part_of_day" then
      v <~ lift (call_method "read_variable_part" read_variable_part []) ;;
      set_top_data "part_of_day" (UInt16Array v)
    else aret tt
  else
    afor_in variables (decode_variable bytes_read var var_name).

(** The names the projection lists, [proj[0][0]] of each item. *)
Definition requested_names (projection : list projected) : result (list string) :=
  for_in projection (fun val_arr proj =>
    first <- py_getitem proj 0 ;;
    ret (val_arr ++ [fst first])) [].

(** Removal from the copy of every key the projection does not list. *)
Definition prune (val_arr : list string) (dataset_copy : DatasetType) : DatasetType :=
  fold_left (fun copy key =>
               if negb (existsb (String.eqb key) val_arr) then pop key copy else copy)
            (keys dataset_copy) dataset_copy.

(** [parse_constraints], from the projection that [parse_qs] returns and the
    outcome of opening and reading the file ([inl exc] when that raised):
    the handler as the call leaves it, and what the call returned or raised.
    [copy.deepcopy] of a value is the value. *)
Definition parse_constraints (self : handler) (file : string + list byte)
    (projection : list projected) : handler * result DatasetType :=
  let run : action DatasetType :=
    _ <~ (match projection with
          | [] => aret tt
          | _ :: _ =>
              match file with
              | inl exc =>
                  lift (raise (OpenFileError ("Unable to open file " ++ filepath self ++ ": " ++ exc)%string))
              | inr bytes_read => afor_in projection (process_var bytes_read)
              end
          end) ;;
    fun ds =>
      let dataset_copy := ds in
      match projection with
      | [] => (ds, ret dataset_copy)
      | _ :: _ =>
          (ds, val_arr <- requested_names projection ;; ret (prune val_arr dataset_copy))
      end in
  let '(ds, r) := run (dataset self) in
  (mkHandler (filepath self) ds, r).

(** ** The file names of the handler

    [extensions] is a compiled regular expression; the server offers a file
    to the handler when [extensions.match(filepath)] succeeds.  The pattern is
    embedded as [sre_parse] reads it, a sequence of nodes, and matched as
    [_sre] matches it; the nodes are the ones the pattern uses. *)

(** A node that matches one character: [.], a literal, or a set of ranges. *)
Inductive charset : Type :=
| ANY
| LITERAL (c : ascii)
| IN (ranges : list (ascii * ascii)).

(** [MAX_REPEAT] repeats a sequence of one-character nodes between [lo] and
    [hi] times ([None]: no upper bound); a group that is repeated counts as its
    sequence, what it captures plays no part in whether the match succeeds.
    [AT_END] is [$]. *)
Inductive node : Type :=
| One (cs : charset)
| MAX_REPEAT (lo : nat) (hi : option nat) (body : list charset)
| AT_END.

Definition newline : ascii := "010"%char.

(** [lower] of a byte string pattern: the ASCII capitals only. *)
Definition sre_lower (c : ascii) : ascii :=
  let n := N_of_ascii c in
  if ((65 <=? n) && (n <=? 90))%N then ascii_of_N (n + 32) else c.

Definition in_range (lo hi c : ascii) : bool :=
  ((N_of_ascii lo <=? N_of_ascii c) && (N_of_ascii c <=? N_of_ascii hi))%N.

(** One character against a one-character node.  Under [re.IGNORECASE] the
    character and the operands of the node are lowered; [.] matches anything
    but a newline. *)
Definition charset_match (ignorecase : bool) (cs : charset) (c : ascii) : bool :=
  let low := fun x => if ignorecase then sre_lower x else x in
  match cs with
  | ANY => negb (Ascii.eqb c newline)
  | LITERAL x => Ascii.eqb (low c) (low x)
  | IN ranges => existsb (fun r => in_range (low (fst r)) (low (snd r)) (low c)) ranges
  end.

(** A sequence of one-character nodes against the head of the input: what is
    left of the input when they match. *)
Fixpoint match_word (ignorecase : bool) (body : list charset) (s : list ascii)
  : option (list ascii) :=
  match body, s with
  | [], _ => Some s
  | cs :: body', c :: s' =>
      if charset_match ignorecase cs c then match_word ignorecase body' s' else None
  | _ :: _, [] => None
  end.

(** [MAX_REPEAT] after [count] repetitions: one more repetition is tried
    first, then the rest of the pattern, [k], once [lo] repetitions are there.
    Each repetition consumes input, [fuel] bounds their number. *)
Fixpoint match_repeat (ignorecase : bool) (fuel : nat) (body : list charset) (count lo : nat)
    (hi : option nat) (k : list ascii -> bool) (s : list ascii) : bool :=
  (match fuel with
   | O => false
   | S fuel' =>
       (match hi with None => true | Some h => (count <? h)%nat end)
       && match match_word ignorecase body s with
          | Some s' => match_repeat ignorecase fuel' body (S count) lo hi k s'
          | None => false
          end
   end)
  || ((lo <=? count)%nat && k s).

(** The end of the string, or just before a newline that ends it. *)
Definition at_end (s : list ascii) : bool :=
  match s with
  | [] => true
  | [c] => Ascii.eqb c newline
  | _ => false
  end.

(** [pattern.match(s)]: the pattern against the beginning of [s]; a match
    need not reach the end of [s]. *)
Fixpoint sre_match (ignorecase : bool) (pattern : list node) (s : list ascii) : bool :=
  match pattern with
  | [] => true
  | One cs :: pattern' =>
      match s with
      | c :: s' => charset_match ignorecase cs c && sre_match ignorecase pattern' s'
      | [] => false
      end
  | MAX_REPEAT lo hi body :: pattern' =>
      match_repeat ignorecase (length s) body 0 lo hi (sre_match ignorecase pattern') s
  | AT_END :: pattern' => at_end s && sre_match ignorecase pattern' s
  end.

(** [re.compile(r".*f[0-9]{2}_[0-9]{8}[0-9a-z]{2}(\.gz)?$", re.IGNORECASE)] *)
Definition extensions : list node :=
  [MAX_REPEAT 0 None [ANY];
   One (LITERAL "f");
   MAX_REPEAT 2 (Some 2%nat) [IN [("0", "9")]];
   One (LITERAL "_");
   MAX_REPEAT 8 (Some 8%nat) [IN [("0", "9")]];
   MAX_REPEAT 2 (Some 2%nat) [IN [("0", "9"); ("a", "z")]];
   MAX_REPEAT 0 (Some 1%nat) [LITERAL "."; LITERAL "g"; LITERAL "z"];
   AT_END]%char.

(** [BinarySsmiHandler.extensions.match(filepath)] succeeds. *)
Definition extensions_match (filepath : string) : bool :=
  sre_match true extensions (list_ascii_of_string filepath).

(** ** Vocabulary of the specification *)

(** The ceiling of [a / b], for a positive [b]. *)
Definition ceil_div (a b : Z) : Z := (a + b - 1) / b.

(** The indices the specification gives a window: [start], [start+step], ...,
    [ceil((stop-start)/step)] of them. *)
Definition window_indices (w : slice) : list Z :=
  map (fun t : nat => start w + Z.of_nat t * step w)
      (seq 0 (Z.to_nat (ceil_div (stop w - start w) (step w)))).

(** A float that denotes the rational [q]. *)
Definition float_is (x : float) (q : Q) : Prop :=
  exists q', float_to_Q x = Some q' /\ (q' == q)%Q.

Definition float_isb (x : float) (q : Q) : bool :=
  match float_to_Q x with
  | Some q' => Qeq_bool q' q
  | None => false
  end.

(** The closed forms of the specification, [0.25 * (i + 1) - 0.125] and
    [0.25 * j - 90.125], over the rationals. *)
Definition longitude (i : Z) : Q := ((1 # 4) * inject_Z (i + 1) - (1 # 8))%Q.
Definition latitude (j : Z) : Q := ((1 # 4) * inject_Z j - (721 # 8))%Q.

(** What a generator does on a window of an axis of [size] items whose items
    have the values [value]: it visits exactly [window_indices], all of them in
    [[start, stop)], and returns their values in that order. *)
Definition generates {A} (gen : slice -> result (list (option A))) (size : Z)
    (value : Z -> A) (w : slice) : Prop :=
  list_getslice (range size) w = inr (window_indices w)
  /\ gen w = inr (map (fun i => Some (value i)) (window_indices w))
  /\ Z.of_nat (length (window_indices w)) = ceil_div (stop w - start w) (step w)
  /\ Forall (fun i => start w <= i < stop w) (window_indices w).

(** A bound of a slice, counted from the end of the axis when negative. *)
Definition wrap_bound (size x : Z) : Z := if x <? 0 then x + size else x.

(** The indices a window selects on an axis of [size] items, in closed form:
    negative bounds count from the end, bounds beyond the axis are clamped, a
    positive step goes up from the start to below the stop, a negative step
    goes down from the start to above the stop. *)
Definition slice_selection (size : Z) (w : slice) : list Z :=
  if 0 <? step w then
    let a := Z.max 0 (Z.min size (wrap_bound size (start w))) in
    let b := Z.max 0 (Z.min size (wrap_bound size (stop w))) in
    map (fun t : nat => a + Z.of_nat t * step w)
        (seq 0 (Z.to_nat (ceil_div (b - a) (step w))))
  else
    let a := Z.max (-1) (Z.min (size - 1) (wrap_bound size (start w))) in
    let b := Z.max (-1) (Z.min (size - 1) (wrap_bound size (stop w))) in
    map (fun t : nat => a + Z.of_nat t * step w)
        (seq 0 (Z.to_nat (ceil_div (a - b) (- step w)))).

(** What a generator does on any window at all: a zero step raises ValueError;
    every other window is clamped to the axis, and the values of the indices
    that remain, those of [slice_selection], all on the axis, are returned in
    that order. *)
Definition clamps {A} (gen : slice -> result (list (option A))) (size : Z)
    (value : Z -> A) (w : slice) : Prop :=
  match gen w with
  | inl e => step w = 0 /\ e = ValueError "slice step cannot be zero"
  | inr buf =>
      step w <> 0
      /\ buf = map (fun i => Some (value i)) (slice_selection size w)
      /\ Forall (fun i => 0 <= i < size) (slice_selection size w)
  end.

(** An array of shape [(n0, n1, n2)]. *)
Definition has_shape {A} (n0 n1 n2 : nat) (buf : ndarray3 A) : Prop :=
  length buf = n0
  /\ Forall (fun plane => length plane = n1 /\ Forall (fun row => length row = n2) plane) buf.

(** The cell of [buf] that the decoder assigns for the source index [(i, j, k)]
    of windows of step 1 holds the byte of [bytes] at [byteIndex i j k index]. *)
Definition holds_sample (bytes : list byte) (index : Z) (w0 w1 w2 : slice)
    (buf : ndarray3 Z) (i j k : Z) : Prop :=
  exists b, bytes !! Z.to_nat (byteIndex i j k index) = Some b
    /\ ndarray3_at buf (Z.to_nat (i - start w0)) (Z.to_nat (j - start w1))
                       (Z.to_nat (k - start w2)) = Some (Some (uint8_value b)).

Definition in_window (w : slice) (i : Z) : Prop := start w <= i < stop w.

(** A valid window of an axis of [size] items, and one that strides over at
    least two indices. *)
Definition valid_window (size : Z) (w : slice) : Prop :=
  0 <= start w < stop w /\ stop w <= size /\ 1 <= step w.

Definition strided (w : slice) : Prop := 2 <= step w /\ start w + step w < stop w.

(** The decoder's loop invariant on windows of step 1: the buffer has the shape
    of the three windows, and every source index among [W], the ones visited so
    far, lies in the windows and has its sample in place. *)
Definition decoded (bytes : list byte) (index : Z) (w0 w1 w2 : slice)
    (W : Z * Z * Z -> Prop) (buf : ndarray3 Z) : Prop :=
  has_shape (Z.to_nat (stop w0 - start w0)) (Z.to_nat (stop w1 - start w1))
            (Z.to_nat (stop w2 - start w2)) buf
  /\ forall i j k, W (i, j, k) ->
       in_window w0 i /\ in_window w1 j /\ in_window w2 k
       /\ holds_sample bytes index w0 w1 w2 buf i j k.

(** The names in a dataset: each key, and for a grid the keys of its children. *)
Definition variable_keys (v : variable) : option (list string) :=
  match v with
  | Base _ => None
  | Grid _ children => Some (keys children)
  end.

Definition skeleton (ds : DatasetType) : list (string * option (list string)) :=
  map (fun kv => (fst kv, variable_keys (snd kv))) ds.

(** The datasets a handler can hold: those with the names [BinarySsmiHandler]
    gave them. *)
Definition well_formed (ds : DatasetType) : Prop := skeleton ds = skeleton init_dataset.

(** The writes [self.dataset[g][c].data = v] of a run, in order. *)
Definition apply_writes (ws : list (string * string * array)) (ds : DatasetType) : DatasetType :=
  fold_left (fun ds w => write (fst (fst w)) (snd (fst w)) (snd w) ds) ws ds.

(** An action that, on every well-formed dataset, performs the same writes and
    has the same outcome. *)
Definition writer {A} (m : action A) : Prop :=
  exists ws r, forall ds, well_formed ds -> m ds = (apply_writes ws ds, r).

(** ** Vocabulary for the further properties *)

(** [self.dataset[g][c].data], read. *)
Definition grid_data (ds : DatasetType) (g c : string) : option (option array) :=
  match alist_lookup g ds with
  | Some (Grid _ children) => option_map data (alist_lookup c children)
  | _ => None
  end.

(** What the request of the variable [name], of catalog position [index], with
    the windows [w0], [w1], [w2] does to a dataset that has the grid: the three
    coordinate arrays and then the samples are computed and stored one after
    the other, up to the first computation that raises. *)
Definition store_variable (bytes : list byte) (name : string) (index : Z)
    (w0 w1 w2 : slice) (ds : DatasetType) : DatasetType * result unit :=
  match read_variable_lon w0 with
  | inl e => (ds, inl e)
  | inr lon =>
      let ds := write name "lon" (Float32Array lon) ds in
      match read_variable_lat w1 with
      | inl e => (ds, inl e)
      | inr lat =>
          let ds := write name "lat" (Float32Array lat) ds in
          match read_variable_part w2 with
          | inl e => (ds, inl e)
          | inr part =>
              let ds := write name "part_of_day" (UInt16Array part) ds in
              match read_variable_data bytes index [w0; w1; w2] with
              | inl e => (ds, inl e)
              | inr buf => (write name name (UInt16Array3 buf) ds, inr tt)
              end
          end
      end
  end.

(** An action that leaves the entry [key] of the dataset as it is. *)
Definition preserves {A} (key : string) (m : action A) : Prop :=
  forall ds, alist_lookup key (fst (m ds)) = alist_lookup key ds.

(** The name an item of the projection requests: that of its last component. *)
Definition item_name (var : projected) : option string := option_map fst (last var).

(** A writer all of whose writes go to the grid [g]. *)
Definition writer_on {A} (g : string) (m : action A) : Prop :=
  exists ws r,
    Forall (fun w : string * string * array => fst (fst w) = g) ws
    /\ forall ds, well_formed ds -> m ds = (apply_writes ws ds, r).

(** A window of step 1 or -1 that starts inside an axis of [size] items. *)
Definition unit_window (size : Z) (w : slice) : Prop :=
  (step w = 1 \/ step w = -1) /\ 0 <= start w < size.

(** The cell, along an axis of [n] cells, that the subscript [i - start] of the
    decoder designates: numpy counts a negative subscript from the end. *)
Definition stored_cell (w : slice) (n : nat) (i : Z) : nat :=
  Z.to_nat ((i - start w) mod Z.of_nat n).

(** The cell of the data array that receives the samples of the index at
    position [t] of a window's coordinate array, of [n] cells: the same
    position for an ascending window; for a descending one the first cell,
    then the cells from the last one backwards. *)
Definition data_cell (w : slice) (n t : nat) : nat :=
  if 0 <? step w then t else match t with O => O | S _ => (n - t)%nat end.

(** The decoder's loop invariant on unit windows: the buffer has the shape of
    the three selections, and every source index among [W], the ones visited
    so far, is selected and has its sample in the cell of its subscripts. *)
Definition placed (bytes : list byte) (index : Z) (w0 w1 w2 : slice)
    (W : Z * Z * Z -> Prop) (buf : ndarray3 Z) : Prop :=
  let n0 := length (slice_selection 1440 w0) in
  let n1 := length (slice_selection 720 w1) in
  let n2 := length (slice_selection 2 w2) in
  has_shape n0 n1 n2 buf
  /\ forall i j k, W (i, j, k) ->
       i ∈ slice_selection 1440 w0 /\ j ∈ slice_selection 720 w1 /\ k ∈ slice_selection 2 w2
       /\ exists b, bytes !! Z.to_nat (byteIndex i j k index) = Some b
            /\ ndarray3_at buf (stored_cell w0 n0 i) (stored_cell w1 n1 j) (stored_cell w2 n2 k)
               = Some (Some (uint8_value b)).

(** The name under which an item of the projection is kept in the result: that
    of its first component. *)
Definition first_name (var : projected) : option string := option_map fst (head var).

(** What a pattern matches, said without the matcher: [n] words in a row, each
    with one character for each node of [body]. *)
Inductive repeats (ignorecase : bool) (body : list charset) : nat -> list ascii -> Prop :=
| repeats_O : repeats ignorecase body O []
| repeats_S n w ws :
    Forall2 (fun cs c => charset_match ignorecase cs c = true) body w ->
    repeats ignorecase body n ws ->
    repeats ignorecase body (S n) (w ++ ws).

(** The pattern consumes [w] when [rest] follows it. *)
Fixpoint consumes (ignorecase : bool) (pattern : list node) (w rest : list ascii) : Prop :=
  match pattern with
  | [] => w = []
  | One cs :: pattern' =>
      exists c w', w = c :: w' /\ charset_match ignorecase cs c = true
                   /\ consumes ignorecase pattern' w' rest
  | MAX_REPEAT lo hi body :: pattern' =>
      exists n w1 w2, w = w1 ++ w2 /\ repeats ignorecase body n w1
        /\ (lo <= n)%nat /\ (match hi with None => True | Some h => (n <= h)%nat end)
        /\ consumes ignorecase pattern' w2 rest
  | AT_END :: pattern' =>
      (w ++ rest = [] \/ w ++ rest = [newline]) /\ consumes ignorecase pattern' w rest
  end.

Definition is_digit (c : ascii) : bool := in_range "0" "9" c.
Definition is_letter (c : ascii) : bool := in_range "a" "z" c || in_range "A" "Z" c.

(** The file names the handler takes, in words: anything without a newline,
    then [f] and two digits (the satellite), an underscore, eight digits (the
    date), two letters or digits (the version), possibly [.gz], and possibly a
    newline; letters in either case. *)
Definition accepted (filepath : list ascii) : Prop :=
  exists dir f sat date ver ext eol,
    filepath = dir ++ f :: sat ++ "_"%char :: date ++ ver ++ ext ++ eol
    /\ Forall (fun c => c <> newline) dir
    /\ (f = "f" \/ f = "F")%char
    /\ length sat = 2%nat /\ Forall (fun c => is_digit c = true) sat
    /\ length date = 8%nat /\ Forall (fun c => is_digit c = true) date
    /\ length ver = 2%nat /\ Forall (fun c => is_digit c || is_letter c = true) ver
    /\ (ext = [] \/ exists g z, ext = ["."%char; g; z]
                      /\ (g = "g" \/ g = "G")%char /\ (z = "z" \/ z = "Z")%char)
    /\ (eol = [] \/ eol = [newline]).

(** * Properties *)

(** ** The error monad and loops *)

Lemma for_in_app {A S} (l1 l2 : list A) (body : S -> A -> result S) s :
  for_in (l1 ++ l2) body s = (s' <- for_in l1 body s ;; for_in l2 body s').
Proof.
  revert s. induction l1 as [|x l1 IH]; intros s; simpl; [reflexivity|].
  destruct (body s x) as [e|s']; simpl; [reflexivity|apply IH].
Qed.

(** A loop whose body establishes, for each item [x], the part [cov x] of a
    monotone invariant indexed by what has been covered so far. *)
Lemma for_in_cover {A T S} (Inv : (T -> Prop) -> S -> Prop) (cov : A -> T -> Prop)
    (l : list A) (body : S -> A -> result S) :
  (forall (W W' : T -> Prop) s, (forall t, W' t -> W t) -> Inv W s -> Inv W' s) ->
  forall W s, Inv W s ->
  (forall W s x, x ∈ l -> Inv W s ->
     exists s', body s x = inr s' /\ Inv (fun t => W t \/ cov x t) s') ->
  exists s', for_in l body s = inr s' /\ Inv (fun t => W t \/ exists x, x ∈ l /\ cov x t) s'.
Proof.
  intros Hmono. induction l as [|x l IH]; intros W s HW Hbody.
  - exists s. split; [reflexivity|].
    apply (Hmono W); [|assumption].
    intros t [Ht|(x & Hx & _)]; [assumption|]. inversion Hx.
  - destruct (Hbody W s x) as (s1 & Hs1 & HW1); [left|assumption|].
    destruct (IH _ _ HW1 (fun W s y Hy => Hbody W s y (list_elem_of_further _ _ _ Hy)))
      as (s2 & Hs2 & HW2).
    exists s2. split.
    + simpl. rewrite Hs1. exact Hs2.
    + apply (Hmono _ _ _) with (2 := HW2). intros t Ht. cbn beta in *.
      destruct Ht as [Ht|(y & Hy & Hc)]; [left; left; assumption|].
      apply elem_of_cons in Hy as [->|Hy].
      * left. right. assumption.
      * right. exists y. split; assumption.
Qed.

(** ** Slicing [range(n)] *)

Ltac zcases :=
  repeat match goal with
    | |- context [Z.ltb ?a ?b] => destruct (Z.ltb_spec a b)
    | |- context [Z.leb ?a ?b] => destruct (Z.leb_spec a b)
    | |- context [Z.eqb ?a ?b] => destruct (Z.eqb_spec a b)
    end.

Lemma ceil_div_spec a b : 0 < b -> (ceil_div a b - 1) * b < a <= ceil_div a b * b.
Proof.
  intros Hb. unfold ceil_div.
  pose proof (Z.div_mod (a + b - 1) b ltac:(lia)).
  pose proof (Z.mod_pos_bound (a + b - 1) b Hb). nia.
Qed.

Lemma slice_indices_valid n a b st :
  0 <= a < b -> b <= n -> 1 <= st ->
  slice_indices n (Slice a b st) = inr (a, b, st, ceil_div (b - a) st).
Proof.
  intros Hab Hbn Hst. unfold slice_indices, ceil_div, ret, raise. cbn [start stop step].
  rewrite (proj2 (Z.eqb_neq st 0)), (proj2 (Z.ltb_ge st 0)), (proj2 (Z.ltb_lt 0 st)) by lia.
  rewrite (proj2 (Z.ltb_ge a 0)), (proj2 (Z.ltb_ge b 0)) by lia. cbv iota.
  rewrite (proj2 (Z.ltb_ge a 0)), (proj2 (Z.ltb_ge b 0)) by lia. cbv iota.
  rewrite (proj2 (Z.leb_gt n a)) by lia.
  assert (Hb : (if n <=? b then n else b) = b) by (zcases; lia).
  rewrite Hb, (proj2 (Z.leb_gt b a)) by lia. cbn [andb orb].
  rewrite Z.quot_div_nonneg by lia.
  replace (b - a + st - 1) with (b - a - 1 + 1 * st) by lia.
  rewrite Z.div_add by lia. reflexivity.
Qed.

Lemma range_length n : length (range n) = Z.to_nat n.
Proof. apply length_seqZ. Qed.

Lemma range_lookup n (i : Z) : 0 <= i < n -> range n !! Z.to_nat i = Some i.
Proof.
  intros Hi. unfold range. rewrite lookup_seqZ. split; [lia|lia].
Qed.

Lemma elem_of_range n (i : Z) : i ∈ range n <-> 0 <= i < n.
Proof. unfold range. rewrite elem_of_seqZ. lia. Qed.

Lemma range_getslice_valid n (w : slice) :
  0 <= start w < stop w -> stop w <= n -> 1 <= step w ->
  list_getslice (range n) w = inr (window_indices w).
Proof.
  intros Hab Hbn Hst. destruct w as [a b st]. cbn [start stop step] in *.
  unfold list_getslice. rewrite range_length, Z2Nat.id by lia.
  rewrite slice_indices_valid by lia. cbn [bind]. unfold ret, window_indices. f_equal.
  cbn [start stop step].
  pose proof (ceil_div_spec (b - a) st ltac:(lia)) as Hc.
  generalize dependent (ceil_div (b - a) st). intros c Hc.
  assert (Hall : forall t : nat, t ∈ seq 0 (Z.to_nat c) -> 0 <= a + Z.of_nat t * st < n).
  { intros t Ht. apply elem_of_seq in Ht. nia. }
  induction (seq 0 (Z.to_nat c)) as [|t l IH]; [reflexivity|].
  cbn [omap map list_omap]. rewrite range_lookup by (apply Hall; left).
  f_equal. apply IH. intros t' Ht'. apply Hall. right. assumption.
Qed.

Lemma slice_indices_step_zero n (w : slice) :
  step w = 0 -> slice_indices n w = inl (ValueError "slice step cannot be zero").
Proof. intros H. unfold slice_indices. rewrite H. reflexivity. Qed.

Lemma slice_indices_step_nonzero n (w : slice) :
  step w <> 0 -> exists ind, slice_indices n w = inr ind.
Proof.
  intros H. unfold slice_indices. rewrite (proj2 (Z.eqb_neq _ _) H). eexists. reflexivity.
Qed.

(** Whatever the window, slicing [range(n)] selects items of [range(n)]. *)
Lemma range_getslice_cases n (w : slice) :
  match list_getslice (range n) w with
  | inl e => step w = 0 /\ e = ValueError "slice step cannot be zero"
  | inr idxs => step w <> 0 /\ Forall (fun i => 0 <= i < n) idxs
  end.
Proof.
  unfold list_getslice. destruct (Z.eq_dec (step w) 0) as [H0|H0].
  - rewrite slice_indices_step_zero by assumption. split; [assumption|reflexivity].
  - destruct (slice_indices_step_nonzero (Z.of_nat (length (range n))) w H0) as ([[[a b] st] len] & ->).
    cbn [bind ret]. split; [assumption|]. apply Forall_forall. intros i Hi.
    apply list_elem_of_omap in Hi as (t & _ & Ht).
    apply elem_of_range. eapply list_elem_of_lookup_2. exact Ht.
Qed.

(** *** Slicing in closed form *)

Ltac zsplit :=
  match goal with
  | |- context [Z.ltb ?a ?b] =>
      lazymatch a with
      | context [if _ then _ else _] => fail
      | _ => lazymatch b with
             | context [if _ then _ else _] => fail
             | _ => destruct (Z.ltb_spec a b)
             end
      end
  | |- context [Z.leb ?a ?b] =>
      lazymatch a with
      | context [if _ then _ else _] => fail
      | _ => lazymatch b with
             | context [if _ then _ else _] => fail
             | _ => destruct (Z.leb_spec a b)
             end
      end
  end.

Lemma quot_ceil m d : 0 < m -> 0 < d -> Z.quot (m - 1) d + 1 = ceil_div m d.
Proof.
  intros Hm Hd. unfold ceil_div. rewrite Z.quot_div_nonneg by lia.
  replace (m + d - 1) with (m - 1 + 1 * d) by lia. rewrite Z.div_add by lia. reflexivity.
Qed.

Lemma quot_ceil_opp m d : 0 < m -> 0 < d -> Z.quot (- m + 1) (- d) + 1 = ceil_div m d.
Proof.
  intros Hm Hd. replace (- m + 1) with (- (m - 1)) by lia.
  rewrite Z.quot_opp_opp by lia. apply quot_ceil; assumption.
Qed.

Lemma ceil_div_nonpos m d : m <= 0 -> 0 < d -> Z.to_nat (ceil_div m d) = 0%nat.
Proof.
  intros Hm Hd. pose proof (ceil_div_spec m d Hd). 
  assert (ceil_div m d <= 0) by nia. lia.
Qed.

(** [PySlice_GetIndicesEx] in closed form, for a positive step. *)
Lemma slice_indices_forward n (w : slice) :
  0 <= n -> 0 < step w ->
  exists a b len,
    slice_indices n w = inr (a, b, step w, len)
    /\ a = Z.max 0 (Z.min n (wrap_bound n (start w)))
    /\ b = Z.max 0 (Z.min n (wrap_bound n (stop w)))
    /\ Z.to_nat len = Z.to_nat (ceil_div (b - a) (step w)).
Proof.
  intros Hn Hst. destruct w as [x y st]. cbn [start stop step] in *.
  unfold slice_indices, wrap_bound, ret, raise. cbn [start stop step].
  rewrite (proj2 (Z.eqb_neq st 0)) by lia.
  repeat zsplit; cbn [andb orb]; try lia;
    (eexists _, _, _; split; [reflexivity|]; split; [lia|]; split; [lia|]);
    first [ symmetry; apply ceil_div_nonpos; lia
          | rewrite quot_ceil by lia; reflexivity ].
Qed.

(** The same for a negative step. *)
Lemma slice_indices_backward n (w : slice) :
  0 <= n -> step w < 0 ->
  exists a b len,
    slice_indices n w = inr (a, b, step w, len)
    /\ a = Z.max (-1) (Z.min (n - 1) (wrap_bound n (start w)))
    /\ b = Z.max (-1) (Z.min (n - 1) (wrap_bound n (stop w)))
    /\ Z.to_nat len = Z.to_nat (ceil_div (a - b) (- step w)).
Proof.
  intros Hn Hst. destruct w as [x y st]. cbn [start stop step] in *.
  unfold slice_indices, wrap_bound, ret, raise. cbn [start stop step].
  rewrite (proj2 (Z.eqb_neq st 0)) by lia.
  repeat zsplit; cbn [andb orb]; try lia;
    (eexists _, _, _; split; [reflexivity|]; split; [lia|]; split; [lia|]);
    first [ symmetry; apply ceil_div_nonpos; lia
          | match goal with
            | |- context [Z.quot (?b - ?a + 1) ?st] =>
                replace (b - a + 1) with (- (a - b) + 1) by lia;
                replace st with (- (- st)) at 1 by lia;
                rewrite quot_ceil_opp by lia; reflexivity
            end ].
Qed.

Lemma omap_lookup_range n (f : nat -> Z) (ts : list nat) :
  (forall t, t ∈ ts -> 0 <= f t < n) ->
  omap (fun t => range n !! Z.to_nat (f t)) ts = map f ts.
Proof.
  intros Hall. induction ts as [|t ts IH]; [reflexivity|].
  cbn [omap map list_omap]. rewrite range_lookup by (apply Hall; left).
  f_equal. apply IH. intros t' Ht'. apply Hall. right. exact Ht'.
Qed.

(** Slicing [range(size)] by any window of a step other than 0 selects
    [slice_selection]. *)
Lemma range_getslice_selection size (w : slice) :
  0 <= size -> step w <> 0 ->
  list_getslice (range size) w = inr (slice_selection size w).
Proof.
  intros Hsize Hst. unfold list_getslice, slice_selection.
  rewrite range_length, Z2Nat.id by lia.
  destruct (Z.ltb_spec 0 (step w)) as [Hpos|Hneg].
  - destruct (slice_indices_forward size w Hsize Hpos) as (a & b & len & -> & Ha & Hb & Hlen).
    cbn [bind ret]. rewrite Hlen, <- Ha, <- Hb. f_equal.
    apply (omap_lookup_range size (fun t => a + Z.of_nat t * step w)).
    intros t Ht. apply elem_of_seq in Ht.
    pose proof (ceil_div_spec (b - a) (step w) Hpos). nia.
  - assert (Hlt : step w < 0) by lia.
    destruct (slice_indices_backward size w Hsize Hlt) as (a & b & len & -> & Ha & Hb & Hlen).
    cbn [bind ret]. rewrite Hlen, <- Ha, <- Hb. f_equal.
    apply (omap_lookup_range size (fun t => a + Z.of_nat t * step w)).
    intros t Ht. apply elem_of_seq in Ht.
    pose proof (ceil_div_spec (a - b) (- step w) ltac:(lia)). nia.
Qed.

Lemma generator_selection {A} (gen : slice -> result (list (option A))) size (value : Z -> A) :
  0 <= size ->
  (forall w, gen w = (rng <- list_getslice (range size) w ;;
                      ret (map (fun i => Some (value i)) rng))) ->
  forall w, step w <> 0 -> gen w = inr (map (fun i => Some (value i)) (slice_selection size w)).
Proof.
  intros Hsize Hgen w Hst. rewrite Hgen, range_getslice_selection by assumption. reflexivity.
Qed.

(** ** Array subscripts *)

Lemma np_index_in_range size idx :
  0 <= idx < Z.of_nat size -> np_index size idx = inr (Z.to_nat idx).
Proof.
  intros H. unfold np_index. rewrite (proj2 (Z.ltb_ge idx 0)) by lia. cbv iota.
  rewrite (proj2 (Z.ltb_ge idx 0)), (proj2 (Z.leb_gt _ _)) by lia. reflexivity.
Qed.

(** ** Coordinate generators *)

(** The loop of a generator assigns every cell of the array it allocated. *)
Lemma coordinate_loop {A B} (f : A -> B) (rng : list A) (done : ndarray1 B) :
  for_in rng (fun '(buf, cnt) i =>
      buf <- np_setitem buf cnt (f i) ;;
      ret (buf, cnt + 1)) (done ++ np_empty (length rng), Z.of_nat (length done))
  = inr (done ++ map (fun i => Some (f i)) rng, Z.of_nat (length done + length rng)).
Proof.
  revert done. induction rng as [|i rng IH]; intros done.
  - cbn. rewrite !app_nil_r, Nat.add_0_r. reflexivity.
  - cbn [for_in length np_empty replicate map].
    unfold np_setitem at 1.
    rewrite np_index_in_range by (rewrite length_app; cbn [length]; lia).
    cbn [bind ret]. rewrite Nat2Z.id.
    rewrite insert_app_r_alt, Nat.sub_diag by lia. cbn [insert list_insert].
    specialize (IH (done ++ [Some (f i)])).
    rewrite length_app in IH. cbn [length] in IH.
    rewrite <- !app_assoc in IH. cbn [app] in IH.
    replace (Z.of_nat (length done) + 1) with (Z.of_nat (length done + 1)) by lia.
    unfold np_empty in IH. rewrite IH. do 2 f_equal. lia.
Qed.

Lemma read_variable_lon_eq (w : slice) :
  read_variable_lon w =
  (rng <- list_getslice (range 1440) w ;; ret (map (fun i => Some (to_float32 (lonValue i))) rng)).
Proof.
  unfold read_variable_lon. change (1439 + 1) with 1440.
  destruct (list_getslice (range 1440) w) as [e|rng]; [reflexivity|]. cbn [bind].
  pose proof (coordinate_loop (fun i => to_float32 (lonValue i)) rng []) as H.
  cbn [app length Nat.add] in H. change (Z.of_nat 0) with 0 in H.
  cbv beta zeta. rewrite H. reflexivity.
Qed.

Lemma read_variable_lat_eq (w : slice) :
  read_variable_lat w =
  (rng <- list_getslice (range 720) w ;; ret (map (fun j => Some (to_float32 (latValue j))) rng)).
Proof.
  unfold read_variable_lat. change (719 + 1) with 720.
  destruct (list_getslice (range 720) w) as [e|rng]; [reflexivity|]. cbn [bind].
  pose proof (coordinate_loop (fun j => to_float32 (latValue j)) rng []) as H.
  cbn [app length Nat.add] in H. change (Z.of_nat 0) with 0 in H.
  cbv beta zeta. rewrite H. reflexivity.
Qed.

Lemma read_variable_part_eq (w : slice) :
  read_variable_part w = (rng <- list_getslice (range 2) w ;; ret (map Some rng)).
Proof.
  unfold read_variable_part.
  destruct (list_getslice (range 2) w) as [e|rng]; [reflexivity|]. cbn [bind].
  pose proof (coordinate_loop (fun k => k) rng []) as H.
  cbn [app length Nat.add] in H. change (Z.of_nat 0) with 0 in H.
  cbv beta zeta. rewrite H. reflexivity.
Qed.

Lemma float_isb_is x q : float_isb x q = true -> float_is x q.
Proof.
  unfold float_isb, float_is. destruct (float_to_Q x) as [q'|]; [|discriminate].
  intros H. exists q'. split; [reflexivity|]. apply Qeq_bool_iff. exact H.
Qed.

Lemma forallb_range (P : Z -> bool) n :
  forallb P (range n) = true -> forall i, 0 <= i < n -> P i = true.
Proof.
  intros H i Hi. rewrite forallb_forall in H. apply H.
  apply list_elem_of_In, elem_of_range. exact Hi.
Qed.

Lemma lonValue_longitude i :
  0 <= i < 1440 -> float_is (to_float32 (lonValue i)) (longitude i).
Proof.
  intros Hi. apply float_isb_is. revert i Hi.
  apply (forallb_range (fun i => float_isb (to_float32 (lonValue i)) (longitude i))).
  vm_compute. reflexivity.
Qed.

Lemma latValue_latitude j :
  0 <= j < 720 -> float_is (to_float32 (latValue j)) (latitude j).
Proof.
  intros Hj. apply float_isb_is. revert j Hj.
  apply (forallb_range (fun j => float_isb (to_float32 (latValue j)) (latitude j))).
  vm_compute. reflexivity.
Qed.

Lemma longitude_increasing i i' : i < i' -> (longitude i < longitude i')%Q.
Proof.
  intros H. unfold longitude.
  assert (H' : (inject_Z (i + 1) < inject_Z (i' + 1))%Q) by (rewrite <- Zlt_Qlt; lia).
  lra.
Qed.

Lemma window_indices_length (w : slice) :
  0 <= start w < stop w -> 1 <= step w ->
  Z.of_nat (length (window_indices w)) = ceil_div (stop w - start w) (step w).
Proof.
  intros Hab Hst. unfold window_indices. rewrite length_map, length_seq.
  pose proof (ceil_div_spec (stop w - start w) (step w) ltac:(lia)). nia.
Qed.

Lemma window_indices_bounds (w : slice) :
  0 <= start w < stop w -> 1 <= step w ->
  Forall (fun i => start w <= i < stop w) (window_indices w).
Proof.
  intros Hab Hst. apply Forall_forall. intros i Hi. unfold window_indices in Hi.
  apply list_elem_of_fmap in Hi as (t & -> & Ht). apply elem_of_seq in Ht.
  pose proof (ceil_div_spec (stop w - start w) (step w) ltac:(lia)). nia.
Qed.

Lemma generates_valid {A} (gen : slice -> result (list (option A))) size (value : Z -> A) :
  (forall w, gen w = (rng <- list_getslice (range size) w ;;
                      ret (map (fun i => Some (value i)) rng))) ->
  forall w, 0 <= start w < stop w -> stop w <= size -> 1 <= step w ->
  generates gen size value w.
Proof.
  intros Hgen w Hab Hsize Hst.
  pose proof (range_getslice_valid size w Hab Hsize Hst) as Hsel.
  repeat split.
  - exact Hsel.
  - rewrite Hgen, Hsel. reflexivity.
  - apply window_indices_length; assumption.
  - apply window_indices_bounds; assumption.
Qed.

Lemma clamps_any {A} (gen : slice -> result (list (option A))) size (value : Z -> A) :
  0 <= size ->
  (forall w, gen w = (rng <- list_getslice (range size) w ;;
                      ret (map (fun i => Some (value i)) rng))) ->
  forall w, clamps gen size value w.
Proof.
  intros Hsize Hgen w. unfold clamps.
  destruct (Z.eq_dec (step w) 0) as [H0|H0].
  - rewrite Hgen. unfold list_getslice. rewrite slice_indices_step_zero by exact H0.
    split; [exact H0|reflexivity].
  - rewrite (generator_selection gen size value Hsize Hgen w H0).
    split; [exact H0|]. split; [reflexivity|].
    pose proof (range_getslice_cases size w) as H.
    rewrite range_getslice_selection in H by assumption. apply H.
Qed.

(** C3, as amended: the generated coordinates are [0.25 * (i + 1) - 0.125] for
    longitude index [i] and [0.25 * j - 90.125] for latitude index [j], exactly,
    in the binary32 cells of the returned arrays; longitude is strictly increasing
    over [[0, 1439]]; the end values are longitude(0) = 0.125,
    longitude(1439) = 359.875, latitude(0) = -90.125 and latitude(719) = 89.625. *)
Theorem coordinate_values :
  read_variable_lon (Slice 0 1440 1)
    = inr (map (fun i => Some (to_float32 (lonValue i))) (range 1440))
  /\ read_variable_lat (Slice 0 720 1)
    = inr (map (fun j => Some (to_float32 (latValue j))) (range 720))
  /\ (forall i, 0 <= i <= 1439 -> float_is (to_float32 (lonValue i)) (longitude i))
  /\ (forall j, 0 <= j <= 719 -> float_is (to_float32 (latValue j)) (latitude j))
  /\ (forall i i', 0 <= i -> i < i' -> i' <= 1439 ->
        exists q q', float_to_Q (to_float32 (lonValue i)) = Some q
                  /\ float_to_Q (to_float32 (lonValue i')) = Some q' /\ (q < q')%Q)
  /\ float_is (to_float32 (lonValue 0)) (1 # 8)
  /\ float_is (to_float32 (lonValue 1439)) (2879 # 8)
  /\ float_is (to_float32 (latValue 0)) (- (721 # 8))
  /\ float_is (to_float32 (latValue 719)) (717 # 8).
Proof.
  split; [|split; [|split; [|split; [|split]]]].
  - rewrite read_variable_lon_eq, range_getslice_valid by (cbn; lia).
    replace (window_indices (Slice 0 1440 1)) with (range 1440) by (vm_compute; reflexivity).
    reflexivity.
  - rewrite read_variable_lat_eq, range_getslice_valid by (cbn; lia).
    replace (window_indices (Slice 0 720 1)) with (range 720) by (vm_compute; reflexivity).
    reflexivity.
  - intros i Hi. apply lonValue_longitude. lia.
  - intros j Hj. apply latValue_latitude. lia.
  - intros i i' H0 Hlt H1.
    destruct (lonValue_longitude i ltac:(lia)) as (q & Hq & Hqe).
    destruct (lonValue_longitude i' ltac:(lia)) as (q' & Hq' & Hqe').
    exists q, q'. repeat split; [assumption..|].
    rewrite Hqe, Hqe'. apply longitude_increasing. exact Hlt.
  - repeat split; apply float_isb_is; vm_compute; reflexivity.
Qed.

Lemma coordinate_values_witness :
  float_is (to_float32 (lonValue 7)) (longitude 7)
  /\ exists q q', float_to_Q (to_float32 (lonValue 0)) = Some q
               /\ float_to_Q (to_float32 (lonValue 1439)) = Some q' /\ (q < q')%Q.
Proof.
  split.
  - apply (proj1 (proj2 (proj2 coordinate_values)) 7). lia.
  - apply (proj1 (proj2 (proj2 (proj2 (proj2 coordinate_values)))) 0 1439); lia.
Defined.

(** C3 as stated fails at both ends it gets wrong: index 0 has longitude 0.125,
    not -0.125, and index 719 has latitude 89.625, not 89.875. *)
Lemma coordinate_endpoints_counterexample :
  ~ float_is (to_float32 (lonValue 0)) (- (1 # 8))
  /\ ~ float_is (to_float32 (latValue 719)) (719 # 8).
Proof.
  split; intros (q & Hq & Hqe); vm_compute in Hq; injection Hq as <-;
    vm_compute in Hqe; discriminate.
Qed.

(** C4: on a valid window, [0 <= start < stop <= axis_size] and [step >= 1],
    each coordinate generator returns exactly [ceil((stop-start)/step)] values,
    those of the indices [start], [start+step], ..., all in [[start, stop)]. *)
Theorem window_length_law (w : slice) :
  0 <= start w < stop w -> 1 <= step w ->
  (stop w <= 1440 -> generates read_variable_lon 1440 (fun i => to_float32 (lonValue i)) w)
  /\ (stop w <= 720 -> generates read_variable_lat 720 (fun j => to_float32 (latValue j)) w)
  /\ (stop w <= 2 -> generates read_variable_part 2 (fun k => k) w).
Proof.
  intros Hab Hst. split; [|split]; intros Hsize.
  - apply generates_valid; [apply read_variable_lon_eq|assumption..].
  - apply generates_valid; [apply read_variable_lat_eq|assumption..].
  - apply generates_valid; [apply read_variable_part_eq|assumption..].
Qed.

Lemma window_length_law_witness :
  generates read_variable_lon 1440 (fun i => to_float32 (lonValue i)) (Slice 10 21 4)
  /\ generates read_variable_part 2 (fun k => k) (Slice 0 2 1).
Proof.
  split.
  - apply (window_length_law (Slice 10 21 4)); cbn; lia.
  - apply (window_length_law (Slice 0 2 1)); cbn; lia.
Defined.

(** C5, as amended: no window is rejected for its bounds.  Whatever [start] and
    [stop] are, slicing clamps them to the axis and the generator returns the
    values of the indices that remain, exactly those of [slice_selection] and
    in that order, all within the axis (none at all for a longitude window
    that starts at 1440); a negative step is accepted as well; the only
    window refused is one of step 0, with a ValueError. *)
Theorem window_bounds_clamped (w : slice) :
  clamps read_variable_lon 1440 (fun i => to_float32 (lonValue i)) w
  /\ clamps read_variable_lat 720 (fun j => to_float32 (latValue j)) w
  /\ clamps read_variable_part 2 (fun k => k) w.
Proof.
  split; [|split].
  - apply clamps_any; [lia|apply read_variable_lon_eq].
  - apply clamps_any; [lia|apply read_variable_lat_eq].
  - apply clamps_any; [lia|apply read_variable_part_eq].
Qed.

(** C5 as stated fails: the longitude window that starts at 1440 returns an
    empty array, and a window of step -2 returns three values. *)
Lemma window_out_of_range_counterexample :
  read_variable_lon (Slice 1440 1441 1) = inr []
  /\ read_variable_lon (Slice 5 0 (-2))
     = inr (map (fun i => Some (to_float32 (lonValue i))) [5; 3; 1]).
Proof. split; vm_compute; reflexivity. Qed.

(** ** Three-dimensional arrays *)

Lemma np_empty3_shape {A} n0 n1 n2 : has_shape n0 n1 n2 (@np_empty3 A (n0, n1, n2)).
Proof.
  split; [apply length_replicate|].
  apply Forall_replicate. split; [apply length_replicate|].
  apply Forall_replicate, length_replicate.
Qed.

Lemma np_getitem_in_range {A} (a : list A) idx :
  0 <= idx < Z.of_nat (length a) ->
  exists x, a !! Z.to_nat idx = Some x /\ np_getitem a idx = inr x.
Proof.
  intros H. unfold np_getitem. rewrite np_index_in_range by assumption. cbn [bind].
  destruct (lookup_lt_is_Some_2 a (Z.to_nat idx) ltac:(lia)) as [x Hx].
  exists x. rewrite Hx. split; reflexivity.
Qed.

(** An in-range assignment keeps the shape, sets its cell and no other. *)
Lemma np_setitem3_spec {A} n0 n1 n2 (buf : ndarray3 A) (x y z : Z) (v : A) :
  has_shape n0 n1 n2 buf ->
  0 <= x < Z.of_nat n0 -> 0 <= y < Z.of_nat n1 -> 0 <= z < Z.of_nat n2 ->
  exists buf', np_setitem3 buf x y z v = inr buf'
    /\ has_shape n0 n1 n2 buf'
    /\ ndarray3_at buf' (Z.to_nat x) (Z.to_nat y) (Z.to_nat z) = Some (Some v)
    /\ forall x' y' z', (x', y', z') <> (Z.to_nat x, Z.to_nat y, Z.to_nat z) ->
         ndarray3_at buf' x' y' z' = ndarray3_at buf x' y' z'.
Proof.
  intros [Hn0 Hplanes] Hx Hy Hz. unfold np_setitem3.
  rewrite np_index_in_range by lia. cbn [bind].
  destruct (lookup_lt_is_Some_2 buf (Z.to_nat x) ltac:(lia)) as [plane Hplane].
  rewrite Hplane. cbn [bind ret].
  destruct (Forall_lookup_1 _ _ _ _ Hplanes Hplane) as [Hn1 Hrows].
  rewrite np_index_in_range by lia. cbn [bind].
  destruct (lookup_lt_is_Some_2 plane (Z.to_nat y) ltac:(lia)) as [row Hrow].
  rewrite Hrow. cbn [bind ret].
  pose proof (Forall_lookup_1 _ _ _ _ Hrows Hrow) as Hn2. cbn beta in Hn2.
  rewrite np_index_in_range by lia. cbn [bind].
  eexists. split; [reflexivity|]. split; [|split].
  - split; [rewrite length_insert; assumption|].
    apply Forall_insert; [assumption|]. split; [rewrite length_insert; assumption|].
    apply Forall_insert; [assumption|]. rewrite length_insert. assumption.
  - unfold ndarray3_at.
    rewrite list_lookup_insert_eq by lia. cbn.
    rewrite list_lookup_insert_eq by lia. cbn.
    apply list_lookup_insert_eq. lia.
  - intros x' y' z' Hne. unfold ndarray3_at.
    destruct (decide (x' = Z.to_nat x)) as [->|Hx'];
      [|rewrite list_lookup_insert_ne by congruence; reflexivity].
    rewrite list_lookup_insert_eq, Hplane by lia. cbn.
    destruct (decide (y' = Z.to_nat y)) as [->|Hy'];
      [|rewrite list_lookup_insert_ne by congruence; reflexivity].
    rewrite list_lookup_insert_eq, Hrow by lia. cbn.
    apply list_lookup_insert_ne. congruence.
Qed.

(** ** The decoder on windows of step 1 *)

Lemma ceil_div_1 a : ceil_div a 1 = a.
Proof. unfold ceil_div. rewrite Z.div_1_r. lia. Qed.

Lemma elem_of_window_indices_step1 (w : slice) i :
  step w = 1 -> (i ∈ window_indices w <-> in_window w i).
Proof.
  intros Hst. unfold window_indices, in_window. rewrite Hst, ceil_div_1. split.
  - intros Hi. apply list_elem_of_fmap in Hi as (t & -> & Ht). apply elem_of_seq in Ht. lia.
  - intros Hi. apply list_elem_of_fmap. exists (Z.to_nat (i - start w)). split; [lia|].
    apply elem_of_seq. lia.
Qed.

Lemma window_indices_length_step1 (w : slice) :
  step w = 1 -> length (window_indices w) = Z.to_nat (stop w - start w).
Proof.
  intros Hst. unfold window_indices. rewrite length_map, length_seq, Hst, ceil_div_1. reflexivity.
Qed.

Lemma decoded_mono bytes index w0 w1 w2 (W W' : Z * Z * Z -> Prop) buf :
  (forall t, W' t -> W t) ->
  decoded bytes index w0 w1 w2 W buf -> decoded bytes index w0 w1 w2 W' buf.
Proof.
  intros Hsub [Hshape Hcells]. split; [exact Hshape|].
  intros i j k Ht. apply Hcells, Hsub, Ht.
Qed.

Section Decoder.
Variables (bytes : list byte) (index : Z) (w0 w1 w2 : slice).
Hypothesis Hw0 : 0 <= start w0 < stop w0 /\ stop w0 <= 1440 /\ step w0 = 1.
Hypothesis Hw1 : 0 <= start w1 < stop w1 /\ stop w1 <= 720 /\ step w1 = 1.
Hypothesis Hw2 : 0 <= start w2 < stop w2 /\ stop w2 <= 2 /\ step w2 = 1.
Hypothesis Hindex : 0 <= index <= 4.
Hypothesis Hbytes : 1440 * 720 * 5 * 2 <= Z.of_nat (length bytes).

(** One pass of the innermost body. *)
Lemma store_sample (W : Z * Z * Z -> Prop) buf i j k :
  decoded bytes index w0 w1 w2 W buf ->
  in_window w0 i -> in_window w1 j -> in_window w2 k ->
  exists buf',
    (v <- np_getitem bytes (byteIndex i j k index) ;;
     np_setitem3 buf (i - start w0) (j - start w1) (k - start w2) (uint8_value v)) = inr buf'
    /\ decoded bytes index w0 w1 w2 (fun t => W t \/ t = (i, j, k)) buf'.
Proof.
  intros [Hshape Hcells] Hi Hj Hk. unfold in_window in Hi, Hj, Hk.
  destruct (np_getitem_in_range bytes (byteIndex i j k index)) as (b & Hb & ->);
    [unfold byteIndex; lia|]. cbn [bind].
  destruct (np_setitem3_spec _ _ _ buf (i - start w0) (j - start w1) (k - start w2)
              (uint8_value b) Hshape) as (buf' & -> & Hshape' & Hset & Hother); [lia..|].
  exists buf'. split; [reflexivity|]. split; [exact Hshape'|].
  intros i' j' k' [Ht|Ht].
  - destruct (Hcells _ _ _ Ht) as (Hi' & Hj' & Hk' & b' & Hb' & Hat).
    repeat (split; [assumption|]). unfold in_window in Hi', Hj', Hk'.
    destruct (decide ((i', j', k') = (i, j, k))) as [Heq|Hne].
    + injection Heq as -> -> ->. exists b. split; assumption.
    + exists b'. split; [assumption|]. rewrite Hother; [assumption|].
      intros Heq. apply Hne. injection Heq as H0 H1 H2.
      f_equal; [f_equal|]; lia.
  - injection Ht as -> -> ->. repeat (split; [assumption|]).
    exists b. split; assumption.
Qed.

Lemma read_variable_data_unit_step :
  exists buf,
    read_variable_data bytes index [w0; w1; w2] = inr buf
    /\ decoded bytes index w0 w1 w2
         (fun t => in_window w0 t.1.1 /\ in_window w1 t.1.2 /\ in_window w2 t.2) buf.
Proof.
  destruct Hw0 as (Hs0 & Hn0 & Hst0), Hw1 as (Hs1 & Hn1 & Hst1), Hw2 as (Hs2 & Hn2 & Hst2).
  unfold read_variable_data.
  change (py_getitem [w0; w1; w2] 0) with (@inr exn _ w0).
  change (py_getitem [w0; w1; w2] 1) with (@inr exn _ w1).
  change (py_getitem [w0; w1; w2] 2) with (@inr exn _ w2).
  cbn [bind].
  rewrite (range_getslice_valid 1440 w0), (range_getslice_valid 720 w1),
    (range_getslice_valid 2 w2) by lia.
  cbn [bind]. rewrite !window_indices_length_step1 by assumption.
  pose proof (@np_empty3_shape Z (Z.to_nat (stop w0 - start w0))
                (Z.to_nat (stop w1 - start w1)) (Z.to_nat (stop w2 - start w2))) as Hempty.
  assert (Hinit : decoded bytes index w0 w1 w2 (fun _ => False)
                    (np_empty3 (Z.to_nat (stop w0 - start w0), Z.to_nat (stop w1 - start w1),
                                Z.to_nat (stop w2 - start w2))))
    by (split; [exact Hempty|intros ? ? ? []]).
  match goal with |- context [for_in ?l ?body ?s] =>
    destruct (for_in_cover (decoded bytes index w0 w1 w2)
                (fun i t => exists j k, j ∈ window_indices w1 /\ k ∈ window_indices w2
                                        /\ t = (i, j, k))
                l body (decoded_mono bytes index w0 w1 w2) _ _ Hinit)
      as (buf & Hbuf & Hdec)
  end.
  - (* the body of the loop over longitudes *)
    intros W buf i Hi HW.
    match goal with |- context [for_in ?l ?body ?s] =>
      destruct (for_in_cover (decoded bytes index w0 w1 w2)
                  (fun j t => exists k, k ∈ window_indices w2 /\ t = (i, j, k))
                  l body (decoded_mono bytes index w0 w1 w2) _ _ HW)
        as (buf1 & Hbuf1 & Hdec1)
    end.
    + (* the body of the loop over latitudes *)
      intros W1 buf1 j Hj HW1.
      match goal with |- context [for_in ?l ?body ?s] =>
        destruct (for_in_cover (decoded bytes index w0 w1 w2)
                    (fun k t => t = (i, j, k))
                    l body (decoded_mono bytes index w0 w1 w2) _ _ HW1)
          as (buf2 & Hbuf2 & Hdec2)
      end.
      * intros W2 buf2 k Hk HW2. cbn [bind].
        apply store_sample; [assumption|apply elem_of_window_indices_step1; assumption..].
      * exists buf2. split; [exact Hbuf2|].
        apply (decoded_mono _ _ _ _ _ _ _ _) with (2 := Hdec2).
        intros t [Ht|(k & Hk & Ht)]; [left; assumption|right; exists k; split; assumption].
    + exists buf1. split; [exact Hbuf1|].
      apply (decoded_mono _ _ _ _ _ _ _ _) with (2 := Hdec1).
      intros t [Ht|(j & k & Hj & Hk & Ht)]; [left; assumption|].
      right. exists j. split; [assumption|]. exists k. split; assumption.
  - exists buf. split; [exact Hbuf|].
    apply (decoded_mono _ _ _ _ _ _ _ _) with (2 := Hdec).
    intros [[i j] k] (Hi & Hj & Hk). cbn [fst snd] in Hi, Hj, Hk. right.
    exists i. split; [apply elem_of_window_indices_step1; assumption|].
    exists j, k. repeat split; [apply elem_of_window_indices_step1; assumption..].
Qed.
End Decoder.

Lemma lookup_head {A} (x : A) (l : list A) : (x :: l) !! 0%nat = Some x.
Proof. reflexivity. Qed.

Lemma lookup_tail {A} (x : A) (l : list A) (i : nat) : (x :: l) !! S i = l !! i.
Proof. reflexivity. Qed.

Lemma lookup_app_r_add {A} (l1 l2 : list A) (i : nat) : (l1 ++ l2) !! (length l1 + i)%nat = l2 !! i.
Proof. rewrite lookup_app_r by lia. f_equal. lia. Qed.

Lemma uint8_value_to_nat (b : byte) : uint8_value b = Z.of_nat (Byte.to_nat b).
Proof. destruct b; reflexivity. Qed.

(** C1: for a variable index in 0..4, a buffer of the full size and windows of
    step 1 within the axes, [read_variable_data] returns an array of the
    windows' shape whose cell for the source index [(i, j, k)] holds the number
    of the byte at offset [(1440*j + i) + (1440*720*index) + (1440*720*5*k)] of
    the buffer; on the full window [[0,1440) x [0,720) x [0,2)] that is the
    whole block of the variable, element for element. *)
Theorem decoder_reads_offsets (bytes : list byte) (index : Z) (w0 w1 w2 : slice) :
  0 <= index <= 4 ->
  1440 * 720 * 5 * 2 <= Z.of_nat (length bytes) ->
  0 <= start w0 < stop w0 /\ stop w0 <= 1440 /\ step w0 = 1 ->
  0 <= start w1 < stop w1 /\ stop w1 <= 720 /\ step w1 = 1 ->
  0 <= start w2 < stop w2 /\ stop w2 <= 2 /\ step w2 = 1 ->
  exists buf,
    read_variable_data bytes index [w0; w1; w2] = inr buf
    /\ has_shape (Z.to_nat (stop w0 - start w0)) (Z.to_nat (stop w1 - start w1))
                 (Z.to_nat (stop w2 - start w2)) buf
    /\ forall i j k, start w0 <= i < stop w0 -> start w1 <= j < stop w1 ->
         start w2 <= k < stop w2 ->
         exists b,
           bytes !! Z.to_nat ((1440 * j + i) + (1440 * 720 * index) + (1440 * 720 * 5 * k))
           = Some b
           /\ ndarray3_at buf (Z.to_nat (i - start w0)) (Z.to_nat (j - start w1))
                (Z.to_nat (k - start w2))
              = Some (Some (Z.of_nat (Byte.to_nat b))).
Proof.
  intros Hindex Hbytes Hw0 Hw1 Hw2.
  destruct (read_variable_data_unit_step bytes index w0 w1 w2 Hw0 Hw1 Hw2 Hindex Hbytes)
    as (buf & Hbuf & Hshape & Hcells).
  exists buf. split; [exact Hbuf|]. split; [exact Hshape|].
  intros i j k Hi Hj Hk.
  destruct (Hcells i j k) as (_ & _ & _ & b & Hb & Hat);
    [cbn [fst snd]; split; [|split]; assumption|].
  exists b. unfold byteIndex in Hb. split; [exact Hb|].
  rewrite <- uint8_value_to_nat. exact Hat.
Qed.

(** The full window on a buffer that is zero but for the byte 42 at offset
    6225127, the offset of the source index (7, 3, 1) of variable 1: the cell
    (7, 3, 1) of the result holds 42 and its neighbour (8, 3, 1) holds 0. *)
Lemma decoder_reads_offsets_witness :
  let bytes := replicate (Z.to_nat 6225127) x00 ++ x2a :: replicate (Z.to_nat 4142872) x00 in
  exists buf,
    read_variable_data bytes 1 [Slice 0 1440 1; Slice 0 720 1; Slice 0 2 1] = inr buf
    /\ has_shape (Z.to_nat (1440 - 0)) (Z.to_nat (720 - 0)) (Z.to_nat (2 - 0)) buf
    /\ ndarray3_at buf 7 3 1 = Some (Some 42)
    /\ ndarray3_at buf 8 3 1 = Some (Some 0).
Proof.
  intros bytes.
  destruct (decoder_reads_offsets bytes 1 (Slice 0 1440 1) (Slice 0 720 1) (Slice 0 2 1))
    as (buf & Hbuf & Hshape & Hcells).
  - lia.
  - unfold bytes. rewrite length_app, length_cons, !length_replicate. lia.
  - cbn [start stop step]. lia.
  - cbn [start stop step]. lia.
  - cbn [start stop step]. lia.
  - exists buf. split; [exact Hbuf|]. split; [exact Hshape|]. split.
    + destruct (Hcells 7 3 1) as (b & Hb & Hat); [cbn [start stop]; lia..|].
      replace (Z.to_nat (1440 * 3 + 7 + 1440 * 720 * 1 + 1440 * 720 * 5 * 1))
        with (length (replicate (Z.to_nat 6225127) x00) + 0)%nat in Hb
        by (rewrite length_replicate; lia).
      unfold bytes in Hb. rewrite lookup_app_r_add, lookup_head in Hb.
      injection Hb as <-. exact Hat.
    + destruct (Hcells 8 3 1) as (b & Hb & Hat); [cbn [start stop]; lia..|].
      replace (Z.to_nat (1440 * 3 + 8 + 1440 * 720 * 1 + 1440 * 720 * 5 * 1))
        with (length (replicate (Z.to_nat 6225127) x00) + S (Z.to_nat 0))%nat in Hb
        by (rewrite length_replicate; lia).
      unfold bytes in Hb. rewrite lookup_app_r_add, lookup_tail in Hb.
      apply lookup_replicate in Hb as [-> _]. exact Hat.
Defined.

(** The full window, for every buffer: cell [(i, j, k)] of the result is the
    number of the byte at the offset of [(i, j, k)]. *)
Corollary read_variable_data_full_window (bytes : list byte) (index : Z) :
  0 <= index <= 4 ->
  1440 * 720 * 5 * 2 <= Z.of_nat (length bytes) ->
  exists buf,
    read_variable_data bytes index [Slice 0 1440 1; Slice 0 720 1; Slice 0 2 1] = inr buf
    /\ has_shape 1440 720 2 buf
    /\ forall i j k, 0 <= i < 1440 -> 0 <= j < 720 -> 0 <= k < 2 ->
         exists b,
           bytes !! Z.to_nat ((1440 * j + i) + (1440 * 720 * index) + (1440 * 720 * 5 * k))
           = Some b
           /\ ndarray3_at buf (Z.to_nat i) (Z.to_nat j) (Z.to_nat k)
              = Some (Some (Z.of_nat (Byte.to_nat b))).
Proof.
  intros Hindex Hbytes.
  destruct (read_variable_data_unit_step bytes index
              (Slice 0 1440 1) (Slice 0 720 1) (Slice 0 2 1))
    as (buf & Hbuf & Hshape & Hcells); [cbn [start stop step]; lia..|].
  exists buf. split; [exact Hbuf|]. split; [exact Hshape|].
  intros i j k Hi Hj Hk.
  destruct (Hcells i j k) as (_ & _ & _ & b & Hb & Hat); [cbn; unfold in_window; cbn; lia|].
  exists b. unfold byteIndex in Hb. split; [exact Hb|].
  cbn [start] in Hat. rewrite !Z.sub_0_r, uint8_value_to_nat in Hat. exact Hat.
Qed.

(** ** The decoder on strided windows *)

Lemma np_index_cases size idx :
  match np_index size idx with
  | inl e => e = IndexError /\ (0 <= idx -> Z.of_nat size <= idx)
  | inr i => (i < size)%nat /\ (0 <= idx -> i = Z.to_nat idx)
  end.
Proof.
  unfold np_index. cbv zeta.
  destruct (Z.ltb_spec idx 0) as [Hneg|Hpos].
  - destruct (Z.ltb_spec (idx + Z.of_nat size) 0); cbn [orb raise].
    + split; [reflexivity|lia].
    + destruct (Z.leb_spec (Z.of_nat size) (idx + Z.of_nat size)); cbn [raise ret]; split;
        first [reflexivity|lia].
  - destruct (Z.ltb_spec idx 0); [lia|]. cbn [orb].
    destruct (Z.leb_spec (Z.of_nat size) idx); cbn [raise ret]; split; first [reflexivity|lia].
Qed.

Lemma np_getitem_error {A} (a : list A) idx e : np_getitem a idx = inl e -> e = IndexError.
Proof.
  unfold np_getitem. pose proof (np_index_cases (length a) idx) as H.
  destruct (np_index (length a) idx) as [e'|i]; cbn [bind].
  - intros [= <-]. apply H.
  - destruct (a !! i); [discriminate|]. intros [= <-]. reflexivity.
Qed.

(** Whatever the subscripts, an assignment keeps the shape or raises IndexError;
    it raises when one of them, not negative, is beyond its axis. *)
Lemma np_setitem3_cases {A} n0 n1 n2 (buf : ndarray3 A) (x y z : Z) (v : A) :
  has_shape n0 n1 n2 buf ->
  match np_setitem3 buf x y z v with
  | inl e => e = IndexError
  | inr buf' =>
      has_shape n0 n1 n2 buf'
      /\ (0 <= x -> 0 <= y -> 0 <= z ->
          x < Z.of_nat n0 /\ y < Z.of_nat n1 /\ z < Z.of_nat n2)
  end.
Proof.
  intros [Hn0 Hplanes]. unfold np_setitem3.
  pose proof (np_index_cases (length buf) x) as Hx.
  destruct (np_index (length buf) x) as [e|ix]; cbn [bind]; [apply Hx|].
  destruct Hx as [Hix Hx].
  destruct (lookup_lt_is_Some_2 buf ix Hix) as [plane Hplane]. rewrite Hplane. cbn [bind ret].
  destruct (Forall_lookup_1 _ _ _ _ Hplanes Hplane) as [Hn1 Hrows].
  pose proof (np_index_cases (length plane) y) as Hy.
  destruct (np_index (length plane) y) as [e|iy]; cbn [bind]; [apply Hy|].
  destruct Hy as [Hiy Hy].
  destruct (lookup_lt_is_Some_2 plane iy Hiy) as [row Hrow]. rewrite Hrow. cbn [bind ret].
  pose proof (Forall_lookup_1 _ _ _ _ Hrows Hrow) as Hn2. cbn beta in Hn2.
  pose proof (np_index_cases (length row) z) as Hz.
  destruct (np_index (length row) z) as [e|iz]; cbn [bind]; [apply Hz|].
  destruct Hz as [Hiz Hz]. split.
  - split; [rewrite length_insert; assumption|].
    apply Forall_insert; [assumption|]. split; [rewrite length_insert; assumption|].
    apply Forall_insert; [assumption|]. rewrite length_insert. assumption.
  - intros Hx0 Hy0 Hz0. specialize (Hx Hx0). specialize (Hy Hy0). specialize (Hz Hz0). lia.
Qed.

(** A loop whose body keeps an invariant or raises IndexError does the same. *)
Lemma for_in_keeps {A S} (I : S -> Prop) (l : list A) (body : S -> A -> result S) :
  (forall s x, x ∈ l -> I s ->
     match body s x with inr s' => I s' | inl e => e = IndexError end) ->
  forall s, I s -> match for_in l body s with inr s' => I s' | inl e => e = IndexError end.
Proof.
  induction l as [|x l IH]; intros Hbody s Hs; [exact Hs|].
  cbn [for_in]. pose proof (Hbody s x (list_elem_of_here _ _) Hs) as Hx.
  destruct (body s x) as [e|s1]; cbn [bind]; [exact Hx|].
  apply IH; [|exact Hx]. intros s' y Hy. apply Hbody. right. exact Hy.
Qed.

(** With an item at which the body raises on every state of the invariant, the
    loop raises. *)
Lemma for_in_raises {A S} (I : S -> Prop) (l : list A) (body : S -> A -> result S) x :
  x ∈ l -> (forall s, I s -> body s x = inl IndexError) ->
  (forall s y, y ∈ l -> I s ->
     match body s y with inr s' => I s' | inl e => e = IndexError end) ->
  forall s, I s -> for_in l body s = inl IndexError.
Proof.
  induction l as [|y l IH]; intros Hin Hbad Hbody s Hs; [inversion Hin|].
  cbn [for_in]. pose proof (Hbody s y (list_elem_of_here _ _) Hs) as Hy.
  apply elem_of_cons in Hin as [<-|Hin]; [rewrite Hbad by exact Hs; reflexivity|].
  destruct (body s y) as [e|s1]; cbn [bind]; [rewrite Hy; reflexivity|].
  apply IH; [exact Hin|exact Hbad| |exact Hy].
  intros s' z Hz. apply Hbody. right. exact Hz.
Qed.

Lemma window_indices_first size (w : slice) :
  valid_window size w -> start w ∈ window_indices w.
Proof.
  intros (Hab & _ & Hst). unfold window_indices. apply list_elem_of_fmap.
  exists 0%nat. split; [lia|]. apply elem_of_seq.
  pose proof (ceil_div_spec (stop w - start w) (step w) ltac:(lia)). nia.
Qed.

Lemma window_indices_from_start size (w : slice) i :
  valid_window size w -> i ∈ window_indices w -> 0 <= i - start w.
Proof.
  intros (Hab & _ & Hst) Hi. unfold window_indices in Hi.
  apply list_elem_of_fmap in Hi as (t & -> & _). nia.
Qed.

(** The last index of a strided window lies as far from [start] as the window
    has indices, or farther. *)
Lemma window_indices_beyond size (w : slice) :
  valid_window size w -> strided w ->
  exists i, i ∈ window_indices w /\ Z.of_nat (length (window_indices w)) <= i - start w.
Proof.
  intros (Hab & Hsize & Hst) (Hst2 & Htwo).
  pose proof (ceil_div_spec (stop w - start w) (step w) ltac:(lia)) as Hc.
  exists (start w + Z.of_nat (Z.to_nat (ceil_div (stop w - start w) (step w) - 1)) * step w).
  split.
  - unfold window_indices. apply list_elem_of_fmap. eexists. split; [reflexivity|].
    apply elem_of_seq. nia.
  - unfold window_indices. rewrite length_map, length_seq. nia.
Qed.

Section Strided.
Variables (bytes : list byte) (index : Z) (w0 w1 w2 : slice).
Variables (n0 n1 n2 : nat).

(** The innermost body keeps the shape or raises IndexError. *)
Lemma store_keeps_shape buf i j k :
  has_shape n0 n1 n2 buf ->
  match (v <- np_getitem bytes (byteIndex i j k index) ;;
         np_setitem3 buf (i - start w0) (j - start w1) (k - start w2) (uint8_value v)) with
  | inr buf' => has_shape n0 n1 n2 buf'
  | inl e => e = IndexError
  end.
Proof.
  intros Hshape. destruct (np_getitem bytes (byteIndex i j k index)) as [e|v] eqn:Hv; cbn [bind].
  - apply (np_getitem_error _ _ _ Hv).
  - pose proof (np_setitem3_cases n0 n1 n2 buf (i - start w0) (j - start w1) (k - start w2)
                  (uint8_value v) Hshape) as H.
    destruct (np_setitem3 _ _ _ _ _); [exact H|apply H].
Qed.

(** It raises when the cell it is to assign is beyond the array. *)
Lemma store_out_of_bounds buf i j k :
  has_shape n0 n1 n2 buf ->
  0 <= i - start w0 -> 0 <= j - start w1 -> 0 <= k - start w2 ->
  Z.of_nat n0 <= i - start w0 \/ Z.of_nat n1 <= j - start w1 \/ Z.of_nat n2 <= k - start w2 ->
  (v <- np_getitem bytes (byteIndex i j k index) ;;
   np_setitem3 buf (i - start w0) (j - start w1) (k - start w2) (uint8_value v))
  = inl IndexError.
Proof.
  intros Hshape Hi Hj Hk Hout.
  destruct (np_getitem bytes (byteIndex i j k index)) as [e|v] eqn:Hv; cbn [bind].
  - rewrite (np_getitem_error _ _ _ Hv). reflexivity.
  - pose proof (np_setitem3_cases n0 n1 n2 buf (i - start w0) (j - start w1) (k - start w2)
                  (uint8_value v) Hshape) as H.
    destruct (np_setitem3 _ _ _ _ _) as [e|buf']; [rewrite H; reflexivity|].
    destruct H as [_ H]. specialize (H Hi Hj Hk). lia.
Qed.

(** The three loops raise as soon as some visited index has its cell beyond the
    array. *)
Lemma loops_out_of_bounds (l0 l1 l2 : list Z) buf i j k :
  has_shape n0 n1 n2 buf ->
  i ∈ l0 -> j ∈ l1 -> k ∈ l2 ->
  (forall j', j' ∈ l1 -> 0 <= j' - start w1) ->
  (forall k', k' ∈ l2 -> 0 <= k' - start w2) ->
  0 <= i - start w0 ->
  Z.of_nat n0 <= i - start w0 \/ Z.of_nat n1 <= j - start w1 \/ Z.of_nat n2 <= k - start w2 ->
  for_in l0 (fun buf i =>
    for_in l1 (fun buf j =>
      for_in l2 (fun buf k =>
        v <- np_getitem bytes (byteIndex i j k index) ;;
        np_setitem3 buf (i - start w0) (j - start w1) (k - start w2) (uint8_value v))
      buf) buf) buf
  = inl IndexError.
Proof.
  intros Hshape Hi Hj Hk Hl1 Hl2 Hi0 Hout.
  assert (Hinner : forall i' j' s, has_shape n0 n1 n2 s ->
            match for_in l2 (fun buf k =>
                    v <- np_getitem bytes (byteIndex i' j' k index) ;;
                    np_setitem3 buf (i' - start w0) (j' - start w1) (k - start w2)
                      (uint8_value v)) s with
            | inr s' => has_shape n0 n1 n2 s'
            | inl e => e = IndexError
            end).
  { intros i' j' s Hs. apply (for_in_keeps (has_shape n0 n1 n2)); [|exact Hs].
    intros s' k' _ Hs'. apply store_keeps_shape. exact Hs'. }
  apply (for_in_raises (has_shape n0 n1 n2) l0 _ i Hi); [| |exact Hshape].
  - intros s Hs. apply (for_in_raises (has_shape n0 n1 n2) l1 _ j Hj); [| |exact Hs].
    + intros s1 Hs1. apply (for_in_raises (has_shape n0 n1 n2) l2 _ k Hk); [| |exact Hs1].
      * intros s2 Hs2. apply store_out_of_bounds; auto.
      * intros s2 k' _ Hs2. apply store_keeps_shape. exact Hs2.
    + intros s1 j' _ Hs1. apply Hinner. exact Hs1.
  - intros s i' _ Hs. apply (for_in_keeps (has_shape n0 n1 n2)); [|exact Hs].
    intros s1 j' _ Hs1. apply Hinner. exact Hs1.
Qed.
End Strided.

(** C2 fails on the code.  The loops visit [start], [start+step], ... below
    [stop] on each axis and the array is allocated with the strided lengths,
    but the sample of [(i, j, k)] is stored at [(i - start, j - start, k - start)],
    not divided by the steps: whenever a window of step 2 or more visits two
    indices or more, on whatever axis and whatever the buffer, a store falls
    beyond the array and the decoder raises IndexError. *)
Theorem strided_window_raises (bytes : list byte) (index : Z) (w0 w1 w2 : slice) :
  valid_window 1440 w0 -> valid_window 720 w1 -> valid_window 2 w2 ->
  strided w0 \/ strided w1 \/ strided w2 ->
  read_variable_data bytes index [w0; w1; w2] = inl IndexError.
Proof.
  intros Hw0 Hw1 Hw2 Hstrided. unfold read_variable_data.
  change (py_getitem [w0; w1; w2] 0) with (@inr exn _ w0).
  change (py_getitem [w0; w1; w2] 1) with (@inr exn _ w1).
  change (py_getitem [w0; w1; w2] 2) with (@inr exn _ w2).
  cbn [bind].
  rewrite (range_getslice_valid 1440 w0), (range_getslice_valid 720 w1),
    (range_getslice_valid 2 w2) by (first [apply Hw0|apply Hw1|apply Hw2]).
  cbn [bind].
  pose proof (@np_empty3_shape Z (length (window_indices w0)) (length (window_indices w1))
                (length (window_indices w2))) as Hshape.
  pose proof (window_indices_first _ _ Hw0) as Hi.
  pose proof (window_indices_first _ _ Hw1) as Hj.
  pose proof (window_indices_first _ _ Hw2) as Hk.
  destruct Hstrided as [Hs|[Hs|Hs]].
  - destruct (window_indices_beyond _ _ Hw0 Hs) as (i & Hi' & Hfar).
    apply (loops_out_of_bounds _ _ _ _ _ _ _ _ _ _ _ _ i (start w1) (start w2) Hshape);
      try assumption; try lia.
    + intros j' Hj'. apply (window_indices_from_start _ _ _ Hw1 Hj').
    + intros k' Hk'. apply (window_indices_from_start _ _ _ Hw2 Hk').
  - destruct (window_indices_beyond _ _ Hw1 Hs) as (j & Hj' & Hfar).
    apply (loops_out_of_bounds _ _ _ _ _ _ _ _ _ _ _ _ (start w0) j (start w2) Hshape);
      try assumption; try lia.
    + intros j' Hj''. apply (window_indices_from_start _ _ _ Hw1 Hj'').
    + intros k' Hk'. apply (window_indices_from_start _ _ _ Hw2 Hk').
  - destruct (window_indices_beyond _ _ Hw2 Hs) as (k & Hk' & Hfar).
    apply (loops_out_of_bounds _ _ _ _ _ _ _ _ _ _ _ _ (start w0) (start w1) k Hshape);
      try assumption; try lia.
    + intros j' Hj'. apply (window_indices_from_start _ _ _ Hw1 Hj').
    + intros k' Hk''. apply (window_indices_from_start _ _ _ Hw2 Hk'').
Qed.

Lemma strided_window_raises_witness :
  read_variable_data [x0a; x0b; x0c] 0 [Slice 0 3 2; Slice 0 1 1; Slice 0 1 1] = inl IndexError.
Proof.
  apply (strided_window_raises [x0a; x0b; x0c] 0 (Slice 0 3 2) (Slice 0 1 1) (Slice 0 1 1)).
  - unfold valid_window. cbn. lia.
  - unfold valid_window. cbn. lia.
  - unfold valid_window. cbn. lia.
  - left. unfold strided. cbn. lia.
Defined.

(** ** Ordered mappings *)

Lemma alist_update_ext {V} k (f g : V -> V) (l : list (string * V)) :
  (forall v, f v = g v) -> alist_update k f l = alist_update k g l.
Proof.
  intros Hfg. induction l as [|[k' v] l IH]; cbn; [reflexivity|].
  rewrite Hfg, IH. reflexivity.
Qed.

Lemma alist_update_update_eq {V} k (f g : V -> V) (l : list (string * V)) :
  alist_update k f (alist_update k g l) = alist_update k (fun v => f (g v)) l.
Proof.
  induction l as [|[k' v] l IH]; cbn; [reflexivity|].
  destruct (String.eqb k k') eqn:E; cbn; rewrite E; [reflexivity|].
  rewrite IH. reflexivity.
Qed.

Lemma alist_update_update_ne {V} k k' (f g : V -> V) (l : list (string * V)) :
  k <> k' ->
  alist_update k f (alist_update k' g l) = alist_update k' g (alist_update k f l).
Proof.
  intros Hne. induction l as [|[k0 v] l IH]; cbn; [reflexivity|].
  destruct (String.eqb_spec k k0) as [->|Hk], (String.eqb_spec k' k0) as [->|Hk'];
    cbn; try congruence.
  - rewrite String.eqb_refl. destruct (String.eqb_spec k' k0); [congruence|reflexivity].
  - rewrite String.eqb_refl. destruct (String.eqb_spec k k0); [congruence|reflexivity].
  - destruct (String.eqb_spec k k0), (String.eqb_spec k' k0); try congruence.
Qed.

Lemma keys_alist_update {V} k (f : V -> V) (l : list (string * V)) :
  keys (alist_update k f l) = keys l.
Proof.
  induction l as [|[k' v] l IH]; cbn; [reflexivity|].
  destruct (String.eqb k k'); cbn; [reflexivity|]. f_equal. exact IH.
Qed.

Lemma alist_lookup_map {V W} (f : V -> W) k (l : list (string * V)) :
  alist_lookup k (map (fun kv => (fst kv, f (snd kv))) l) = option_map f (alist_lookup k l).
Proof.
  induction l as [|[k' v] l IH]; cbn; [reflexivity|].
  destruct (String.eqb k k'); [reflexivity|exact IH].
Qed.

Lemma alist_lookup_keys {V} k (l : list (string * V)) :
  existsb (String.eqb k) (keys l) = match alist_lookup k l with Some _ => true | None => false end.
Proof.
  induction l as [|[k' v] l IH]; cbn; [reflexivity|].
  destruct (String.eqb k k'); [reflexivity|exact IH].
Qed.

(** ** Writes to the dataset *)

Lemma skeleton_write g c v ds : skeleton (write g c v ds) = skeleton ds.
Proof.
  unfold write, skeleton. induction ds as [|[k var] ds IH]; cbn; [reflexivity|].
  destruct (String.eqb g k); cbn.
  - f_equal. destruct var as [b|n ch]; cbn; [reflexivity|].
    rewrite keys_alist_update. reflexivity.
  - f_equal. exact IH.
Qed.

Lemma well_formed_write g c v ds : well_formed ds -> well_formed (write g c v ds).
Proof. unfold well_formed. rewrite skeleton_write. trivial. Qed.

Lemma well_formed_apply_writes ws ds : well_formed ds -> well_formed (apply_writes ws ds).
Proof.
  revert ds. induction ws as [|w ws IH]; intros ds Hwf; [exact Hwf|].
  cbn. apply IH, well_formed_write, Hwf.
Qed.

Lemma write_same g c v v' ds : write g c v (write g c v' ds) = write g c v ds.
Proof.
  unfold write. rewrite alist_update_update_eq. apply alist_update_ext.
  intros [b|n ch]; [reflexivity|]. rewrite alist_update_update_eq. reflexivity.
Qed.

Lemma write_comm g c v g' c' v' ds :
  (g, c) <> (g', c') ->
  write g c v (write g' c' v' ds) = write g' c' v' (write g c v ds).
Proof.
  intros Hne. unfold write. destruct (decide (g = g')) as [<-|Hg].
  - rewrite !alist_update_update_eq. apply alist_update_ext.
    intros [b|n ch]; [reflexivity|]. f_equal.
    apply alist_update_update_ne. congruence.
  - apply alist_update_update_ne. exact Hg.
Qed.

Lemma apply_writes_app ws ws' ds :
  apply_writes (ws ++ ws') ds = apply_writes ws' (apply_writes ws ds).
Proof. apply fold_left_app. Qed.



(** ** Actions as writers *)

Lemma writer_aret {A} (x : A) : writer (aret x).
Proof. exists [], (inr x). reflexivity. Qed.

Lemma writer_lift {A} (r : result A) : writer (lift r).
Proof. exists [], r. reflexivity. Qed.

Lemma writer_abind {A B} (m : action A) (k : A -> action B) :
  writer m -> (forall x, writer (k x)) -> writer (abind m k).
Proof.
  intros (ws & [e|x] & Hm) Hk.
  - exists ws, (inl e). intros ds Hwf. unfold abind. rewrite Hm by exact Hwf. reflexivity.
  - destruct (Hk x) as (ws' & r & Hkx). exists (ws ++ ws'), r. intros ds Hwf.
    unfold abind. rewrite Hm by exact Hwf.
    rewrite Hkx by (apply well_formed_apply_writes, Hwf).
    rewrite apply_writes_app. reflexivity.
Qed.

Lemma writer_afor_in {A} (l : list A) (body : A -> action unit) :
  (forall x, writer (body x)) -> writer (afor_in l body).
Proof.
  intros Hbody. induction l as [|x l IH]; cbn.
  - apply writer_aret.
  - apply writer_abind; [apply Hbody|intros _; exact IH].
Qed.

Lemma writer_set_grid_data g c v : writer (set_grid_data g c v).
Proof.
  unfold writer, set_grid_data.
  destruct (alist_lookup g (skeleton init_dataset)) as [[chkeys|]|] eqn:Hg.
  - destruct (existsb (String.eqb c) chkeys) eqn:Hc.
    + exists [(g, c, v)], (inr tt). intros ds Hwf.
      rewrite <- Hwf in Hg. unfold skeleton in Hg. rewrite alist_lookup_map in Hg.
      destruct (alist_lookup g ds) as [[b|n ch]|]; try discriminate.
      injection Hg as <-. rewrite alist_lookup_keys in Hc.
      destruct (alist_lookup c ch); [reflexivity|discriminate].
    + exists [], (inl (KeyError c)). intros ds Hwf.
      rewrite <- Hwf in Hg. unfold skeleton in Hg. rewrite alist_lookup_map in Hg.
      destruct (alist_lookup g ds) as [[b|n ch]|]; try discriminate.
      injection Hg as <-. rewrite alist_lookup_keys in Hc.
      destruct (alist_lookup c ch); [discriminate|reflexivity].
  - eexists [], _. intros ds Hwf.
    rewrite <- Hwf in Hg. unfold skeleton in Hg. rewrite alist_lookup_map in Hg.
    destruct (alist_lookup g ds) as [[b|n ch]|]; try discriminate. reflexivity.
  - exists [], (inl (KeyError g)). intros ds Hwf.
    rewrite <- Hwf in Hg. unfold skeleton in Hg. rewrite alist_lookup_map in Hg.
    destruct (alist_lookup g ds) as [[b|n ch]|]; try discriminate. reflexivity.
Qed.

(** A call that raises leaves what follows it undone. *)
Lemma writer_raise {A B} (e : exn) (k : A -> action B) : writer (abind (lift (inl e)) k).
Proof. exists [], (inl e). reflexivity. Qed.

Lemma writer_decode_variable bytes var var_name variable_name :
  writer (decode_variable bytes var var_name variable_name).
Proof.
  unfold decode_variable. destruct (String.eqb variable_name var_name); [|apply writer_aret].
  apply writer_abind; [apply writer_lift|intros last].
  destruct (negb _); [apply writer_lift|].
  repeat first [ apply writer_set_grid_data
               | apply writer_lift
               | apply writer_abind; [|intros ?] ].
Qed.

Lemma writer_process_var bytes var : writer (process_var bytes var).
Proof.
  unfold process_var. apply writer_abind; [apply writer_lift|intros last].
  destruct (existsb _ _).
  - repeat (destruct (String.eqb _ _); [apply writer_raise|]). apply writer_aret.
  - apply writer_afor_in. intros variable_name. apply writer_decode_variable.
Qed.

Lemma writer_run_projection bytes projection :
  writer (afor_in projection (process_var bytes)).
Proof. apply writer_afor_in. intros var. apply writer_process_var. Qed.

(** ** The orchestrator *)

Lemma parse_constraints_empty self file :
  parse_constraints self file [] = (self, inr (dataset self)).
Proof. destruct self. reflexivity. Qed.

Lemma parse_constraints_unreadable self exc projection :
  projection <> [] ->
  parse_constraints self (inl exc) projection
  = (self, inl (OpenFileError ("Unable to open file " ++ filepath self ++ ": " ++ exc)%string)).
Proof. destruct self, projection; [congruence|reflexivity]. Qed.

Lemma parse_constraints_readable self bytes projection :
  projection <> [] ->
  parse_constraints self (inr bytes) projection
  = match afor_in projection (process_var bytes) (dataset self) with
    | (ds, inl e) => (mkHandler (filepath self) ds, inl e)
    | (ds, inr _) =>
        (mkHandler (filepath self) ds,
         val_arr <- requested_names projection ;; ret (prune val_arr ds))
    end.
Proof.
  intros Hne. destruct projection as [|var projection]; [congruence|].
  unfold parse_constraints, abind.
  destruct (afor_in (var :: projection) (process_var bytes) (dataset self)) as [ds [e|[]]];
    reflexivity.
Qed.

Lemma well_formed_init : well_formed init_dataset.
Proof. reflexivity. Qed.




(** ** Pruning the copy *)

Lemma filter_filter {A} (P Q : A -> bool) (l : list A) :
  List.filter P (List.filter Q l) = List.filter (fun x => Q x && P x) l.
Proof.
  induction l as [|x l IH]; cbn; [reflexivity|].
  destruct (Q x); cbn; [destruct (P x)|]; rewrite IH; reflexivity.
Qed.

Lemma filter_all {A} (P : A -> bool) (l : list A) :
  (forall x, In x l -> P x = true) -> List.filter P l = l.
Proof.
  induction l as [|x l IH]; intros H; cbn; [reflexivity|].
  rewrite (H x) by (left; reflexivity). f_equal. apply IH. intros y Hy. apply H. right. exact Hy.
Qed.

Lemma prune_loop {V} (val_arr ks : list string) (l : list (string * V)) :
  fold_left (fun copy key =>
               if negb (existsb (String.eqb key) val_arr) then pop key copy else copy) ks l
  = List.filter (fun kv => existsb (String.eqb (fst kv)) val_arr
                           || negb (existsb (String.eqb (fst kv)) ks)) l.
Proof.
  revert l. induction ks as [|k ks IH]; intros l; cbn [fold_left].
  - symmetry. apply filter_all. intros kv _. cbn. apply orb_true_r.
  - rewrite IH. destruct (existsb (String.eqb k) val_arr) eqn:Hk; cbn [negb].
    + apply List.filter_ext. intros [k' v]. cbn.
      destruct (String.eqb_spec k' k) as [->|_]; [rewrite Hk|]; reflexivity.
    + unfold pop. rewrite filter_filter. apply List.filter_ext. intros [k' v]. cbn.
      destruct (String.eqb_spec k' k) as [->|_]; [rewrite Hk|]; reflexivity.
Qed.

(** What [prune] keeps: the entries whose key the projection lists. *)
Lemma prune_filter val_arr (ds : DatasetType) :
  prune val_arr ds = List.filter (fun kv => existsb (String.eqb (fst kv)) val_arr) ds.
Proof.
  unfold prune. rewrite prune_loop. apply List.filter_ext_in. intros [k v] Hin. cbn.
  assert (Hk : existsb (String.eqb k) (keys ds) = true).
  { apply existsb_exists. exists k. split; [|apply String.eqb_refl].
    unfold keys. apply in_map_iff. exists (k, v). split; [reflexivity|exact Hin]. }
  rewrite Hk. apply orb_false_r.
Qed.

Lemma keys_filter {V} (P : string -> bool) (l : list (string * V)) :
  keys (List.filter (fun kv => P (fst kv)) l) = List.filter P (keys l).
Proof.
  unfold keys. induction l as [|[k v] l IH]; cbn; [reflexivity|].
  destruct (P k); cbn; rewrite IH; reflexivity.
Qed.

Lemma keys_well_formed ds : well_formed ds -> keys ds = keys init_dataset.
Proof.
  unfold well_formed, skeleton, keys. intros H.
  apply (f_equal (map fst)) in H. rewrite !map_map in H. exact H.
Qed.

Lemma existsb_eqb_In k l : existsb (String.eqb k) l = true <-> In k l.
Proof.
  rewrite existsb_exists. split.
  - intros (k' & Hin & Heq). apply String.eqb_eq in Heq. subst. exact Hin.
  - intros Hin. exists k. split; [exact Hin|apply String.eqb_refl].
Qed.

(** C8, as amended: the keys of the result of a non-error request with a
    non-empty projection are the names of the dataset ([lon], [lat],
    [part_of_day] and the five variables) that the projection lists: no name
    outside the projection appears, and a listed name appears exactly when it is
    one of those eight. *)
Theorem projection_filter_law self file projection res :
  well_formed (dataset self) ->
  projection <> [] ->
  snd (parse_constraints self file projection) = inr res ->
  exists val_arr,
    requested_names projection = inr val_arr
    /\ forall key, In key (keys res) <-> In key val_arr /\ In key (keys init_dataset).
Proof.
  intros Hwf Hne Hres. destruct file as [exc|bytes].
  { rewrite parse_constraints_unreadable in Hres by exact Hne. discriminate. }
  rewrite parse_constraints_readable in Hres by exact Hne.
  destruct (writer_run_projection bytes projection) as (ws & r & Hrun).
  rewrite Hrun in Hres by exact Hwf. destruct r as [e|[]]; [discriminate|].
  cbn [snd] in Hres.
  destruct (requested_names projection) as [e|val_arr]; [discriminate|].
  exists val_arr. split; [reflexivity|]. cbn [bind ret] in Hres. injection Hres as <-.
  intros key. rewrite prune_filter.
  pose proof (keys_filter (fun k => existsb (String.eqb k) val_arr)
                (apply_writes ws (dataset self))) as Hkeys.
  cbn beta in Hkeys. rewrite Hkeys, filter_In, existsb_eqb_In.
  rewrite (keys_well_formed _ (well_formed_apply_writes ws _ Hwf)). tauto.
Qed.

Lemma projection_filter_law_witness :
  exists val_arr,
    requested_names [[("time", [Slice 0 1 1; Slice 0 1 1; Slice 0 1 1])]; [("humidity", [])]]
      = inr val_arr
    /\ forall key,
         In key (keys (prune ["time"; "humidity"]
                         (dataset (fst (parse_constraints (BinarySsmiHandler "f") (inr [x07])
                            [[("time", [Slice 0 1 1; Slice 0 1 1; Slice 0 1 1])];
                             [("humidity", [])]])))))
         <-> In key val_arr /\ In key (keys init_dataset).
Proof.
  apply (projection_filter_law (BinarySsmiHandler "f") (inr [x07])
           [[("time", [Slice 0 1 1; Slice 0 1 1; Slice 0 1 1])]; [("humidity", [])]]).
  - reflexivity.
  - discriminate.
  - vm_compute. reflexivity.
Defined.

(** C8 as stated fails: the request for [time[0][0][0]] and [humidity] raises
    nothing and lists two names, and its result has the single key [time]. *)
Lemma projection_filter_counterexample :
  let query := [[("time", [Slice 0 1 1; Slice 0 1 1; Slice 0 1 1])]; [("humidity", [])]] in
  requested_names query = inr ["time"; "humidity"]
  /\ exists res, snd (parse_constraints (BinarySsmiHandler "f") (inr [x07]) query) = inr res
                 /\ keys res = ["time"].
Proof.
  intros query. split; [reflexivity|]. eexists. split; [vm_compute; reflexivity|reflexivity].
Qed.

(** ** Processing one item of the projection *)

Lemma py_getitem_last {A} (l : list A) x :
  last l = Some x -> py_getitem l (Z.of_nat (length l) - 1) = inr x.
Proof.
  intros Hlast. rewrite last_lookup in Hlast.
  assert (Hlen : (0 < length l)%nat) by (destruct l; [discriminate|cbn; lia]).
  assert (H1 : (Z.of_nat (length l) - 1 <? 0) = false) by (apply Z.ltb_ge; lia).
  assert (H2 : (Z.of_nat (length l) <=? Z.of_nat (length l) - 1) = false)
    by (apply Z.leb_gt; lia).
  unfold py_getitem. cbv zeta. rewrite !H1, H2. cbn [orb].
  replace (Z.to_nat (Z.of_nat (length l) - 1)) with (pred (length l)) by lia.
  rewrite Hlast. reflexivity.
Qed.

Lemma afor_in_app {A} (l1 l2 : list A) (body : A -> action unit) ds :
  afor_in (l1 ++ l2) body ds = abind (afor_in l1 body) (fun _ => afor_in l2 body) ds.
Proof.
  revert ds. induction l1 as [|x l1 IH]; intros ds; cbn [app afor_in].
  - unfold abind, aret. reflexivity.
  - unfold abind. destruct (body x ds) as [ds' [e|[]]]; [reflexivity|].
    rewrite IH. reflexivity.
Qed.

Lemma afor_in_skip {A} (l : list A) (body : A -> action unit) ds :
  (forall x, In x l -> body x ds = (ds, inr tt)) -> afor_in l body ds = (ds, inr tt).
Proof.
  induction l as [|x l IH]; intros H; cbn; [reflexivity|].
  unfold abind. rewrite (H x) by (left; reflexivity).
  apply IH. intros y Hy. apply H. right. exact Hy.
Qed.

(** A loop over items that each do nothing or raise [e], one of which raises. *)
Lemma afor_in_raises {A} (l : list A) (body : A -> action unit) ds e x :
  In x l -> body x ds = (ds, inl e) ->
  (forall y, In y l -> body y ds = (ds, inr tt) \/ body y ds = (ds, inl e)) ->
  afor_in l body ds = (ds, inl e).
Proof.
  induction l as [|y l IH]; intros Hin Hx Hall; [destruct Hin|].
  cbn. unfold abind. destruct (Hall y (or_introl eq_refl)) as [Hy|Hy]; rewrite Hy; [|reflexivity].
  destruct Hin as [Heq|Hin]; [subst y; rewrite Hx in Hy; discriminate|].
  apply IH; [exact Hin|exact Hx|]. intros z Hz. apply Hall. right. exact Hz.
Qed.

(** A loop with an item that raises, raises. *)
Lemma afor_in_fails {A} (l : list A) (body : A -> action unit) x :
  In x l -> (forall ds, exists e, snd (body x ds) = inl e) ->
  forall ds, exists e, snd (afor_in l body ds) = inl e.
Proof.
  induction l as [|y l IH]; intros Hin Hx ds; [destruct Hin|].
  cbn. unfold abind. destruct (body y ds) as [ds' [e|[]]] eqn:Hy; [exists e; reflexivity|].
  destruct Hin as [->|Hin].
  - destruct (Hx ds) as [e He]. rewrite Hy in He. discriminate.
  - apply IH; assumption.
Qed.

Lemma decode_variable_other bytes var var_name variable_name ds :
  variable_name <> var_name ->
  decode_variable bytes var var_name variable_name ds = (ds, inr tt).
Proof.
  intros Hne. unfold decode_variable.
  destruct (String.eqb_spec variable_name var_name); [congruence|reflexivity].
Qed.

Lemma decode_variable_malformed bytes var var_name slices ds :
  last var = Some (var_name, slices) -> length slices <> 3%nat ->
  decode_variable bytes var var_name var_name ds
  = (ds, inl (ValueError (slices_message var_name (length slices)))).
Proof.
  intros Hlast Hlen. unfold decode_variable. rewrite String.eqb_refl.
  unfold abind, lift. rewrite (py_getitem_last _ _ Hlast). cbn [snd].
  rewrite (proj2 (Nat.eqb_neq _ _) Hlen). reflexivity.
Qed.

Lemma not_coordinate name :
  ~ In name ["lat"; "lon"; "part_of_day"] ->
  existsb (String.eqb name) ["lat"; "lon"; "part_of_day"] = false.
Proof.
  intros H. destruct (existsb _ _) eqn:E; [|reflexivity].
  apply existsb_eqb_In in E. contradiction.
Qed.

Lemma variables_not_coordinates name :
  In name variables -> existsb (String.eqb name) ["lat"; "lon"; "part_of_day"] = false.
Proof.
  intros H. cbn in H. repeat (destruct H as [<-|H]; [reflexivity|]). destruct H.
Qed.

(** A name that is neither a coordinate nor a variable is passed over. *)
Lemma process_var_unknown bytes var name slices ds :
  last var = Some (name, slices) ->
  ~ In name ["lat"; "lon"; "part_of_day"] -> ~ In name variables ->
  process_var bytes var ds = (ds, inr tt).
Proof.
  intros Hlast Hcoord Hvar. unfold process_var, abind, lift.
  rewrite (py_getitem_last _ _ Hlast). cbn [fst]. rewrite not_coordinate by exact Hcoord.
  apply afor_in_skip. intros variable_name Hin. apply decode_variable_other.
  intros ->. contradiction.
Qed.

(** A variable with other than three hyperslabs raises before anything is decoded. *)
Lemma process_var_malformed bytes var name slices ds :
  last var = Some (name, slices) -> In name variables -> length slices <> 3%nat ->
  process_var bytes var ds = (ds, inl (ValueError (slices_message name (length slices)))).
Proof.
  intros Hlast Hvar Hlen. unfold process_var, abind, lift.
  rewrite (py_getitem_last _ _ Hlast). cbn [fst].
  rewrite variables_not_coordinates by exact Hvar.
  apply (afor_in_raises _ _ _ _ name Hvar).
  - apply (decode_variable_malformed _ _ _ _ _ Hlast Hlen).
  - intros variable_name _. destruct (String.eqb_spec variable_name name) as [->|Hne].
    + right. apply (decode_variable_malformed _ _ _ _ _ Hlast Hlen).
    + left. apply decode_variable_other. exact Hne.
Qed.

(** A coordinate name calls its generator without the window and raises. *)
Lemma process_var_coordinate bytes var name slices ds :
  last var = Some (name, slices) -> In name ["lat"; "lon"; "part_of_day"] ->
  exists meth, In meth ["read_variable_lat"; "read_variable_lon"; "read_variable_part"]
    /\ process_var bytes var ds
       = (ds, inl (TypeError (meth ++ "() takes exactly 2 arguments (1 given)")%string)).
Proof.
  intros Hlast Hin. unfold process_var, abind, lift.
  rewrite (py_getitem_last _ _ Hlast). cbn [fst].
  cbn in Hin. destruct Hin as [<-|[<-|[<-|[]]]].
  - exists "read_variable_lat". split; [cbn; tauto|reflexivity].
  - exists "read_variable_lon". split; [cbn; tauto|reflexivity].
  - exists "read_variable_part". split; [cbn; tauto|reflexivity].
Qed.

Lemma parse_constraints_fails self file projection var :
  In var projection ->
  (forall bytes ds, exists e, snd (process_var bytes var ds) = inl e) ->
  exists e, snd (parse_constraints self file projection) = inl e.
Proof.
  intros Hin Hvar.
  assert (Hne : projection <> []) by (intros ->; destruct Hin).
  destruct file as [exc|bytes].
  - rewrite parse_constraints_unreadable by exact Hne. eexists. reflexivity.
  - rewrite parse_constraints_readable by exact Hne.
    destruct (afor_in_fails projection (process_var bytes) var Hin (Hvar bytes) (dataset self))
      as [e He].
    destruct (afor_in projection (process_var bytes) (dataset self)) as [ds [e'|[]]];
      [exists e'; reflexivity|discriminate].
Qed.

Lemma parse_constraints_first_failure self bytes pre var post ds e :
  afor_in pre (process_var bytes) (dataset self) = (ds, inr tt) ->
  process_var bytes var ds = (ds, inl e) ->
  parse_constraints self (inr bytes) (pre ++ var :: post) = (mkHandler (filepath self) ds, inl e).
Proof.
  intros Hpre Hvar. rewrite parse_constraints_readable by (destruct pre; discriminate).
  rewrite afor_in_app. unfold abind at 1. rewrite Hpre. cbn [afor_in]. unfold abind.
  rewrite Hvar. reflexivity.
Qed.

(** C7: a request for a data variable whose window-spec has other than three
    axis windows makes [parse_constraints] fail; processing reaches the
    variable when the items before it raised nothing, and then the failure is the
    ValueError whose message names the variable and the count found, raised
    with the dataset as those items left it: nothing of the variable is decoded. *)
Theorem malformed_selection self file pre var post name slices :
  last var = Some (name, slices) -> In name variables -> length slices <> 3%nat ->
  (exists e, snd (parse_constraints self file (pre ++ var :: post)) = inl e)
  /\ (forall bytes ds,
        afor_in pre (process_var bytes) (dataset self) = (ds, inr tt) ->
        parse_constraints self (inr bytes) (pre ++ var :: post)
        = (mkHandler (filepath self) ds,
           inl (ValueError ("Cannot obtain slices for " ++ name ++ ". Should be 3 slices, but "
                              ++ show_nat (length slices) ++ " found")%string))).
Proof.
  intros Hlast Hvar Hlen. split.
  - apply (parse_constraints_fails _ _ _ var); [apply in_elt|].
    intros bytes ds. rewrite (process_var_malformed _ _ _ _ _ Hlast Hvar Hlen).
    eexists. reflexivity.
  - intros bytes ds Hpre. apply parse_constraints_first_failure; [exact Hpre|].
    apply (process_var_malformed _ _ _ _ _ Hlast Hvar Hlen).
Qed.

Lemma malformed_selection_witness :
  parse_constraints (BinarySsmiHandler "f10_19950120v7.gz") (inr [x07])
    [[("wspd", [Slice 171 172 1; Slice 273 278 1])]]
  = (BinarySsmiHandler "f10_19950120v7.gz",
     inl (ValueError "Cannot obtain slices for wspd. Should be 3 slices, but 2 found")).
Proof.
  apply (proj2 (malformed_selection (BinarySsmiHandler "f10_19950120v7.gz") (inr [x07]) []
                  [("wspd", [Slice 171 172 1; Slice 273 278 1])] [] "wspd"
                  [Slice 171 172 1; Slice 273 278 1]
                  eq_refl ltac:(cbn; tauto) ltac:(cbn; lia))
           [x07] init_dataset).
  reflexivity.
Defined.

(** C10: a projection that lists a coordinate name makes [parse_constraints]
    fail, because the generator is called without its window; a request for a
    coordinate alone raises that TypeError and returns no array. *)
Theorem coordinate_request_fails self file projection var name slices :
  In var projection -> last var = Some (name, slices) ->
  In name ["lat"; "lon"; "part_of_day"] ->
  (exists e, snd (parse_constraints self file projection) = inl e)
  /\ (forall bytes, projection = [var] ->
        exists meth,
          In meth ["read_variable_lat"; "read_variable_lon"; "read_variable_part"]
          /\ parse_constraints self (inr bytes) projection
             = (self, inl (TypeError (meth ++ "() takes exactly 2 arguments (1 given)")%string))).
Proof.
  intros Hin Hlast Hname. split.
  - apply (parse_constraints_fails _ _ _ var Hin). intros bytes ds.
    destruct (process_var_coordinate bytes var name slices ds Hlast Hname) as (meth & _ & ->).
    eexists. reflexivity.
  - intros bytes ->.
    destruct (process_var_coordinate bytes var name slices (dataset self) Hlast Hname)
      as (meth & Hmeth & Hvar).
    exists meth. split; [exact Hmeth|].
    pose proof (parse_constraints_first_failure self bytes [] var [] (dataset self) _
                  eq_refl Hvar) as Hcall.
    destruct self as [path ds]. exact Hcall.
Qed.

Lemma coordinate_request_fails_witness :
  (exists e, snd (parse_constraints (BinarySsmiHandler "f10_19950120v7.gz") (inr [x07])
                    [[("lon", [Slice 0 11 1])]]) = inl e)
  /\ (forall bytes, [[("lon", [Slice 0 11 1])]] = [[("lon", [Slice 0 11 1])]] ->
        exists meth,
          In meth ["read_variable_lat"; "read_variable_lon"; "read_variable_part"]
          /\ parse_constraints (BinarySsmiHandler "f10_19950120v7.gz") (inr bytes)
               [[("lon", [Slice 0 11 1])]]
             = (BinarySsmiHandler "f10_19950120v7.gz",
                inl (TypeError (meth ++ "() takes exactly 2 arguments (1 given)")%string))).
Proof.
  apply (coordinate_request_fails (BinarySsmiHandler "f10_19950120v7.gz") (inr [x07])
           [[("lon", [Slice 0 11 1])]] [("lon", [Slice 0 11 1])] "lon" [Slice 0 11 1]).
  - left. reflexivity.
  - reflexivity.
  - cbn. tauto.
Defined.

(** ** The names a projection lists *)

Lemma requested_names_from (projection : list projected) (val_arr : list string) :
  for_in projection (fun val_arr proj =>
    first <- py_getitem proj 0 ;;
    ret (val_arr ++ [fst first])) val_arr
  = (names <- requested_names projection ;; ret (val_arr ++ names)).
Proof.
  unfold requested_names. revert val_arr.
  induction projection as [|proj projection IH]; intros val_arr; cbn [for_in bind ret].
  - rewrite app_nil_r. reflexivity.
  - destruct (py_getitem proj 0) as [e|first]; cbn [bind ret]; [reflexivity|].
    rewrite (IH (val_arr ++ [fst first])), (IH ([] ++ [fst first])).
    destruct (for_in projection _ []) as [e|names]; cbn [bind ret]; [reflexivity|].
    rewrite <- app_assoc. reflexivity.
Qed.

Lemma requested_names_app (pre post : list projected) :
  requested_names (pre ++ post)
  = (a <- requested_names pre ;; b <- requested_names post ;; ret (a ++ b)).
Proof.
  unfold requested_names at 1. rewrite for_in_app.
  fold (requested_names pre). destruct (requested_names pre) as [e|a]; cbn [bind]; [reflexivity|].
  apply requested_names_from.
Qed.

Lemma requested_names_cons name slices (post : list projected) :
  requested_names ([(name, slices)] :: post)
  = (b <- requested_names post ;; ret (name :: b)).
Proof.
  unfold requested_names at 1. cbn [for_in]. 
  change (py_getitem [(name, slices)] 0) with (@inr exn _ (name, slices)).
  cbn [bind ret fst app]. apply (requested_names_from post [name]).
Qed.

Lemma unknown_name_not_a_key name :
  ~ In name ["lat"; "lon"; "part_of_day"] -> ~ In name variables ->
  ~ In name (keys init_dataset).
Proof. cbn. tauto. Qed.

(** Listing one more name that is no key of the dataset keeps what [prune] keeps. *)
Lemma prune_unknown name (a b : list string) ds :
  ~ In name (keys ds) -> prune (a ++ name :: b) ds = prune (a ++ b) ds.
Proof.
  intros Hkey. rewrite !prune_filter. apply List.filter_ext_in. intros [k v] Hin. cbn [fst].
  rewrite !existsb_app. cbn [existsb].
  destruct (String.eqb_spec k name) as [->|_]; [|reflexivity].
  exfalso. apply Hkey. unfold keys. apply in_map_iff. exists (name, v). split; [reflexivity|exact Hin].
Qed.

(** C6, as amended: a requested name that is neither a coordinate name nor one
    of the five variables raises nothing and is passed over.  With it in the
    projection the call leaves the handler and returns or raises exactly as
    without it, when other names are requested too; requested alone, it returns
    a result with no entry at all. *)
Theorem unknown_variable_skipped self file pre post name slices :
  well_formed (dataset self) ->
  ~ In name ["lat"; "lon"; "part_of_day"] -> ~ In name variables ->
  (pre ++ post <> [] ->
     parse_constraints self file (pre ++ [(name, slices)] :: post)
     = parse_constraints self file (pre ++ post))
  /\ (forall bytes, parse_constraints self (inr bytes) [[(name, slices)]] = (self, inr [])).
Proof.
  intros Hwf Hcoord Hvar.
  assert (Hskip : forall bytes ds, process_var bytes [(name, slices)] ds = (ds, inr tt))
    by (intros bytes ds; apply (process_var_unknown _ _ name slices); [reflexivity|assumption..]).
  assert (Hloop : forall bytes ds,
             afor_in (pre ++ [(name, slices)] :: post) (process_var bytes) ds
             = afor_in (pre ++ post) (process_var bytes) ds).
  { intros bytes ds. rewrite !afor_in_app. unfold abind at 1 2.
    destruct (afor_in pre (process_var bytes) ds) as [ds' [e|[]]]; [reflexivity|].
    cbn [afor_in]. unfold abind at 1. rewrite Hskip. reflexivity. }
  split.
  - intros Hne. destruct file as [exc|bytes].
    + rewrite !parse_constraints_unreadable by (try exact Hne; destruct pre; discriminate).
      reflexivity.
    + rewrite !parse_constraints_readable by (try exact Hne; destruct pre; discriminate).
      rewrite Hloop.
      destruct (writer_run_projection bytes (pre ++ post)) as (ws & r & Hrun).
      rewrite Hrun by exact Hwf. destruct r as [e|[]]; [reflexivity|]. f_equal.
      rewrite !requested_names_app, requested_names_cons.
      destruct (requested_names pre) as [e|a]; cbn [bind]; [reflexivity|].
      destruct (requested_names post) as [e|b]; cbn [bind ret]; [reflexivity|].
      f_equal. apply prune_unknown.
      rewrite (keys_well_formed _ (well_formed_apply_writes ws _ Hwf)).
      apply unknown_name_not_a_key; assumption.
  - intros bytes. rewrite parse_constraints_readable by discriminate.
    cbn [afor_in]. unfold abind. rewrite Hskip. cbn [aret].
    rewrite (requested_names_cons name slices []). cbn [requested_names for_in bind ret].
    rewrite prune_filter. destruct self as [path ds]. cbn [dataset filepath] in *. f_equal. f_equal.
    assert (Hnone : forall kv, In kv ds -> existsb (String.eqb (fst kv)) [name] = false).
    { intros [k v] Hin. cbn. destruct (String.eqb_spec k name) as [->|_]; [|reflexivity].
      exfalso. apply (unknown_name_not_a_key name Hcoord Hvar).
      rewrite <- (keys_well_formed _ Hwf). unfold keys. apply in_map_iff.
      exists (name, v). split; [reflexivity|exact Hin]. }
    clear Hwf Hskip Hloop. induction ds as [|kv ds IH]; [reflexivity|].
    cbn [List.filter]. rewrite (Hnone kv) by (left; reflexivity).
    apply IH. intros kv' Hin. apply Hnone. right. exact Hin.
Qed.

Lemma unknown_variable_skipped_witness :
  ([[("time", [Slice 0 1 1; Slice 0 1 1; Slice 0 1 1])]] ++ [] <> [] ->
     parse_constraints (BinarySsmiHandler "f10_19950120v7.gz") (inr [x07])
       ([[("time", [Slice 0 1 1; Slice 0 1 1; Slice 0 1 1])]] ++ [("humidity", [])] :: [])
     = parse_constraints (BinarySsmiHandler "f10_19950120v7.gz") (inr [x07])
         ([[("time", [Slice 0 1 1; Slice 0 1 1; Slice 0 1 1])]] ++ []))
  /\ (forall bytes,
        parse_constraints (BinarySsmiHandler "f10_19950120v7.gz") (inr bytes)
          [[("humidity", [])]]
        = (BinarySsmiHandler "f10_19950120v7.gz", inr [])).
Proof.
  apply (unknown_variable_skipped (BinarySsmiHandler "f10_19950120v7.gz") (inr [x07])
           [[("time", [Slice 0 1 1; Slice 0 1 1; Slice 0 1 1])]] [] "humidity" []).
  - reflexivity.
  - cbn. intros [H|[H|[H|[]]]]; discriminate.
  - cbn. intros [H|[H|[H|[H|[H|[]]]]]]; discriminate.
Defined.

(** C6 as stated fails: the request for [humidity], which is no coordinate and
    no variable, raises nothing; it returns an empty result. *)
Lemma unknown_variable_counterexample :
  snd (parse_constraints (BinarySsmiHandler "f10_19950120v7.gz") (inr [x07])
         [[("humidity", [Slice 0 1 1; Slice 0 1 1; Slice 0 1 1])]]) = inr [].
Proof. vm_compute. reflexivity. Qed.

(** * Further properties *)

(** ** Reading back what a request stored *)

Lemma alist_lookup_update_eq {V} k (f : V -> V) (l : list (string * V)) :
  alist_lookup k (alist_update k f l) = option_map f (alist_lookup k l).
Proof.
  induction l as [|[k' v] l IH]; cbn; [reflexivity|].
  destruct (String.eqb k k') eqn:E; cbn; rewrite E; [reflexivity|exact IH].
Qed.

Lemma alist_lookup_update_ne {V} k k' (f : V -> V) (l : list (string * V)) :
  k <> k' -> alist_lookup k' (alist_update k f l) = alist_lookup k' l.
Proof.
  intros Hne. induction l as [|[k0 v] l IH]; cbn; [reflexivity|].
  destruct (String.eqb_spec k k0) as [->|Hk]; cbn.
  - destruct (String.eqb_spec k' k0); [congruence|reflexivity].
  - destruct (String.eqb k' k0); [reflexivity|exact IH].
Qed.

Lemma alist_lookup_write_ne g c v key ds :
  g <> key -> alist_lookup key (write g c v ds) = alist_lookup key ds.
Proof. intros Hne. apply alist_lookup_update_ne. exact Hne. Qed.

Lemma grid_data_write_eq g c v ds :
  grid_data ds g c <> None -> grid_data (write g c v ds) g c = Some (Some v).
Proof.
  unfold grid_data, write. rewrite alist_lookup_update_eq.
  destruct (alist_lookup g ds) as [[b|n ch]|]; cbn; try congruence.
  rewrite alist_lookup_update_eq. destruct (alist_lookup c ch); cbn; congruence.
Qed.

Lemma grid_data_write_ne g c v g' c' ds :
  (g, c) <> (g', c') -> grid_data (write g c v ds) g' c' = grid_data ds g' c'.
Proof.
  intros Hne. unfold grid_data, write. destruct (String.eqb_spec g g') as [<-|Hg].
  - rewrite alist_lookup_update_eq.
    destruct (alist_lookup g ds) as [[b|n ch]|]; cbn; try reflexivity.
    rewrite alist_lookup_update_ne by congruence. reflexivity.
  - rewrite alist_lookup_update_ne by exact Hg. reflexivity.
Qed.

(** In a well-formed dataset every variable is a grid with its four children. *)
Lemma well_formed_grid ds name :
  well_formed ds -> In name variables ->
  exists n children,
    alist_lookup name ds = Some (Grid n children)
    /\ keys children = [name; "lon"; "lat"; "part_of_day"].
Proof.
  intros Hwf Hin.
  assert (Hsk : alist_lookup name (skeleton ds)
                = Some (Some [name; "lon"; "lat"; "part_of_day"])).
  { rewrite Hwf. cbn in Hin.
    repeat (destruct Hin as [<-|Hin]; [reflexivity|]). destruct Hin. }
  unfold skeleton in Hsk. rewrite alist_lookup_map in Hsk.
  destruct (alist_lookup name ds) as [[b|n ch]|]; try discriminate.
  injection Hsk as Hkeys. exists n, ch. split; [reflexivity|exact Hkeys].
Qed.

Lemma well_formed_grid_data ds name c :
  well_formed ds -> In name variables -> In c [name; "lon"; "lat"; "part_of_day"] ->
  grid_data ds name c <> None.
Proof.
  intros Hwf Hin Hc. destruct (well_formed_grid ds name Hwf Hin) as (n & ch & Hg & Hkeys).
  unfold grid_data. rewrite Hg.
  assert (Hex : existsb (String.eqb c) (keys ch) = true)
    by (rewrite Hkeys; apply existsb_eqb_In; exact Hc).
  rewrite alist_lookup_keys in Hex. destruct (alist_lookup c ch); [discriminate|discriminate].
Qed.

Lemma set_grid_data_ok ds name c v :
  well_formed ds -> In name variables -> In c [name; "lon"; "lat"; "part_of_day"] ->
  set_grid_data name c v ds = (write name c v ds, inr tt).
Proof.
  intros Hwf Hin Hc. destruct (well_formed_grid ds name Hwf Hin) as (n & ch & Hg & Hkeys).
  unfold set_grid_data. rewrite Hg.
  assert (Hex : existsb (String.eqb c) (keys ch) = true)
    by (rewrite Hkeys; apply existsb_eqb_In; exact Hc).
  rewrite alist_lookup_keys in Hex. destruct (alist_lookup c ch); [reflexivity|discriminate].
Qed.

(** ** A request for one variable *)

(** The loop over [self.variables] comes down to its one item of the name. *)
Lemma afor_in_variables (body : string -> action unit) name ds :
  In name variables ->
  (forall other ds', other <> name -> body other ds' = (ds', inr tt)) ->
  afor_in variables body ds = body name ds.
Proof.
  intros Hin Hskip. unfold variables in *. cbn in Hin. cbn [afor_in]. unfold abind.
  repeat (destruct Hin as [<-|Hin];
          [ repeat (rewrite Hskip by discriminate);
            destruct (body _ ds) as [ds1 [e|[]]]; [reflexivity|];
            repeat (rewrite Hskip by discriminate); reflexivity
          | ]).
  destruct Hin.
Qed.

(** The index the handler resolves for a variable is its position in the catalog. *)
Lemma resolve_index (p : nat) name :
  variables !! p = Some name ->
  for_in (range (Z.of_nat (length variables))) (fun index i =>
    n <- py_getitem variables i ;;
    ret (if String.eqb n name then i else index)) 0 = inr (Z.of_nat p).
Proof.
  intros Hp. destruct p as [|[|[|[|[|p]]]]]; cbn in Hp; try discriminate;
    injection Hp as <-; vm_compute; reflexivity.
Qed.

Lemma lookup_variables_In (p : nat) name : variables !! p = Some name -> In name variables.
Proof. intros Hp. apply list_elem_of_In. eapply list_elem_of_lookup_2. exact Hp. Qed.

Lemma decode_variable_catalog bytes var name (p : nat) w0 w1 w2 ds :
  well_formed ds ->
  last var = Some (name, [w0; w1; w2]) ->
  variables !! p = Some name ->
  decode_variable bytes var name name ds = store_variable bytes name (Z.of_nat p) w0 w1 w2 ds.
Proof.
  intros Hwf Hlast Hp. pose proof (lookup_variables_In p name Hp) as Hin.
  unfold decode_variable, store_variable. rewrite String.eqb_refl.
  unfold abind at 1. unfold lift at 1. rewrite (py_getitem_last _ _ Hlast). cbn [snd length Nat.eqb negb].
  unfold abind at 1. unfold lift at 1. rewrite (resolve_index p name Hp).
  change (py_getitem [w0; w1; w2] 0) with (@inr exn _ w0).
  change (py_getitem [w0; w1; w2] 1) with (@inr exn _ w1).
  change (py_getitem [w0; w1; w2] 2) with (@inr exn _ w2).
  unfold abind, lift. cbn [call_method].
  destruct (read_variable_lon w0) as [e|lon]; [reflexivity|].
  rewrite set_grid_data_ok by (first [assumption|cbn; tauto]).
  destruct (read_variable_lat w1) as [e|lat]; [reflexivity|].
  rewrite set_grid_data_ok
    by (first [assumption|repeat apply well_formed_write; assumption|cbn; tauto]).
  destruct (read_variable_part w2) as [e|part]; [reflexivity|].
  rewrite set_grid_data_ok
    by (first [assumption|repeat apply well_formed_write; assumption|cbn; tauto]).
  destruct (read_variable_data bytes (Z.of_nat p) [w0; w1; w2]) as [e|buf]; [reflexivity|].
  rewrite set_grid_data_ok
    by (first [assumption|repeat apply well_formed_write; assumption|cbn; tauto]).
  reflexivity.
Qed.

(** On a well-formed dataset, the item of a projection that names a variable
    with three windows does what [store_variable] says. *)
Lemma process_var_catalog bytes var name (p : nat) w0 w1 w2 ds :
  well_formed ds ->
  last var = Some (name, [w0; w1; w2]) ->
  variables !! p = Some name ->
  process_var bytes var ds = store_variable bytes name (Z.of_nat p) w0 w1 w2 ds.
Proof.
  intros Hwf Hlast Hp. pose proof (lookup_variables_In p name Hp) as Hin.
  unfold process_var. unfold abind at 1. unfold lift at 1.
  rewrite (py_getitem_last _ _ Hlast). cbn [fst].
  rewrite variables_not_coordinates by exact Hin.
  rewrite (afor_in_variables _ name ds Hin).
  - apply decode_variable_catalog; assumption.
  - intros other ds' Hne. apply decode_variable_other. exact Hne.
Qed.

Lemma alist_lookup_filter {V} (P : string -> bool) key (l : list (string * V)) :
  P key = true ->
  alist_lookup key (List.filter (fun kv => P (fst kv)) l) = alist_lookup key l.
Proof.
  intros HP. induction l as [|[k v] l IH]; cbn; [reflexivity|].
  destruct (String.eqb_spec key k) as [<-|Hne].
  - rewrite HP. cbn. rewrite String.eqb_refl. reflexivity.
  - destruct (P k); cbn; [|exact IH].
    destruct (String.eqb_spec key k); [contradiction|exact IH].
Qed.

Lemma grid_data_prune val_arr ds g c :
  In g val_arr -> grid_data (prune val_arr ds) g c = grid_data ds g c.
Proof.
  intros Hin. unfold grid_data. rewrite prune_filter.
  pose proof (alist_lookup_filter (fun k => existsb (String.eqb k) val_arr) g ds) as H.
  cbn beta in H. rewrite H; [reflexivity|]. apply existsb_eqb_In. exact Hin.
Qed.

Lemma keys_prune_single name ds :
  well_formed ds -> In name variables -> keys (prune [name] ds) = [name].
Proof.
  intros Hwf Hin. rewrite prune_filter.
  pose proof (keys_filter (fun k => existsb (String.eqb k) [name]) ds) as H.
  cbn beta in H. rewrite H, (keys_well_formed _ Hwf).
  cbn in Hin. repeat (destruct Hin as [<-|Hin]; [reflexivity|]). destruct Hin.
Qed.

Lemma variable_not_coordinate name c :
  In name variables -> In c ["lon"; "lat"; "part_of_day"] -> name <> c.
Proof.
  intros Hin Hc ->. cbn in Hin, Hc.
  repeat (destruct Hc as [<-|Hc]; [intuition discriminate|]). destruct Hc.
Qed.

Lemma parse_constraints_single self bytes var :
  parse_constraints self (inr bytes) [var]
  = match process_var bytes var (dataset self) with
    | (ds, inl e) => (mkHandler (filepath self) ds, inl e)
    | (ds, inr _) =>
        (mkHandler (filepath self) ds,
         val_arr <- requested_names [var] ;; ret (prune val_arr ds))
    end.
Proof.
  rewrite parse_constraints_readable by discriminate. cbn [afor_in]. unfold abind, aret.
  destruct (process_var bytes var (dataset self)) as [ds [e|[]]]; reflexivity.
Qed.

(** X1: a request for one variable with three windows, on a well-formed handler,
    when the three generators and the decoder return: the call raises nothing,
    the result has the variable as its only key, and its grid holds the three
    coordinate arrays of the windows and the samples decoded with the
    variable's position in the catalog as index; the handler's own dataset
    holds the same four arrays afterwards. *)
Theorem variable_request_returns_grid self bytes name (p : nat) w0 w1 w2 lon lat part buf :
  well_formed (dataset self) ->
  variables !! p = Some name ->
  read_variable_lon w0 = inr lon ->
  read_variable_lat w1 = inr lat ->
  read_variable_part w2 = inr part ->
  read_variable_data bytes (Z.of_nat p) [w0; w1; w2] = inr buf ->
  exists h res,
    parse_constraints self (inr bytes) [[(name, [w0; w1; w2])]] = (h, inr res)
    /\ keys res = [name]
    /\ (forall ds, ds = res \/ ds = dataset h ->
          grid_data ds name "lon" = Some (Some (Float32Array lon))
          /\ grid_data ds name "lat" = Some (Some (Float32Array lat))
          /\ grid_data ds name "part_of_day" = Some (Some (UInt16Array part))
          /\ grid_data ds name name = Some (Some (UInt16Array3 buf))).
Proof.
  intros Hwf Hp Hlon Hlat Hpart Hbuf.
  pose proof (lookup_variables_In p name Hp) as Hin.
  rewrite parse_constraints_single.
  rewrite (process_var_catalog bytes [(name, [w0; w1; w2])] name p w0 w1 w2 _ Hwf eq_refl Hp).
  unfold store_variable. rewrite Hlon, Hlat, Hpart, Hbuf. cbv zeta.
  rewrite (requested_names_cons name [w0; w1; w2] []). cbn [requested_names for_in bind ret].
  set (ds1 := write name "lon" (Float32Array lon) (dataset self)).
  set (ds2 := write name "lat" (Float32Array lat) ds1).
  set (ds3 := write name "part_of_day" (UInt16Array part) ds2).
  set (ds4 := write name name (UInt16Array3 buf) ds3).
  assert (Hwf1 : well_formed ds1) by (apply well_formed_write; exact Hwf).
  assert (Hwf2 : well_formed ds2) by (apply well_formed_write; exact Hwf1).
  assert (Hwf3 : well_formed ds3) by (apply well_formed_write; exact Hwf2).
  assert (Hwf4 : well_formed ds4) by (apply well_formed_write; exact Hwf3).
  assert (Hnlon : name <> "lon") by (apply variable_not_coordinate; [exact Hin|cbn; tauto]).
  assert (Hnlat : name <> "lat") by (apply variable_not_coordinate; [exact Hin|cbn; tauto]).
  assert (Hnpart : name <> "part_of_day")
    by (apply variable_not_coordinate; [exact Hin|cbn; tauto]).
  assert (Hstored :
    grid_data ds4 name "lon" = Some (Some (Float32Array lon))
    /\ grid_data ds4 name "lat" = Some (Some (Float32Array lat))
    /\ grid_data ds4 name "part_of_day" = Some (Some (UInt16Array part))
    /\ grid_data ds4 name name = Some (Some (UInt16Array3 buf))).
  { subst ds4 ds3 ds2 ds1. repeat split.
    - rewrite !grid_data_write_ne by congruence.
      apply grid_data_write_eq, well_formed_grid_data; [assumption..|cbn; tauto].
    - rewrite !grid_data_write_ne by congruence.
      apply grid_data_write_eq, well_formed_grid_data; [assumption..|cbn; tauto].
    - rewrite !grid_data_write_ne by congruence.
      apply grid_data_write_eq, well_formed_grid_data; [assumption..|cbn; tauto].
    - apply grid_data_write_eq, well_formed_grid_data; [assumption..|cbn; tauto]. }
  eexists _, _. split; [reflexivity|]. split; [apply keys_prune_single; assumption|].
  intros ds [->| ->]; cbn [dataset]; [|exact Hstored].
  rewrite !grid_data_prune by (left; reflexivity). exact Hstored.
Qed.

Lemma variable_request_returns_grid_witness :
  exists h res,
    parse_constraints (BinarySsmiHandler "f10_19950120v7.gz") (inr [x07; x08; x09])
      [[("time", [Slice 1 3 1; Slice 0 1 1; Slice 0 1 1])]] = (h, inr res)
    /\ keys res = ["time"]
    /\ (forall ds, ds = res \/ ds = dataset h ->
          grid_data ds "time" "lon"
            = Some (Some (Float32Array [Some (to_float32 (lonValue 1));
                                        Some (to_float32 (lonValue 2))]))
          /\ grid_data ds "time" "lat" = Some (Some (Float32Array [Some (to_float32 (latValue 0))]))
          /\ grid_data ds "time" "part_of_day" = Some (Some (UInt16Array [Some 0]))
          /\ grid_data ds "time" "time" = Some (Some (UInt16Array3 [[[Some 8]]; [[Some 9]]]))).
Proof.
  apply (variable_request_returns_grid (BinarySsmiHandler "f10_19950120v7.gz")
           [x07; x08; x09] "time" 0 (Slice 1 3 1) (Slice 0 1 1) (Slice 0 1 1)).
  - reflexivity.
  - reflexivity.
  - vm_compute. reflexivity.
  - vm_compute. reflexivity.
  - vm_compute. reflexivity.
  - vm_compute. reflexivity.
Defined.

(** X2: a request is not rolled back when it fails.  When the three generators
    return and the decoder raises (as it does on every strided window), the
    call raises the decoder's exception and leaves the handler with the three
    new coordinate arrays stored in the variable's grid, beside the samples of
    whatever request came before. *)
Theorem failed_decode_keeps_coordinates self bytes name (p : nat) w0 w1 w2 lon lat part e :
  well_formed (dataset self) ->
  variables !! p = Some name ->
  read_variable_lon w0 = inr lon ->
  read_variable_lat w1 = inr lat ->
  read_variable_part w2 = inr part ->
  read_variable_data bytes (Z.of_nat p) [w0; w1; w2] = inl e ->
  exists h,
    parse_constraints self (inr bytes) [[(name, [w0; w1; w2])]] = (h, inl e)
    /\ grid_data (dataset h) name "lon" = Some (Some (Float32Array lon))
    /\ grid_data (dataset h) name "lat" = Some (Some (Float32Array lat))
    /\ grid_data (dataset h) name "part_of_day" = Some (Some (UInt16Array part))
    /\ grid_data (dataset h) name name = grid_data (dataset self) name name.
Proof.
  intros Hwf Hp Hlon Hlat Hpart Hbuf.
  pose proof (lookup_variables_In p name Hp) as Hin.
  rewrite parse_constraints_single.
  rewrite (process_var_catalog bytes [(name, [w0; w1; w2])] name p w0 w1 w2 _ Hwf eq_refl Hp).
  unfold store_variable. rewrite Hlon, Hlat, Hpart, Hbuf. cbv zeta.
  set (ds1 := write name "lon" (Float32Array lon) (dataset self)).
  set (ds2 := write name "lat" (Float32Array lat) ds1).
  assert (Hwf1 : well_formed ds1) by (apply well_formed_write; exact Hwf).
  assert (Hwf2 : well_formed ds2) by (apply well_formed_write; exact Hwf1).
  assert (Hnlon : name <> "lon") by (apply variable_not_coordinate; [exact Hin|cbn; tauto]).
  assert (Hnlat : name <> "lat") by (apply variable_not_coordinate; [exact Hin|cbn; tauto]).
  assert (Hnpart : name <> "part_of_day")
    by (apply variable_not_coordinate; [exact Hin|cbn; tauto]).
  eexists. split; [reflexivity|]. cbn [dataset]. subst ds2 ds1. repeat split.
  - rewrite !grid_data_write_ne by congruence.
    apply grid_data_write_eq, well_formed_grid_data; [assumption..|cbn; tauto].
  - rewrite !grid_data_write_ne by congruence.
    apply grid_data_write_eq, well_formed_grid_data; [assumption..|cbn; tauto].
  - apply grid_data_write_eq, well_formed_grid_data; [assumption..|cbn; tauto].
  - rewrite !grid_data_write_ne by congruence. reflexivity.
Qed.

Lemma failed_decode_keeps_coordinates_witness :
  exists h,
    parse_constraints (BinarySsmiHandler "f10_19950120v7.gz") (inr [x07; x08; x09])
      [[("time", [Slice 0 3 2; Slice 0 1 1; Slice 0 1 1])]] = (h, inl IndexError)
    /\ grid_data (dataset h) "time" "lon"
       = Some (Some (Float32Array [Some (to_float32 (lonValue 0)); Some (to_float32 (lonValue 2))]))
    /\ grid_data (dataset h) "time" "lat" = Some (Some (Float32Array [Some (to_float32 (latValue 0))]))
    /\ grid_data (dataset h) "time" "part_of_day" = Some (Some (UInt16Array [Some 0]))
    /\ grid_data (dataset h) "time" "time"
       = grid_data (dataset (BinarySsmiHandler "f10_19950120v7.gz")) "time" "time".
Proof.
  apply (failed_decode_keeps_coordinates (BinarySsmiHandler "f10_19950120v7.gz")
           [x07; x08; x09] "time" 0 (Slice 0 3 2) (Slice 0 1 1) (Slice 0 1 1)).
  - reflexivity.
  - reflexivity.
  - vm_compute. reflexivity.
  - vm_compute. reflexivity.
  - vm_compute. reflexivity.
  - vm_compute. reflexivity.
Defined.

(** ** What a request leaves alone *)

Lemma preserves_aret {A} key (x : A) : preserves key (aret x).
Proof. intros ds. reflexivity. Qed.

Lemma preserves_lift {A} key (r : result A) : preserves key (lift r).
Proof. intros ds. reflexivity. Qed.

Lemma preserves_abind {A B} key (m : action A) (k : A -> action B) :
  preserves key m -> (forall x, preserves key (k x)) -> preserves key (abind m k).
Proof.
  intros Hm Hk ds. unfold abind. specialize (Hm ds).
  destruct (m ds) as [ds1 [e|x]]; cbn [fst] in *; [exact Hm|].
  rewrite (Hk x ds1). exact Hm.
Qed.

Lemma preserves_raise {A B} key (e : exn) (k : A -> action B) :
  preserves key (abind (lift (inl e)) k).
Proof. intros ds. reflexivity. Qed.

Lemma preserves_afor_in {A} key (l : list A) (body : A -> action unit) :
  (forall x, preserves key (body x)) -> preserves key (afor_in l body).
Proof.
  intros Hbody. induction l as [|x l IH]; cbn [afor_in].
  - apply preserves_aret.
  - apply preserves_abind; [apply Hbody|intros _; exact IH].
Qed.

Lemma preserves_set_grid_data key g c v : g <> key -> preserves key (set_grid_data g c v).
Proof.
  intros Hne ds. unfold set_grid_data.
  destruct (alist_lookup g ds) as [[b|n ch]|]; cbn [fst]; try reflexivity.
  destruct (alist_lookup c ch); cbn [fst]; [|reflexivity].
  apply alist_lookup_write_ne. exact Hne.
Qed.

Lemma preserves_decode_variable key bytes var var_name variable_name :
  var_name <> key -> preserves key (decode_variable bytes var var_name variable_name).
Proof.
  intros Hne. unfold decode_variable.
  destruct (String.eqb_spec variable_name var_name) as [->|_]; [|apply preserves_aret].
  apply preserves_abind; [apply preserves_lift|intros last].
  destruct (negb _); [apply preserves_lift|].
  repeat first [ apply preserves_set_grid_data; exact Hne
               | apply preserves_lift
               | apply preserves_abind; [|intros ?] ].
Qed.

Lemma py_getitem_last_inv {A} (l : list A) x :
  py_getitem l (Z.of_nat (length l) - 1) = inr x -> last l = Some x.
Proof.
  destruct (last l) as [y|] eqn:Hlast.
  - rewrite (py_getitem_last _ _ Hlast). congruence.
  - apply last_None in Hlast. subst l. discriminate.
Qed.

Lemma preserves_lift_inr {A B} key (x : A) (k : A -> action B) :
  preserves key (k x) -> preserves key (abind (lift (inr x)) k).
Proof. intros Hk ds. exact (Hk ds). Qed.

(** An item of the projection leaves an entry alone when the entry is a
    top-level coordinate, or when the item does not name it. *)
Lemma preserves_process_var key bytes var :
  In key ["lat"; "lon"; "part_of_day"] \/ (forall slices, last var <> Some (key, slices)) ->
  preserves key (process_var bytes var).
Proof.
  intros Hkey. unfold process_var.
  destruct (py_getitem var (Z.of_nat (length var) - 1)) as [e|[var_name slices]] eqn:Hlast;
    [apply preserves_raise|].
  apply py_getitem_last_inv in Hlast. apply preserves_lift_inr. cbn [fst].
  destruct (existsb (String.eqb var_name) ["lat"; "lon"; "part_of_day"]) eqn:Hcoord.
  - repeat (destruct (String.eqb _ _); [apply preserves_raise|]). apply preserves_aret.
  - apply preserves_afor_in. intros variable_name. apply preserves_decode_variable.
    intros ->. destruct Hkey as [Hkey|Hkey].
    + apply existsb_eqb_In in Hkey. congruence.
    + exact (Hkey _ Hlast).
Qed.

Lemma preserves_parse_constraints key self file projection :
  preserves key (afor_in projection (fun var ds =>
    match file with
    | inl _ => (ds, inr tt)
    | inr bytes => process_var bytes var ds
    end)) ->
  alist_lookup key (dataset (fst (parse_constraints self file projection)))
  = alist_lookup key (dataset self).
Proof.
  intros Hloop. destruct (decide (projection = [])) as [->|Hne].
  { rewrite parse_constraints_empty. reflexivity. }
  destruct file as [exc|bytes].
  { rewrite parse_constraints_unreadable by exact Hne. reflexivity. }
  rewrite parse_constraints_readable by exact Hne. specialize (Hloop (dataset self)).
  destruct (afor_in projection _ (dataset self)) as [ds [e|[]]]; exact Hloop.
Qed.

(** X3: no request ever writes the top-level coordinate variables: whatever
    the handler, the file and the projection, the entries [lon], [lat] and
    [part_of_day] of the handler's dataset are after the call what they were
    before it (on a new handler, arrays without data). *)
Theorem coordinates_never_written self file projection key :
  In key ["lat"; "lon"; "part_of_day"] ->
  alist_lookup key (dataset (fst (parse_constraints self file projection)))
  = alist_lookup key (dataset self).
Proof.
  intros Hkey. apply preserves_parse_constraints. apply preserves_afor_in. intros var.
  destruct file as [exc|bytes]; [intros ds; reflexivity|].
  apply preserves_process_var. left. exact Hkey.
Qed.

Lemma coordinates_never_written_witness :
  alist_lookup "lon"
    (dataset (fst (parse_constraints (BinarySsmiHandler "f10_19950120v7.gz") (inr [x07])
                     [[("time", [Slice 0 1 1; Slice 0 1 1; Slice 0 1 1])]; [("lon", [])]])))
  = Some (Base lonVar).
Proof.
  apply (coordinates_never_written (BinarySsmiHandler "f10_19950120v7.gz") (inr [x07])
           [[("time", [Slice 0 1 1; Slice 0 1 1; Slice 0 1 1])]; [("lon", [])]] "lon").
  cbn. tauto.
Defined.

(** X4: a request changes only the grids it names: an entry of the handler's
    dataset that no item of the projection names (as its last component) is
    after the call what it was before it, whether the call returns or raises. *)
Theorem unrequested_entries_untouched self file projection key :
  (forall var slices, In var projection -> last var <> Some (key, slices)) ->
  alist_lookup key (dataset (fst (parse_constraints self file projection)))
  = alist_lookup key (dataset self).
Proof.
  intros Hkey. apply preserves_parse_constraints.
  induction projection as [|var projection IH]; cbn [afor_in]; [apply preserves_aret|].
  apply preserves_abind.
  - destruct file as [exc|bytes]; [intros ds; reflexivity|].
    apply preserves_process_var. right. intros slices. apply Hkey. left. reflexivity.
  - intros _. apply IH. intros var' slices Hin. apply Hkey. right. exact Hin.
Qed.

Lemma unrequested_entries_untouched_witness :
  alist_lookup "wspd"
    (dataset (fst (parse_constraints (BinarySsmiHandler "f10_19950120v7.gz") (inr [x07])
                     [[("time", [Slice 0 1 1; Slice 0 1 1; Slice 0 1 1])]])))
  = Some (grid_of "wspd").
Proof.
  apply (unrequested_entries_untouched (BinarySsmiHandler "f10_19950120v7.gz") (inr [x07])
           [[("time", [Slice 0 1 1; Slice 0 1 1; Slice 0 1 1])]] "wspd").
  intros var slices [<-|[]]. cbn. discriminate.
Defined.

(** ** The decoder at the edges of its input *)

Lemma np_getitem_beyond {A} (a : list A) idx :
  Z.of_nat (length a) <= idx -> np_getitem a idx = inl IndexError.
Proof.
  intros H. unfold np_getitem. pose proof (np_index_cases (length a) idx) as Hc.
  destruct (np_index (length a) idx) as [e|i]; cbn [bind].
  - destruct Hc as [-> _]. reflexivity.
  - destruct Hc as [Hi Hc]. specialize (Hc ltac:(lia)). lia.
Qed.

(** The three loops raise as soon as some visited index has its byte beyond the
    buffer. *)
Lemma loops_beyond_buffer bytes index (w0 w1 w2 : slice) n0 n1 n2 (l0 l1 l2 : list Z) buf i j k :
  has_shape n0 n1 n2 buf ->
  i ∈ l0 -> j ∈ l1 -> k ∈ l2 ->
  Z.of_nat (length bytes) <= byteIndex i j k index ->
  for_in l0 (fun buf i =>
    for_in l1 (fun buf j =>
      for_in l2 (fun buf k =>
        v <- np_getitem bytes (byteIndex i j k index) ;;
        np_setitem3 buf (i - start w0) (j - start w1) (k - start w2) (uint8_value v))
      buf) buf) buf
  = inl IndexError.
Proof.
  intros Hshape Hi Hj Hk Hfar.
  assert (Hinner : forall i' j' s, has_shape n0 n1 n2 s ->
            match for_in l2 (fun buf k =>
                    v <- np_getitem bytes (byteIndex i' j' k index) ;;
                    np_setitem3 buf (i' - start w0) (j' - start w1) (k - start w2)
                      (uint8_value v)) s with
            | inr s' => has_shape n0 n1 n2 s'
            | inl e => e = IndexError
            end).
  { intros i' j' s Hs. apply (for_in_keeps (has_shape n0 n1 n2)); [|exact Hs].
    intros s' k' _ Hs'. apply store_keeps_shape. exact Hs'. }
  apply (for_in_raises (has_shape n0 n1 n2) l0 _ i Hi); [| |exact Hshape].
  - intros s Hs. apply (for_in_raises (has_shape n0 n1 n2) l1 _ j Hj); [| |exact Hs].
    + intros s1 Hs1. apply (for_in_raises (has_shape n0 n1 n2) l2 _ k Hk); [| |exact Hs1].
      * intros s2 Hs2. rewrite np_getitem_beyond by exact Hfar. reflexivity.
      * intros s2 k' _ Hs2. apply store_keeps_shape. exact Hs2.
    + intros s1 j' _ Hs1. apply Hinner. exact Hs1.
  - intros s i' _ Hs. apply (for_in_keeps (has_shape n0 n1 n2)); [|exact Hs].
    intros s1 j' _ Hs1. apply Hinner. exact Hs1.
Qed.

(** X5: a buffer that is too short is never decoded in part: on valid windows,
    as soon as one visited index [(i, j, k)] has its offset at or beyond the end
    of the buffer, the decoder raises IndexError and returns no array. *)
Theorem short_buffer_raises (bytes : list byte) (index : Z) (w0 w1 w2 : slice) i j k :
  valid_window 1440 w0 -> valid_window 720 w1 -> valid_window 2 w2 ->
  i ∈ window_indices w0 -> j ∈ window_indices w1 -> k ∈ window_indices w2 ->
  Z.of_nat (length bytes) <= byteIndex i j k index ->
  read_variable_data bytes index [w0; w1; w2] = inl IndexError.
Proof.
  intros Hw0 Hw1 Hw2 Hi Hj Hk Hfar. unfold read_variable_data.
  change (py_getitem [w0; w1; w2] 0) with (@inr exn _ w0).
  change (py_getitem [w0; w1; w2] 1) with (@inr exn _ w1).
  change (py_getitem [w0; w1; w2] 2) with (@inr exn _ w2).
  cbn [bind].
  rewrite (range_getslice_valid 1440 w0), (range_getslice_valid 720 w1),
    (range_getslice_valid 2 w2) by (first [apply Hw0|apply Hw1|apply Hw2]).
  cbn [bind].
  apply (loops_beyond_buffer bytes index w0 w1 w2 _ _ _ _ _ _ _ i j k
           (np_empty3_shape _ _ _) Hi Hj Hk Hfar).
Qed.

Lemma short_buffer_raises_witness :
  read_variable_data (replicate (Z.to_nat 10367999) x00) 4
    [Slice 0 1440 1; Slice 0 720 1; Slice 0 2 1] = inl IndexError.
Proof.
  apply (short_buffer_raises (replicate (Z.to_nat 10367999) x00) 4
           (Slice 0 1440 1) (Slice 0 720 1) (Slice 0 2 1) 1439 719 1).
  - unfold valid_window. cbn. lia.
  - unfold valid_window. cbn. lia.
  - unfold valid_window. cbn. lia.
  - apply elem_of_window_indices_step1; [reflexivity|]. unfold in_window. cbn. lia.
  - apply elem_of_window_indices_step1; [reflexivity|]. unfold in_window. cbn. lia.
  - apply elem_of_window_indices_step1; [reflexivity|]. unfold in_window. cbn. lia.
  - rewrite length_replicate, Z2Nat.id by lia. unfold byteIndex. lia.
Defined.

Lemma for_in_idle {A S} (l : list A) (body : S -> A -> result S) s :
  (forall s' x, body s' x = inr s') -> for_in l body s = inr s.
Proof.
  intros Hbody. induction l as [|x l IH]; cbn [for_in]; [reflexivity|].
  rewrite Hbody. exact IH.
Qed.

(** X6: a window that selects nothing gives an array without cells and the
    buffer is not read: when the three slicings return and one of them is
    empty, the decoder returns the array as [np.empty] allocated it, whatever
    the buffer (an empty file included) and whatever the index. *)
Theorem empty_window_reads_nothing (bytes : list byte) (index : Z) (w0 w1 w2 : slice)
    (l0 l1 l2 : list Z) :
  list_getslice (range 1440) w0 = inr l0 ->
  list_getslice (range 720) w1 = inr l1 ->
  list_getslice (range 2) w2 = inr l2 ->
  l0 = [] \/ l1 = [] \/ l2 = [] ->
  read_variable_data bytes index [w0; w1; w2]
  = inr (np_empty3 (length l0, length l1, length l2)).
Proof.
  intros H0 H1 H2 Hempty. unfold read_variable_data.
  change (py_getitem [w0; w1; w2] 0) with (@inr exn _ w0).
  change (py_getitem [w0; w1; w2] 1) with (@inr exn _ w1).
  change (py_getitem [w0; w1; w2] 2) with (@inr exn _ w2).
  cbn [bind]. rewrite H0, H1, H2. cbn [bind].
  destruct Hempty as [->|[->| ->]].
  - reflexivity.
  - apply for_in_idle. intros s x. reflexivity.
  - apply for_in_idle. intros s x. apply for_in_idle. intros s' y. reflexivity.
Qed.

Lemma empty_window_reads_nothing_witness :
  read_variable_data [] 3 [Slice 0 2 1; Slice 700 700 1; Slice 0 1 1]
  = inr (np_empty3 (length [0; 1], length (@nil Z), length [0])).
Proof.
  apply (empty_window_reads_nothing [] 3 (Slice 0 2 1) (Slice 700 700 1) (Slice 0 1 1)).
  - vm_compute. reflexivity.
  - vm_compute. reflexivity.
  - vm_compute. reflexivity.
  - right. left. reflexivity.
Defined.

(** ** Failing fast *)

Lemma requested_names_step (proj : projected) (projection : list projected) :
  requested_names (proj :: projection)
  = (first <- py_getitem proj 0 ;; b <- requested_names projection ;; ret (fst first :: b)).
Proof.
  unfold requested_names at 1. cbn [for_in].
  destruct (py_getitem proj 0) as [e|first]; cbn [bind ret]; [reflexivity|].
  apply (requested_names_from projection [fst first]).
Qed.

Lemma process_var_nil bytes ds : process_var bytes [] ds = (ds, inl IndexError).
Proof. reflexivity. Qed.

(** When every item was processed without an exception, the names of the
    projection can be listed. *)
Lemma processed_names bytes projection ds ds' :
  afor_in projection (process_var bytes) ds = (ds', inr tt) ->
  exists names, requested_names projection = inr names.
Proof.
  revert ds. induction projection as [|var projection IH]; intros ds Hrun.
  - exists []. reflexivity.
  - cbn [afor_in] in Hrun. unfold abind in Hrun.
    destruct (process_var bytes var ds) as [ds1 [e|[]]] eqn:Hvar; [discriminate|].
    destruct (IH ds1 Hrun) as [names Hnames].
    destruct var as [|first var]; [rewrite process_var_nil in Hvar; discriminate|].
    exists (fst first :: names). rewrite requested_names_step, Hnames. reflexivity.
Qed.

(** X7: processing stops at the first item that raises.  When a request fails,
    the items that follow in the projection change nothing: with any number of
    further items after it, the call raises the same exception and leaves the
    handler in the same state. *)
Theorem fail_fast self file pre var post e :
  snd (parse_constraints self file (pre ++ [var])) = inl e ->
  parse_constraints self file (pre ++ var :: post)
  = parse_constraints self file (pre ++ [var]).
Proof.
  intros Hfail. destruct file as [exc|bytes].
  { rewrite !parse_constraints_unreadable by (destruct pre; discriminate). reflexivity. }
  rewrite parse_constraints_readable in Hfail by (destruct pre; discriminate).
  rewrite !parse_constraints_readable by (destruct pre; discriminate).
  replace (pre ++ var :: post) with ((pre ++ [var]) ++ post)
    by (rewrite <- app_assoc; reflexivity).
  rewrite (afor_in_app (pre ++ [var]) post). unfold abind at 1.
  destruct (afor_in (pre ++ [var]) (process_var bytes) (dataset self)) as [ds [e'|[]]] eqn:Hrun;
    [reflexivity|].
  destruct (processed_names _ _ _ _ Hrun) as [names Hnames].
  rewrite Hnames in Hfail. discriminate.
Qed.

Lemma fail_fast_witness :
  parse_constraints (BinarySsmiHandler "f10_19950120v7.gz") (inr [x07])
    ([[("time", [Slice 0 1 1; Slice 0 1 1; Slice 0 1 1])]]
       ++ [("wspd", [Slice 0 1 1; Slice 0 1 1])] :: [[("vapor", [Slice 0 1 1; Slice 0 1 1; Slice 0 1 1])]])
  = parse_constraints (BinarySsmiHandler "f10_19950120v7.gz") (inr [x07])
      ([[("time", [Slice 0 1 1; Slice 0 1 1; Slice 0 1 1])]]
         ++ [[("wspd", [Slice 0 1 1; Slice 0 1 1])]]).
Proof.
  apply (fail_fast (BinarySsmiHandler "f10_19950120v7.gz") (inr [x07])
           [[("time", [Slice 0 1 1; Slice 0 1 1; Slice 0 1 1])]]
           [("wspd", [Slice 0 1 1; Slice 0 1 1])]
           [[("vapor", [Slice 0 1 1; Slice 0 1 1; Slice 0 1 1])]]
           (ValueError "Cannot obtain slices for wspd. Should be 3 slices, but 2 found")).
  vm_compute. reflexivity.
Defined.

(** ** Windows of any bounds and either direction *)

(** X8: the coordinate generators take a window as Python takes a slice.  For
    every window of a step other than 0 they return the values of the indices
    of [slice_selection]: a negative bound counts from the end of the axis, a
    bound beyond the axis is clamped to it, a positive step goes up from the
    start to below the stop and a negative step goes down from the start to
    above the stop. *)
Theorem generators_follow_slicing (w : slice) :
  step w <> 0 ->
  read_variable_lon w
    = inr (map (fun i => Some (to_float32 (lonValue i))) (slice_selection 1440 w))
  /\ read_variable_lat w
    = inr (map (fun j => Some (to_float32 (latValue j))) (slice_selection 720 w))
  /\ read_variable_part w = inr (map (fun k => Some k) (slice_selection 2 w)).
Proof.
  intros Hst. split; [|split].
  - apply (generator_selection read_variable_lon 1440 (fun i => to_float32 (lonValue i)));
      [lia|apply read_variable_lon_eq|exact Hst].
  - apply (generator_selection read_variable_lat 720 (fun j => to_float32 (latValue j)));
      [lia|apply read_variable_lat_eq|exact Hst].
  - apply (generator_selection read_variable_part 2 (fun k => k));
      [lia|apply read_variable_part_eq|exact Hst].
Qed.

Lemma generators_follow_slicing_witness :
  read_variable_lon (Slice (-3) 2000 1)
    = inr (map (fun i => Some (to_float32 (lonValue i))) [1437; 1438; 1439])
  /\ read_variable_lat (Slice 10 5 (-2))
    = inr (map (fun j => Some (to_float32 (latValue j))) [10; 8; 6])
  /\ read_variable_part (Slice 1 (-5) (-1)) = inr [Some 1; Some 0].
Proof.
  split; [|split].
  - apply (proj1 (generators_follow_slicing (Slice (-3) 2000 1) ltac:(discriminate))).
  - apply (proj1 (proj2 (generators_follow_slicing (Slice 10 5 (-2)) ltac:(discriminate)))).
  - apply (proj2 (proj2 (generators_follow_slicing (Slice 1 (-5) (-1)) ltac:(discriminate)))).
Defined.

(** ** The decoder on windows counted from the end *)

Lemma selection_from_start size (w : slice) i :
  0 <= size -> 1 <= step w -> i ∈ slice_selection size w -> 0 <= i - start w.
Proof.
  intros Hsize Hst Hi. unfold slice_selection in Hi.
  rewrite (proj2 (Z.ltb_lt 0 (step w))) in Hi by lia. cbv zeta in Hi.
  apply list_elem_of_fmap in Hi as (t & -> & Ht). apply elem_of_seq in Ht.
  unfold wrap_bound in *.
  pose proof (ceil_div_spec
                (Z.max 0 (Z.min size (if stop w <? 0 then stop w + size else stop w))
                 - Z.max 0 (Z.min size (if start w <? 0 then start w + size else start w)))
                (step w) ltac:(lia)) as Hc.
  destruct (Z.ltb_spec (start w) 0); [nia|]. 
  destruct (Z.ltb_spec (stop w) 0); nia.
Qed.

Lemma selection_from_end size (w : slice) i :
  0 <= size -> 1 <= step w -> start w < 0 -> i ∈ slice_selection size w ->
  Z.of_nat (length (slice_selection size w)) <= i - start w.
Proof.
  intros Hsize Hst Hneg Hi. unfold slice_selection in *.
  rewrite (proj2 (Z.ltb_lt 0 (step w))) in * by lia. cbv zeta in *.
  rewrite length_map, length_seq.
  apply list_elem_of_fmap in Hi as (t & -> & Ht). apply elem_of_seq in Ht.
  unfold wrap_bound in *. rewrite (proj2 (Z.ltb_lt (start w) 0)) in * by lia.
  pose proof (ceil_div_spec
                (Z.max 0 (Z.min size (if stop w <? 0 then stop w + size else stop w))
                 - Z.max 0 (Z.min size (start w + size)))
                (step w) ltac:(lia)) as Hc.
  destruct (Z.ltb_spec (stop w) 0); nia.
Qed.

(** X9: a window whose start is negative (counted from the end of the axis)
    cannot be decoded.  The generators return its coordinates, but the decoder
    subtracts the negative start as it stands: when the three windows have a
    step of 1 or more and each selects something, a negative start on any axis
    makes [read_variable_data] raise IndexError, whatever the buffer. *)
Theorem negative_start_raises (bytes : list byte) (index : Z) (w0 w1 w2 : slice) :
  1 <= step w0 -> 1 <= step w1 -> 1 <= step w2 ->
  slice_selection 1440 w0 <> [] -> slice_selection 720 w1 <> [] ->
  slice_selection 2 w2 <> [] ->
  start w0 < 0 \/ start w1 < 0 \/ start w2 < 0 ->
  read_variable_data bytes index [w0; w1; w2] = inl IndexError.
Proof.
  intros Hst0 Hst1 Hst2 Hne0 Hne1 Hne2 Hneg. unfold read_variable_data.
  change (py_getitem [w0; w1; w2] 0) with (@inr exn _ w0).
  change (py_getitem [w0; w1; w2] 1) with (@inr exn _ w1).
  change (py_getitem [w0; w1; w2] 2) with (@inr exn _ w2).
  cbn [bind].
  rewrite (range_getslice_selection 1440 w0), (range_getslice_selection 720 w1),
    (range_getslice_selection 2 w2) by lia.
  cbn [bind].
  assert (Hi : exists i, i ∈ slice_selection 1440 w0)
    by (destruct (slice_selection 1440 w0) as [|i l]; [congruence|exists i; left]).
  assert (Hj : exists j, j ∈ slice_selection 720 w1)
    by (destruct (slice_selection 720 w1) as [|j l]; [congruence|exists j; left]).
  assert (Hk : exists k, k ∈ slice_selection 2 w2)
    by (destruct (slice_selection 2 w2) as [|k l]; [congruence|exists k; left]).
  destruct Hi as [i Hi], Hj as [j Hj], Hk as [k Hk].
  apply (loops_out_of_bounds bytes index w0 w1 w2 _ _ _ _ _ _ _ i j k
           (np_empty3_shape _ _ _) Hi Hj Hk).
  - intros j' Hj'. apply (selection_from_start 720 w1 j'); [lia|assumption..].
  - intros k' Hk'. apply (selection_from_start 2 w2 k'); [lia|assumption..].
  - apply (selection_from_start 1440 w0 i); [lia|assumption..].
  - destruct Hneg as [H|[H|H]].
    + left. apply selection_from_end; [lia|assumption..].
    + right. left. apply selection_from_end; [lia|assumption..].
    + right. right. apply selection_from_end; [lia|assumption..].
Qed.

Lemma negative_start_raises_witness :
  read_variable_data (replicate (Z.to_nat 10368000) x00) 0
    [Slice (-10) 1440 1; Slice 0 1 1; Slice 0 1 1] = inl IndexError.
Proof.
  apply (negative_start_raises (replicate (Z.to_nat 10368000) x00) 0
           (Slice (-10) 1440 1) (Slice 0 1 1) (Slice 0 1 1)).
  - cbn. lia.
  - cbn. lia.
  - cbn. lia.
  - vm_compute. discriminate.
  - vm_compute. discriminate.
  - vm_compute. discriminate.
  - left. cbn. lia.
Defined.

(** ** Requests for several variables *)

Lemma writer_on_aret {A} g (x : A) : writer_on g (aret x).
Proof. exists [], (inr x). split; [constructor|reflexivity]. Qed.

Lemma writer_on_lift {A} g (r : result A) : writer_on g (lift r).
Proof. exists [], r. split; [constructor|reflexivity]. Qed.

Lemma writer_on_raise {A B} g (e : exn) (k : A -> action B) :
  writer_on g (abind (lift (inl e)) k).
Proof. exists [], (inl e). split; [constructor|reflexivity]. Qed.

Lemma writer_on_abind {A B} g (m : action A) (k : A -> action B) :
  writer_on g m -> (forall x, writer_on g (k x)) -> writer_on g (abind m k).
Proof.
  intros (ws & [e|x] & Hon & Hm) Hk.
  - exists ws, (inl e). split; [exact Hon|].
    intros ds Hwf. unfold abind. rewrite Hm by exact Hwf. reflexivity.
  - destruct (Hk x) as (ws' & r & Hon' & Hkx). exists (ws ++ ws'), r.
    split; [apply Forall_app; split; assumption|].
    intros ds Hwf. unfold abind. rewrite Hm by exact Hwf.
    rewrite Hkx by (apply well_formed_apply_writes, Hwf).
    rewrite apply_writes_app. reflexivity.
Qed.

Lemma writer_on_afor_in {A} g (l : list A) (body : A -> action unit) :
  (forall x, writer_on g (body x)) -> writer_on g (afor_in l body).
Proof.
  intros Hbody. induction l as [|x l IH]; cbn [afor_in].
  - apply writer_on_aret.
  - apply writer_on_abind; [apply Hbody|intros _; exact IH].
Qed.

Lemma writer_on_set_grid_data g c v : writer_on g (set_grid_data g c v).
Proof.
  unfold writer_on, set_grid_data.
  destruct (alist_lookup g (skeleton init_dataset)) as [[chkeys|]|] eqn:Hg.
  - destruct (existsb (String.eqb c) chkeys) eqn:Hc.
    + exists [(g, c, v)], (inr tt). split; [repeat constructor|]. intros ds Hwf.
      rewrite <- Hwf in Hg. unfold skeleton in Hg. rewrite alist_lookup_map in Hg.
      destruct (alist_lookup g ds) as [[b|n ch]|]; try discriminate.
      injection Hg as <-. rewrite alist_lookup_keys in Hc.
      destruct (alist_lookup c ch); [reflexivity|discriminate].
    + exists [], (inl (KeyError c)). split; [constructor|]. intros ds Hwf.
      rewrite <- Hwf in Hg. unfold skeleton in Hg. rewrite alist_lookup_map in Hg.
      destruct (alist_lookup g ds) as [[b|n ch]|]; try discriminate.
      injection Hg as <-. rewrite alist_lookup_keys in Hc.
      destruct (alist_lookup c ch); [discriminate|reflexivity].
  - eexists [], _. split; [constructor|]. intros ds Hwf.
    rewrite <- Hwf in Hg. unfold skeleton in Hg. rewrite alist_lookup_map in Hg.
    destruct (alist_lookup g ds) as [[b|n ch]|]; try discriminate. reflexivity.
  - exists [], (inl (KeyError g)). split; [constructor|]. intros ds Hwf.
    rewrite <- Hwf in Hg. unfold skeleton in Hg. rewrite alist_lookup_map in Hg.
    destruct (alist_lookup g ds) as [[b|n ch]|]; try discriminate. reflexivity.
Qed.

Lemma writer_on_lift_inr {A B} g (x : A) (k : A -> action B) :
  writer_on g (k x) -> writer_on g (abind (lift (inr x)) k).
Proof. intros H. exact H. Qed.

Lemma writer_on_decode_variable bytes var var_name variable_name :
  writer_on var_name (decode_variable bytes var var_name variable_name).
Proof.
  unfold decode_variable.
  destruct (String.eqb_spec variable_name var_name) as [->|_]; [|apply writer_on_aret].
  apply writer_on_abind; [apply writer_on_lift|intros last].
  destruct (negb _); [apply writer_on_lift|].
  repeat first [ apply writer_on_set_grid_data
               | apply writer_on_lift
               | apply writer_on_abind; [|intros ?] ].
Qed.

(** The writes of an item of the projection all go to the grid of its name. *)
Lemma writer_on_process_var bytes var g :
  item_name var = Some g -> writer_on g (process_var bytes var).
Proof.
  intros Hname. unfold item_name in Hname.
  destruct (last var) as [[n slices]|] eqn:Hlast; [|discriminate].
  injection Hname as ->. unfold process_var.
  rewrite (py_getitem_last _ _ Hlast). apply writer_on_lift_inr. cbn [fst].
  destruct (existsb _ _).
  - repeat (destruct (String.eqb _ _); [apply writer_on_raise|]). apply writer_on_aret.
  - apply writer_on_afor_in. intros variable_name. apply writer_on_decode_variable.
Qed.

Lemma process_var_unnamed bytes var ds :
  item_name var = None -> process_var bytes var ds = (ds, inl IndexError).
Proof.
  unfold item_name. destruct (last var) eqn:Hlast; [discriminate|]. intros _.
  apply last_None in Hlast. subst var. reflexivity.
Qed.

Lemma write_apply_writes_comm g c v ws ds :
  Forall (fun w : string * string * array => fst (fst w) <> g) ws ->
  write g c v (apply_writes ws ds) = apply_writes ws (write g c v ds).
Proof.
  intros Hws. revert ds. induction Hws as [|[[g' c'] v'] ws Hne _ IH]; intros ds; [reflexivity|].
  cbn [apply_writes fold_left fst snd] in *. fold (apply_writes ws).
  rewrite IH. f_equal. apply write_comm. cbn in Hne. congruence.
Qed.

(** Writes to different grids can be made in either order. *)
Lemma apply_writes_comm g g' ws ws' ds :
  g <> g' ->
  Forall (fun w : string * string * array => fst (fst w) = g) ws ->
  Forall (fun w : string * string * array => fst (fst w) = g') ws' ->
  apply_writes ws (apply_writes ws' ds) = apply_writes ws' (apply_writes ws ds).
Proof.
  intros Hne Hws Hws'. revert ds.
  induction Hws as [|[[g0 c] v] ws Hg _ IH]; intros ds; [reflexivity|].
  cbn in Hg. subst g0.
  change (apply_writes ((g, c, v) :: ws) (apply_writes ws' ds))
    with (apply_writes ws (write g c v (apply_writes ws' ds))).
  change (apply_writes ((g, c, v) :: ws) ds) with (apply_writes ws (write g c v ds)).
  rewrite write_apply_writes_comm.
  - apply IH.
  - eapply Forall_impl; [exact Hws'|]. intros w Hw. cbn beta in *. congruence.
Qed.

(** Two items of different names that both return can be processed in either
    order. *)
Lemma process_var_swap bytes x y ds ds2 :
  well_formed ds ->
  item_name x <> item_name y ->
  abind (process_var bytes x) (fun _ => process_var bytes y) ds = (ds2, inr tt) ->
  abind (process_var bytes y) (fun _ => process_var bytes x) ds = (ds2, inr tt).
Proof.
  intros Hwf Hne Hrun. unfold abind in *.
  destruct (item_name x) as [gx|] eqn:Hx;
    [|rewrite process_var_unnamed in Hrun by exact Hx; discriminate].
  destruct (writer_on_process_var bytes x gx Hx) as (wsx & rx & Honx & Hwx).
  rewrite Hwx in Hrun by exact Hwf. destruct rx as [e|[]]; [discriminate|].
  destruct (item_name y) as [gy|] eqn:Hy;
    [|rewrite process_var_unnamed in Hrun by exact Hy; discriminate].
  destruct (writer_on_process_var bytes y gy Hy) as (wsy & ry & Hony & Hwy).
  rewrite Hwy in Hrun by (apply well_formed_apply_writes, Hwf).
  rewrite Hwy by exact Hwf. destruct ry as [e|[]]; [discriminate|].
  rewrite Hwx by (apply well_formed_apply_writes, Hwf).
  injection Hrun as <-. f_equal.
  apply (apply_writes_comm gx gy); [congruence|assumption..].
Qed.

Lemma process_var_well_formed bytes var ds ds' r :
  well_formed ds -> process_var bytes var ds = (ds', r) -> well_formed ds'.
Proof.
  intros Hwf Hrun. destruct (writer_process_var bytes var) as (ws & r' & Hw).
  rewrite Hw in Hrun by exact Hwf. injection Hrun as <- _.
  apply well_formed_apply_writes, Hwf.
Qed.

Lemma afor_in_permutation bytes (l l' : list projected) :
  Permutation l l' ->
  forall ds ds', well_formed ds -> List.NoDup (map item_name l) ->
    afor_in l (process_var bytes) ds = (ds', inr tt) ->
    afor_in l' (process_var bytes) ds = (ds', inr tt).
Proof.
  induction 1 as [|x l l' Hperm IH|x y l|l l' l'' Hperm1 IH1 Hperm2 IH2];
    intros ds ds' Hwf Hnodup Hrun.
  - exact Hrun.
  - cbn [afor_in] in *. unfold abind in *.
    destruct (process_var bytes x ds) as [ds1 [e|[]]] eqn:Hx; [discriminate|].
    apply IH; [eapply process_var_well_formed; eassumption| |exact Hrun].
    cbn in Hnodup. apply NoDup_cons_iff in Hnodup. apply Hnodup.
  - cbn [afor_in map] in *.
    assert (Hne : item_name x <> item_name y).
    { apply NoDup_cons_iff in Hnodup as [Hnot _]. intros Heq. apply Hnot. left. exact Heq. }
    unfold abind at 1 2 in Hrun. unfold abind at 1 2.
    destruct (process_var bytes y ds) as [ds1 [e|[]]] eqn:Hy; [discriminate|].
    destruct (process_var bytes x ds1) as [ds2 [e|[]]] eqn:Hx1; [discriminate|].
    pose proof (process_var_swap bytes y x ds ds2 Hwf ltac:(congruence)) as Hswap.
    unfold abind in Hswap. rewrite Hy, Hx1 in Hswap. specialize (Hswap eq_refl).
    destruct (process_var bytes x ds) as [ds3 [e|[]]]; [discriminate|].
    destruct (process_var bytes y ds3) as [ds4 [e|[]]]; [discriminate|].
    injection Hswap as ->. exact Hrun.
  - apply IH2; [exact Hwf| |apply IH1; assumption].
    eapply Permutation_NoDup; [|exact Hnodup]. apply Permutation_map. exact Hperm1.
Qed.

Lemma requested_names_permutation (l l' : list projected) :
  Permutation l l' ->
  forall names, requested_names l = inr names ->
  exists names', requested_names l' = inr names' /\ Permutation names names'.
Proof.
  induction 1 as [|x l l' Hperm IH|x y l|l l' l'' Hperm1 IH1 Hperm2 IH2]; intros names Hnames.
  - exists names. split; [exact Hnames|reflexivity].
  - rewrite requested_names_step in Hnames. rewrite requested_names_step.
    destruct (py_getitem x 0) as [e|first]; [discriminate|]. cbn [bind] in *.
    destruct (requested_names l) as [e|b]; [discriminate|]. cbn [bind ret] in Hnames.
    injection Hnames as <-. destruct (IH b eq_refl) as (b' & -> & Hb).
    exists (fst first :: b'). split; [reflexivity|]. apply perm_skip. exact Hb.
  - rewrite !requested_names_step in Hnames. rewrite !requested_names_step.
    destruct (py_getitem y 0) as [e|fy]; [discriminate|]. cbn [bind] in *.
    destruct (py_getitem x 0) as [e|fx]; [discriminate|]. cbn [bind] in *.
    destruct (requested_names l) as [e|b]; [discriminate|]. cbn [bind ret] in *.
    injection Hnames as <-. eexists. split; [reflexivity|]. apply perm_swap.
  - destruct (IH1 names Hnames) as (names' & Hnames' & Hp1).
    destruct (IH2 names' Hnames') as (names'' & Hnames'' & Hp2).
    exists names''. split; [exact Hnames''|]. etransitivity; eassumption.
Qed.

Lemma prune_permutation (val_arr val_arr' : list string) ds :
  Permutation val_arr val_arr' -> prune val_arr ds = prune val_arr' ds.
Proof.
  intros Hperm. rewrite !prune_filter. apply List.filter_ext. intros [k v]. cbn [fst].
  destruct (existsb (String.eqb k) val_arr) eqn:E, (existsb (String.eqb k) val_arr') eqn:E';
    try reflexivity.
  - apply existsb_eqb_In in E. apply (Permutation_in _ Hperm) in E.
    apply existsb_eqb_In in E. congruence.
  - apply existsb_eqb_In in E'. apply (Permutation_in _ (Permutation_sym Hperm)) in E'.
    apply existsb_eqb_In in E'. congruence.
Qed.

(** X10: the order of the items of a projection does not matter to a request
    that returns.  When the items name different variables, any reordering of
    the projection returns the same result and leaves the handler in the same
    state. *)
Theorem order_insensitive self file projection projection' h res :
  well_formed (dataset self) ->
  Permutation projection projection' ->
  List.NoDup (map item_name projection) ->
  parse_constraints self file projection = (h, inr res) ->
  parse_constraints self file projection' = (h, inr res).
Proof.
  intros Hwf Hperm Hnodup Hcall.
  destruct (decide (projection = [])) as [->|Hne].
  { apply Permutation_nil in Hperm. subst. exact Hcall. }
  assert (Hne' : projection' <> [])
    by (intros ->; apply Permutation_sym, Permutation_nil in Hperm; contradiction).
  destruct file as [exc|bytes].
  { rewrite parse_constraints_unreadable in Hcall by exact Hne. discriminate. }
  rewrite parse_constraints_readable in Hcall by exact Hne.
  rewrite parse_constraints_readable by exact Hne'.
  destruct (afor_in projection (process_var bytes) (dataset self)) as [ds [e|[]]] eqn:Hrun;
    [discriminate|].
  rewrite (afor_in_permutation bytes _ _ Hperm _ _ Hwf Hnodup Hrun).
  destruct (requested_names projection) as [e|names] eqn:Hnames; [discriminate|].
  destruct (requested_names_permutation _ _ Hperm names Hnames) as (names' & -> & Hp).
  cbn [bind ret] in *. injection Hcall as <- <-.
  rewrite (prune_permutation _ _ _ Hp). reflexivity.
Qed.

Lemma order_insensitive_witness :
  let time := [("time", [Slice 0 1 1; Slice 0 1 1; Slice 0 1 1])] in
  let wspd := [("wspd", [Slice 0 1 1; Slice 0 1 1; Slice 0 1 1])] in
  let self := BinarySsmiHandler "f10_19950120v7.gz" in
  let bytes := replicate (Z.to_nat 1036801) x07 in
  parse_constraints self (inr bytes) [wspd; time]
  = (fst (parse_constraints self (inr bytes) [time; wspd]),
     inr (prune ["time"; "wspd"]
            (dataset (fst (parse_constraints self (inr bytes) [time; wspd]))))).
Proof.
  intros time wspd self bytes.
  apply (order_insensitive self (inr bytes) [time; wspd] [wspd; time]).
  - reflexivity.
  - apply perm_swap.
  - repeat constructor; cbn; intuition discriminate.
  - vm_compute. reflexivity.
Defined.

(** ** The decoder on descending windows *)

Lemma unit_selection size (w : slice) :
  0 <= size -> unit_window size w ->
  exists n : nat,
    slice_selection size w = map (fun t : nat => start w + Z.of_nat t * step w) (seq 0 n)
    /\ Z.of_nat n <= (if 0 <? step w then size - start w else start w + 1).
Proof.
  intros Hsize [[Hst|Hst] Hstart]; unfold slice_selection, wrap_bound; rewrite Hst; cbn [Z.ltb Z.compare Z.opp].
  - cbv zeta. rewrite (proj2 (Z.ltb_ge (start w) 0)) by lia.
    rewrite (Z.min_r size (start w)), (Z.max_r 0 (start w)) by lia.
    rewrite ceil_div_1. eexists. split; [reflexivity|].
    destruct (Z.ltb_spec (stop w) 0); lia.
  - cbv zeta. rewrite (proj2 (Z.ltb_ge (start w) 0)) by lia.
    rewrite (Z.min_r (size - 1) (start w)), (Z.max_r (-1) (start w)) by lia.
    rewrite ceil_div_1. eexists. split; [reflexivity|].
    destruct (Z.ltb_spec (stop w) 0); lia.
Qed.

Lemma data_cell_inj (w : slice) (n t t' : nat) :
  (t < n)%nat -> (t' < n)%nat -> data_cell w n t = data_cell w n t' -> t = t'.
Proof.
  unfold data_cell. destruct (0 <? step w); [tauto|].
  destruct t, t'; lia.
Qed.

(** The index at position [t] of a unit window lies on the axis, and the
    decoder's subscript for it designates the cell [data_cell]. *)
Lemma unit_selection_lookup size (w : slice) (t : nat) i :
  0 <= size -> unit_window size w ->
  slice_selection size w !! t = Some i ->
  let n := length (slice_selection size w) in
  (t < n)%nat /\ 0 <= i < size /\ - Z.of_nat n <= i - start w < Z.of_nat n
  /\ stored_cell w n i = data_cell w n t.
Proof.
  intros Hsize Hw Ht n.
  destruct (unit_selection size w Hsize Hw) as (m & Hsel & Hm).
  assert (Hn : n = m) by (unfold n; rewrite Hsel, length_map, length_seq; reflexivity).
  rewrite Hsel in Ht. rewrite list_lookup_fmap in Ht.
  destruct (seq 0 m !! t) as [t'|] eqn:Hseq; [|discriminate].
  apply lookup_seq in Hseq as [-> Hlt]. cbn in Ht. injection Ht as <-.
  rewrite Hn. unfold stored_cell, data_cell.
  destruct Hw as [[Hst|Hst] Hstart]; rewrite Hst in *; cbn [Z.ltb Z.compare] in *.
  - split; [assumption|]. split; [lia|]. split; [lia|].
    replace (start w + Z.of_nat t * 1 - start w) with (Z.of_nat t) by lia.
    rewrite Z.mod_small by lia. lia.
  - split; [assumption|]. split; [lia|]. split; [lia|].
    replace (start w + Z.of_nat t * -1 - start w) with (- Z.of_nat t) by lia.
    destruct t as [|t]; [rewrite Z.mod_0_l by lia; reflexivity|].
    rewrite <- (Z_mod_plus_full _ 1), Z.mod_small by lia. lia.
Qed.

Lemma unit_selection_elem size (w : slice) i :
  0 <= size -> unit_window size w -> i ∈ slice_selection size w ->
  let n := length (slice_selection size w) in
  0 <= i < size /\ - Z.of_nat n <= i - start w < Z.of_nat n.
Proof.
  intros Hsize Hw Hi n. apply list_elem_of_lookup in Hi as [t Ht].
  destruct (unit_selection_lookup size w t i Hsize Hw Ht) as (_ & H1 & H2 & _).
  split; assumption.
Qed.

Lemma stored_cell_inj size (w : slice) i i' :
  0 <= size -> unit_window size w ->
  i ∈ slice_selection size w -> i' ∈ slice_selection size w ->
  stored_cell w (length (slice_selection size w)) i
  = stored_cell w (length (slice_selection size w)) i' -> i = i'.
Proof.
  intros Hsize Hw Hi Hi' Heq.
  apply list_elem_of_lookup in Hi as [t Ht]. apply list_elem_of_lookup in Hi' as [t' Ht'].
  destruct (unit_selection_lookup size w t i Hsize Hw Ht) as (Hlt & _ & _ & Hc).
  destruct (unit_selection_lookup size w t' i' Hsize Hw Ht') as (Hlt' & _ & _ & Hc').
  rewrite Hc, Hc' in Heq. apply data_cell_inj in Heq; [|assumption..]. subst t'.
  congruence.
Qed.

(** A subscript between [-size] and [size - 1] designates a cell: a negative
    one counts from the end of the axis. *)
Lemma np_index_wrap size idx :
  - Z.of_nat size <= idx < Z.of_nat size ->
  np_index size idx = inr (Z.to_nat (idx mod Z.of_nat size)).
Proof.
  intros H. unfold np_index. cbv zeta. destruct (Z.ltb_spec idx 0) as [Hneg|Hpos].
  - rewrite (proj2 (Z.ltb_ge (idx + Z.of_nat size) 0)), (proj2 (Z.leb_gt _ _)) by lia.
    cbn [orb]. rewrite <- (Z_mod_plus_full idx 1), Z.mod_small by lia.
    rewrite Z.mul_1_l. reflexivity.
  - rewrite (proj2 (Z.ltb_ge idx 0)), (proj2 (Z.leb_gt _ _)) by lia.
    cbn [orb]. rewrite Z.mod_small by lia. reflexivity.
Qed.

Lemma np_setitem3_wrap {A} n0 n1 n2 (buf : ndarray3 A) (x y z : Z) (v : A) :
  has_shape n0 n1 n2 buf ->
  - Z.of_nat n0 <= x < Z.of_nat n0 -> - Z.of_nat n1 <= y < Z.of_nat n1 ->
  - Z.of_nat n2 <= z < Z.of_nat n2 ->
  np_setitem3 buf x y z v
  = np_setitem3 buf (x mod Z.of_nat n0) (y mod Z.of_nat n1) (z mod Z.of_nat n2) v.
Proof.
  intros [Hn0 Hplanes] Hx Hy Hz. unfold np_setitem3.
  rewrite Hn0, (np_index_wrap n0 x), (np_index_in_range n0 (x mod Z.of_nat n0))
    by (try apply Z.mod_pos_bound; lia).
  cbn [bind].
  destruct (buf !! Z.to_nat (x mod Z.of_nat n0)) as [plane|] eqn:Hplane; [|reflexivity].
  cbn [bind ret]. destruct (Forall_lookup_1 _ _ _ _ Hplanes Hplane) as [Hn1 Hrows].
  rewrite Hn1, (np_index_wrap n1 y), (np_index_in_range n1 (y mod Z.of_nat n1))
    by (try apply Z.mod_pos_bound; lia).
  cbn [bind].
  destruct (plane !! Z.to_nat (y mod Z.of_nat n1)) as [row|] eqn:Hrow; [|reflexivity].
  cbn [bind ret]. pose proof (Forall_lookup_1 _ _ _ _ Hrows Hrow) as Hn2. cbn beta in Hn2.
  rewrite Hn2, (np_index_wrap n2 z), (np_index_in_range n2 (z mod Z.of_nat n2))
    by (try apply Z.mod_pos_bound; lia).
  reflexivity.
Qed.

Section UnitWindows.
Variables (bytes : list byte) (index : Z) (w0 w1 w2 : slice).
Hypothesis Hw0 : unit_window 1440 w0.
Hypothesis Hw1 : unit_window 720 w1.
Hypothesis Hw2 : unit_window 2 w2.
Hypothesis Hindex : 0 <= index <= 4.
Hypothesis Hbytes : 1440 * 720 * 5 * 2 <= Z.of_nat (length bytes).

Lemma placed_mono (W W' : Z * Z * Z -> Prop) buf :
  (forall t, W' t -> W t) ->
  placed bytes index w0 w1 w2 W buf -> placed bytes index w0 w1 w2 W' buf.
Proof.
  intros Hsub [Hshape Hcells]. split; [exact Hshape|].
  intros i j k Ht. apply Hcells, Hsub, Ht.
Qed.

(** One pass of the innermost body. *)
Lemma store_placed (W : Z * Z * Z -> Prop) buf i j k :
  placed bytes index w0 w1 w2 W buf ->
  i ∈ slice_selection 1440 w0 -> j ∈ slice_selection 720 w1 -> k ∈ slice_selection 2 w2 ->
  exists buf',
    (v <- np_getitem bytes (byteIndex i j k index) ;;
     np_setitem3 buf (i - start w0) (j - start w1) (k - start w2) (uint8_value v)) = inr buf'
    /\ placed bytes index w0 w1 w2 (fun t => W t \/ t = (i, j, k)) buf'.
Proof.
  intros [Hshape Hcells] Hi Hj Hk.
  destruct (unit_selection_elem 1440 w0 i ltac:(lia) Hw0 Hi) as [Hi1 Hi2].
  destruct (unit_selection_elem 720 w1 j ltac:(lia) Hw1 Hj) as [Hj1 Hj2].
  destruct (unit_selection_elem 2 w2 k ltac:(lia) Hw2 Hk) as [Hk1 Hk2].
  destruct (np_getitem_in_range bytes (byteIndex i j k index)) as (b & Hb & ->);
    [unfold byteIndex; lia|]. cbn [bind].
  rewrite (np_setitem3_wrap _ _ _ buf _ _ _ _ Hshape Hi2 Hj2 Hk2).
  destruct (np_setitem3_spec _ _ _ buf
              ((i - start w0) mod Z.of_nat (length (slice_selection 1440 w0)))
              ((j - start w1) mod Z.of_nat (length (slice_selection 720 w1)))
              ((k - start w2) mod Z.of_nat (length (slice_selection 2 w2)))
              (uint8_value b) Hshape) as (buf' & -> & Hshape' & Hset & Hother);
    [apply Z.mod_pos_bound; lia..|].
  exists buf'. split; [reflexivity|]. split; [exact Hshape'|].
  intros i' j' k' [Ht|Ht].
  - destruct (Hcells _ _ _ Ht) as (Hi' & Hj' & Hk' & b' & Hb' & Hat).
    repeat (split; [assumption|]).
    destruct (decide ((i', j', k') = (i, j, k))) as [Heq|Hne].
    + injection Heq as -> -> ->. exists b. split; assumption.
    + exists b'. split; [assumption|]. rewrite Hother; [assumption|].
      intros Heq. apply Hne. injection Heq as H0 H1 H2.
      apply (stored_cell_inj 1440 w0 i' i ltac:(lia) Hw0 Hi' Hi) in H0.
      apply (stored_cell_inj 720 w1 j' j ltac:(lia) Hw1 Hj' Hj) in H1.
      apply (stored_cell_inj 2 w2 k' k ltac:(lia) Hw2 Hk' Hk) in H2.
      congruence.
  - injection Ht as -> -> ->. repeat (split; [assumption|]).
    exists b. split; assumption.
Qed.

Lemma read_variable_data_unit_windows :
  exists buf,
    read_variable_data bytes index [w0; w1; w2] = inr buf
    /\ placed bytes index w0 w1 w2
         (fun t => t.1.1 ∈ slice_selection 1440 w0 /\ t.1.2 ∈ slice_selection 720 w1
                   /\ t.2 ∈ slice_selection 2 w2) buf.
Proof.
  assert (Hs0 : step w0 <> 0) by (destruct Hw0 as [[H|H] _]; lia).
  assert (Hs1 : step w1 <> 0) by (destruct Hw1 as [[H|H] _]; lia).
  assert (Hs2 : step w2 <> 0) by (destruct Hw2 as [[H|H] _]; lia).
  unfold read_variable_data.
  change (py_getitem [w0; w1; w2] 0) with (@inr exn _ w0).
  change (py_getitem [w0; w1; w2] 1) with (@inr exn _ w1).
  change (py_getitem [w0; w1; w2] 2) with (@inr exn _ w2).
  cbn [bind].
  rewrite (range_getslice_selection 1440 w0), (range_getslice_selection 720 w1),
    (range_getslice_selection 2 w2) by (assumption || lia).
  cbn [bind].
  pose proof (@np_empty3_shape Z (length (slice_selection 1440 w0))
                (length (slice_selection 720 w1)) (length (slice_selection 2 w2))) as Hempty.
  assert (Hinit : placed bytes index w0 w1 w2 (fun _ => False)
                    (np_empty3 (length (slice_selection 1440 w0),
                                length (slice_selection 720 w1),
                                length (slice_selection 2 w2))))
    by (split; [exact Hempty|intros ? ? ? []]).
  match goal with |- context [for_in ?l ?body ?s] =>
    destruct (for_in_cover (placed bytes index w0 w1 w2)
                (fun i t => exists j k, j ∈ slice_selection 720 w1 /\ k ∈ slice_selection 2 w2
                                        /\ t = (i, j, k))
                l body placed_mono _ _ Hinit)
      as (buf & Hbuf & Hdec)
  end.
  - intros W buf i Hi HW.
    match goal with |- context [for_in ?l ?body ?s] =>
      destruct (for_in_cover (placed bytes index w0 w1 w2)
                  (fun j t => exists k, k ∈ slice_selection 2 w2 /\ t = (i, j, k))
                  l body placed_mono _ _ HW)
        as (buf1 & Hbuf1 & Hdec1)
    end.
    + intros W1 buf1 j Hj HW1.
      match goal with |- context [for_in ?l ?body ?s] =>
        destruct (for_in_cover (placed bytes index w0 w1 w2)
                    (fun k t => t = (i, j, k))
                    l body placed_mono _ _ HW1)
          as (buf2 & Hbuf2 & Hdec2)
      end.
      * intros W2 buf2 k Hk HW2. cbn [bind].
        apply store_placed; assumption.
      * exists buf2. split; [exact Hbuf2|].
        apply (placed_mono _ _ _) with (2 := Hdec2).
        intros t [Ht|(k & Hk & Ht)]; [left; assumption|right; exists k; split; assumption].
    + exists buf1. split; [exact Hbuf1|].
      apply (placed_mono _ _ _) with (2 := Hdec1).
      intros t [Ht|(j & k & Hj & Hk & Ht)]; [left; assumption|].
      right. exists j. split; [assumption|]. exists k. split; assumption.
  - exists buf. split; [exact Hbuf|].
    apply (placed_mono _ _ _) with (2 := Hdec).
    intros [[i j] k] (Hi & Hj & Hk). cbn [fst snd] in Hi, Hj, Hk. right.
    exists i. split; [assumption|].
    exists j, k. repeat split; assumption.
Qed.
End UnitWindows.

(** X11: a descending window is decoded without an error, but not in the order
    of its coordinates.  For a variable index in 0..4, a buffer of the full
    size and windows of step 1 or -1 that start on their axis,
    [read_variable_data] returns an array of the shape of the three selections
    in which the sample of the index at position [t] of a coordinate array is
    at that position on an ascending axis, and on a descending axis in the
    first cell for [t = 0] and in cell [n - t] otherwise: from the second cell
    on, the samples of a descending axis are in ascending order. *)
Theorem descending_window_rotated (bytes : list byte) (index : Z) (w0 w1 w2 : slice) :
  0 <= index <= 4 ->
  1440 * 720 * 5 * 2 <= Z.of_nat (length bytes) ->
  unit_window 1440 w0 -> unit_window 720 w1 -> unit_window 2 w2 ->
  let n0 := length (slice_selection 1440 w0) in
  let n1 := length (slice_selection 720 w1) in
  let n2 := length (slice_selection 2 w2) in
  exists buf,
    read_variable_data bytes index [w0; w1; w2] = inr buf
    /\ has_shape n0 n1 n2 buf
    /\ forall (t0 t1 t2 : nat) i j k,
         slice_selection 1440 w0 !! t0 = Some i ->
         slice_selection 720 w1 !! t1 = Some j ->
         slice_selection 2 w2 !! t2 = Some k ->
         exists b, bytes !! Z.to_nat (byteIndex i j k index) = Some b
           /\ ndarray3_at buf (data_cell w0 n0 t0) (data_cell w1 n1 t1) (data_cell w2 n2 t2)
              = Some (Some (uint8_value b)).
Proof.
  intros Hindex Hbytes Hw0 Hw1 Hw2 n0 n1 n2. subst n0 n1 n2.
  destruct (read_variable_data_unit_windows bytes index w0 w1 w2 Hw0 Hw1 Hw2 Hindex Hbytes)
    as (buf & Hbuf & Hshape & Hcells).
  exists buf. split; [exact Hbuf|]. split; [exact Hshape|].
  intros t0 t1 t2 i j k Ht0 Ht1 Ht2.
  destruct (Hcells i j k) as (_ & _ & _ & b & Hb & Hat).
  { cbn [fst snd]. split; [|split]; eapply list_elem_of_lookup_2; eassumption. }
  exists b. split; [exact Hb|].
  destruct (unit_selection_lookup 1440 w0 t0 i ltac:(lia) Hw0 Ht0) as (_ & _ & _ & <-).
  destruct (unit_selection_lookup 720 w1 t1 j ltac:(lia) Hw1 Ht1) as (_ & _ & _ & <-).
  destruct (unit_selection_lookup 2 w2 t2 k ltac:(lia) Hw2 Ht2) as (_ & _ & _ & <-).
  exact Hat.
Qed.

Lemma descending_window_rotated_witness :
  let bytes := replicate (Z.to_nat 10368000) x00 in
  let w0 := Slice 5 2 (-1) in
  let w1 := Slice 0 720 1 in
  let w2 := Slice 1 0 (-1) in
  exists buf,
    read_variable_data bytes 2 [w0; w1; w2] = inr buf
    /\ has_shape (length (slice_selection 1440 w0)) (length (slice_selection 720 w1))
                 (length (slice_selection 2 w2)) buf
    /\ forall (t0 t1 t2 : nat) i j k,
         slice_selection 1440 w0 !! t0 = Some i ->
         slice_selection 720 w1 !! t1 = Some j ->
         slice_selection 2 w2 !! t2 = Some k ->
         exists b, bytes !! Z.to_nat (byteIndex i j k 2) = Some b
           /\ ndarray3_at buf (data_cell w0 (length (slice_selection 1440 w0)) t0)
                (data_cell w1 (length (slice_selection 720 w1)) t1)
                (data_cell w2 (length (slice_selection 2 w2)) t2)
              = Some (Some (uint8_value b)).
Proof.
  intros bytes w0 w1 w2.
  apply (descending_window_rotated bytes 2 w0 w1 w2).
  - lia.
  - unfold bytes. rewrite length_replicate, Z2Nat.id; lia.
  - split; [right; reflexivity|cbn [start w0]; lia].
  - split; [left; reflexivity|cbn [start w1]; lia].
  - split; [right; reflexivity|cbn [start w2]; lia].
Defined.

(** ** A variable requested more than once *)

(** A write is lost under later writes that include one to the same place. *)
Lemma apply_writes_absorb_write ws g c v ds :
  In (g, c) (map fst ws) -> apply_writes ws (write g c v ds) = apply_writes ws ds.
Proof.
  revert ds. induction ws as [|[[g' c'] v'] ws IH]; intros ds Hin; [destruct Hin|].
  unfold apply_writes in *. cbn [fold_left fst snd].
  destruct (decide ((g', c') = (g, c))) as [E|N].
  - injection E as -> ->. rewrite write_same. reflexivity.
  - rewrite (write_comm g' c' v' g c v ds N). apply IH.
    destruct Hin as [E|Hin]; [cbn in E; congruence|exact Hin].
Qed.

Lemma apply_writes_absorb ws1 ws ds :
  incl (map fst ws1) (map fst ws) ->
  apply_writes ws (apply_writes ws1 ds) = apply_writes ws ds.
Proof.
  revert ds. induction ws1 as [|[[g c] v] ws1 IH]; intros ds Hincl; [reflexivity|].
  change (apply_writes (((g, c), v) :: ws1) ds) with (apply_writes ws1 (write g c v ds)).
  rewrite IH by (intros k Hk; apply Hincl; right; exact Hk).
  apply apply_writes_absorb_write, Hincl. left. reflexivity.
Qed.

(** An item that is processed without an error names no variable of the
    catalog and writes nothing, or names one and writes the four arrays of its
    grid; and it does so on every dataset. *)
Lemma process_var_returns bytes var name slices ds ds' :
  well_formed ds -> last var = Some (name, slices) ->
  process_var bytes var ds = (ds', inr tt) ->
  exists ws,
    (~ In name variables /\ ws = []
     \/ In name variables
        /\ map fst ws = [(name, "lon"); (name, "lat"); (name, "part_of_day"); (name, name)])
    /\ forall d, well_formed d -> process_var bytes var d = (apply_writes ws d, inr tt).
Proof.
  intros Hwf Hlast Hrun.
  destruct (In_dec string_dec name ["lat"; "lon"; "part_of_day"]) as [Hc|Hc].
  { destruct (process_var_coordinate bytes var name slices ds Hlast Hc) as (meth & _ & E).
    rewrite E in Hrun. discriminate. }
  destruct (In_dec string_dec name variables) as [Hv|Hv].
  - destruct (decide (length slices = 3%nat)) as [Hlen|Hlen];
      [|rewrite (process_var_malformed bytes var name slices ds Hlast Hv Hlen) in Hrun;
        discriminate].
    destruct slices as [|w0 [|w1 [|w2 [|]]]]; try discriminate.
    apply list_elem_of_In, list_elem_of_lookup in Hv as [p Hp].
    rewrite (process_var_catalog bytes var name p w0 w1 w2 ds Hwf Hlast Hp) in Hrun.
    unfold store_variable in Hrun.
    destruct (read_variable_lon w0) as [|lon] eqn:Hlon; [discriminate|].
    destruct (read_variable_lat w1) as [|lat] eqn:Hlat; [discriminate|].
    destruct (read_variable_part w2) as [|part] eqn:Hpart; [discriminate|].
    destruct (read_variable_data bytes (Z.of_nat p) [w0; w1; w2]) as [|buf] eqn:Hbuf;
      [discriminate|].
    exists [((name, "lon"), Float32Array lon); ((name, "lat"), Float32Array lat);
            ((name, "part_of_day"), UInt16Array part); ((name, name), UInt16Array3 buf)].
    split; [right; split; [eapply list_elem_of_In, list_elem_of_lookup_2; exact Hp|reflexivity]|].
    intros d Hd. rewrite (process_var_catalog bytes var name p w0 w1 w2 d Hd Hlast Hp).
    unfold store_variable. rewrite Hlon, Hlat, Hpart, Hbuf. reflexivity.
  - exists []. split; [left; split; [exact Hv|reflexivity]|].
    intros d _. apply (process_var_unknown bytes var name slices d Hlast Hc Hv).
Qed.

Lemma afor_in_app_returns {A} (l1 l2 : list A) (body : A -> action unit) ds ds' :
  afor_in (l1 ++ l2) body ds = (ds', inr tt) ->
  exists ds1, afor_in l1 body ds = (ds1, inr tt) /\ afor_in l2 body ds1 = (ds', inr tt).
Proof.
  rewrite afor_in_app. unfold abind.
  destruct (afor_in l1 body ds) as [ds1 [e|[]]]; [discriminate|].
  intros H. exists ds1. split; [reflexivity|exact H].
Qed.

Lemma afor_in_app_compose {A} (l1 l2 : list A) (body : A -> action unit) ds ds1 r :
  afor_in l1 body ds = (ds1, inr tt) -> afor_in l2 body ds1 = r ->
  afor_in (l1 ++ l2) body ds = r.
Proof. intros H1 H2. rewrite afor_in_app. unfold abind. rewrite H1. exact H2. Qed.

Lemma afor_in_well_formed bytes projection ds ds' r :
  well_formed ds -> afor_in projection (process_var bytes) ds = (ds', r) -> well_formed ds'.
Proof.
  intros Hwf Hrun. destruct (writer_run_projection bytes projection) as (ws & r' & Hw).
  rewrite (Hw ds Hwf) in Hrun. injection Hrun as <- _.
  apply well_formed_apply_writes, Hwf.
Qed.

(** The processing of the projection, without the earlier of two items that
    name the same variable. *)
Lemma afor_in_later_wins bytes pre v1 mid v2 post ds ds' :
  well_formed ds -> item_name v1 = item_name v2 ->
  afor_in (pre ++ v1 :: mid ++ v2 :: post) (process_var bytes) ds = (ds', inr tt) ->
  afor_in (pre ++ mid ++ v2 :: post) (process_var bytes) ds = (ds', inr tt).
Proof.
  intros Hwf Hname Hrun.
  apply afor_in_app_returns in Hrun as (ds0 & Hpre & Hrun).
  pose proof (afor_in_well_formed _ _ _ _ _ Hwf Hpre) as Hwf0.
  apply (afor_in_app_compose _ _ _ _ _ _ Hpre).
  change (v1 :: mid ++ v2 :: post) with ([v1] ++ mid ++ v2 :: post) in Hrun.
  apply afor_in_app_returns in Hrun as (ds1 & Hv1 & Hrun).
  apply afor_in_app_returns in Hrun as (ds2 & Hmid & Hrun).
  change (v2 :: post) with ([v2] ++ post) in Hrun.
  apply afor_in_app_returns in Hrun as (ds3 & Hv2 & Hpost).
  cbn [afor_in] in Hv1, Hv2. unfold abind, aret in Hv1, Hv2.
  destruct (process_var bytes v1 ds0) as [ds1' [e|[]]] eqn:H1; [discriminate|].
  injection Hv1 as ->.
  pose proof (process_var_well_formed _ _ _ _ _ Hwf0 H1) as Hwf1.
  pose proof (afor_in_well_formed _ _ _ _ _ Hwf1 Hmid) as Hwf2.
  destruct (process_var bytes v2 ds2) as [ds3' [e|[]]] eqn:H2; [discriminate|].
  injection Hv2 as ->.
  destruct (item_name v1) as [name|] eqn:Hn1;
    [|rewrite (process_var_unnamed bytes v1 ds0 Hn1) in H1; discriminate].
  symmetry in Hname. unfold item_name in Hn1, Hname.
  destruct (last v1) as [[name1 sl1]|] eqn:Hl1; [|discriminate].
  destruct (last v2) as [[name2 sl2]|] eqn:Hl2; [|discriminate].
  cbn in Hn1, Hname. injection Hn1 as ->. injection Hname as ->.
  destruct (process_var_returns bytes v1 name sl1 ds0 ds1 Hwf0 Hl1 H1) as (ws1 & Hk1 & Hw1).
  destruct (process_var_returns bytes v2 name sl2 ds2 ds3 Hwf2 Hl2 H2) as (ws2 & Hk2 & Hw2).
  destruct (writer_run_projection bytes mid) as (wsm & rm & Hwm).
  rewrite (Hw1 ds0 Hwf0) in H1. injection H1 as <-.
  rewrite (Hwm _ Hwf1) in Hmid. injection Hmid as <- ->.
  rewrite (Hw2 _ Hwf2) in H2. injection H2 as <-.
  apply (afor_in_app_compose _ _ _ _ _ _ (Hwm ds0 Hwf0)).
  change (v2 :: post) with ([v2] ++ post).
  apply (afor_in_app_compose _ _ _ _ (apply_writes ws2 (apply_writes wsm ds0))).
  - cbn [afor_in]. unfold abind, aret.
    rewrite (Hw2 _ (well_formed_apply_writes _ _ Hwf0)). reflexivity.
  - rewrite <- Hpost. f_equal.
    rewrite <- (apply_writes_app wsm ws2 ds0),
      <- (apply_writes_app wsm ws2 (apply_writes ws1 ds0)).
    symmetry. apply apply_writes_absorb.
    destruct Hk1 as [[_ ->]|[Hv Hk1]]; [intros k []|].
    destruct Hk2 as [[Hv2 _]|[_ Hk2]]; [contradiction|].
    rewrite map_app, Hk1, Hk2. intros k Hk. apply in_or_app. right. exact Hk.
Qed.

Lemma prune_same_names (val_arr val_arr' : list string) ds :
  (forall k, In k val_arr <-> In k val_arr') -> prune val_arr ds = prune val_arr' ds.
Proof.
  intros Hsame. rewrite !prune_filter. apply List.filter_ext. intros [k v]. cbn [fst].
  destruct (existsb (String.eqb k) val_arr) eqn:E, (existsb (String.eqb k) val_arr') eqn:E';
    try reflexivity.
  - apply existsb_eqb_In, Hsame, existsb_eqb_In in E. congruence.
  - apply existsb_eqb_In, Hsame, existsb_eqb_In in E'. congruence.
Qed.

Lemma py_getitem_head {A} (l : list A) x : py_getitem l 0 = inr x -> head l = Some x.
Proof.
  destruct l as [|y l]; [discriminate|]. unfold py_getitem. cbn.
  intros H. injection H as ->. reflexivity.
Qed.

(** The names listed, without the earlier of two items of the same first
    name: the same names, as a set. *)
Lemma requested_names_later_wins (pre mid post : list projected) v1 v2 names :
  first_name v1 = first_name v2 ->
  requested_names (pre ++ v1 :: mid ++ v2 :: post) = inr names ->
  exists names', requested_names (pre ++ mid ++ v2 :: post) = inr names'
    /\ forall k, In k names <-> In k names'.
Proof.
  intros Hfirst. rewrite !requested_names_app, requested_names_step, requested_names_app,
    !requested_names_step.
  destruct (requested_names pre) as [|a]; [discriminate|]. cbn [bind].
  destruct (py_getitem v1 0) as [|f1] eqn:H1; [discriminate|]. cbn [bind].
  destruct (requested_names mid) as [|m]; [discriminate|]. cbn [bind].
  destruct (py_getitem v2 0) as [|f2] eqn:H2; [discriminate|]. cbn [bind].
  destruct (requested_names post) as [|p]; [discriminate|]. cbn [bind ret].
  intros H. injection H as <-. eexists. split; [reflexivity|].
  apply py_getitem_head in H1, H2. unfold first_name in Hfirst.
  rewrite H1, H2 in Hfirst. cbn in Hfirst. injection Hfirst as ->.
  intros k. rewrite !in_app_iff. cbn [In]. rewrite !in_app_iff. cbn [In]. tauto.
Qed.

(** X12: when a projection requests a variable more than once, the later
    request wins.  For a request that returns, an item whose first and last
    names are those of a later item can be left out of the projection: the
    call returns the same result and leaves the handler in the same state. *)
Theorem later_request_wins self file pre v1 mid v2 post h res :
  well_formed (dataset self) ->
  item_name v1 = item_name v2 -> first_name v1 = first_name v2 ->
  parse_constraints self file (pre ++ v1 :: mid ++ v2 :: post) = (h, inr res) ->
  parse_constraints self file (pre ++ mid ++ v2 :: post) = (h, inr res).
Proof.
  intros Hwf Hname Hfirst Hcall.
  assert (Hne : pre ++ v1 :: mid ++ v2 :: post <> []) by (destruct pre; discriminate).
  assert (Hne' : pre ++ mid ++ v2 :: post <> []) by (destruct pre, mid; discriminate).
  destruct file as [exc|bytes].
  { rewrite parse_constraints_unreadable in Hcall by exact Hne. discriminate. }
  rewrite parse_constraints_readable in Hcall by exact Hne.
  rewrite parse_constraints_readable by exact Hne'.
  destruct (afor_in (pre ++ v1 :: mid ++ v2 :: post) (process_var bytes) (dataset self))
    as [ds [e|[]]] eqn:Hrun; [discriminate|].
  rewrite (afor_in_later_wins bytes pre v1 mid v2 post _ _ Hwf Hname Hrun).
  destruct (requested_names (pre ++ v1 :: mid ++ v2 :: post)) as [e|names] eqn:Hnames;
    [discriminate|].
  destruct (requested_names_later_wins pre mid post v1 v2 names Hfirst Hnames)
    as (names' & -> & Hsame).
  cbn [bind ret] in *. injection Hcall as <- <-.
  rewrite (prune_same_names _ _ _ Hsame). reflexivity.
Qed.

Lemma later_request_wins_witness :
  let early := [("time", [Slice 0 2 1; Slice 0 1 1; Slice 0 1 1])] in
  let wspd := [("wspd", [Slice 0 1 1; Slice 0 1 1; Slice 0 1 1])] in
  let late := [("time", [Slice 5 6 1; Slice 3 4 1; Slice 0 1 1])] in
  let self := BinarySsmiHandler "f10_19950120v7.gz" in
  let bytes := replicate (Z.to_nat 1036801) x07 in
  parse_constraints self (inr bytes) [wspd; late]
  = (fst (parse_constraints self (inr bytes) [early; wspd; late]),
     inr (prune ["time"; "wspd"; "time"]
            (dataset (fst (parse_constraints self (inr bytes) [early; wspd; late]))))).
Proof.
  intros early wspd late self bytes.
  apply (later_request_wins self (inr bytes) [] early [wspd] late []).
  - reflexivity.
  - reflexivity.
  - reflexivity.
  - vm_compute. reflexivity.
Defined.

(** ** The shape of what the decoder returns *)

(** The three loops keep the shape of the buffer, or raise IndexError. *)
Lemma loops_keep_shape bytes index (w0 w1 w2 : slice) n0 n1 n2 (l0 l1 l2 : list Z) buf :
  has_shape n0 n1 n2 buf ->
  match for_in l0 (fun buf i =>
          for_in l1 (fun buf j =>
            for_in l2 (fun buf k =>
              v <- np_getitem bytes (byteIndex i j k index) ;;
              np_setitem3 buf (i - start w0) (j - start w1) (k - start w2) (uint8_value v))
            buf) buf) buf with
  | inr buf' => has_shape n0 n1 n2 buf'
  | inl e => e = IndexError
  end.
Proof.
  intros Hshape. apply (for_in_keeps (has_shape n0 n1 n2)); [|exact Hshape].
  intros s i _ Hs. apply (for_in_keeps (has_shape n0 n1 n2)); [|exact Hs].
  intros s1 j _ Hs1. apply (for_in_keeps (has_shape n0 n1 n2)); [|exact Hs1].
  intros s2 k _ Hs2. apply store_keeps_shape. exact Hs2.
Qed.

(** X13: what the decoder returns fits the coordinates.  Whatever the buffer,
    the variable index and the three windows, [read_variable_data] either
    returns an array, and then the three generators return too and the array
    has the lengths of the lon, lat and part_of_day arrays as its shape; or it
    raises IndexError or the ValueError of a zero step, nothing else. *)
Theorem decoder_shape_agrees (bytes : list byte) (index : Z) (w0 w1 w2 : slice) :
  match read_variable_data bytes index [w0; w1; w2] with
  | inr buf =>
      exists lon lat part,
        read_variable_lon w0 = inr lon /\ read_variable_lat w1 = inr lat
        /\ read_variable_part w2 = inr part
        /\ has_shape (length lon) (length lat) (length part) buf
  | inl e => e = IndexError \/ e = ValueError "slice step cannot be zero"
  end.
Proof.
  unfold read_variable_data.
  change (py_getitem [w0; w1; w2] 0) with (@inr exn _ w0).
  change (py_getitem [w0; w1; w2] 1) with (@inr exn _ w1).
  change (py_getitem [w0; w1; w2] 2) with (@inr exn _ w2).
  cbn [bind].
  rewrite read_variable_lon_eq, read_variable_lat_eq, read_variable_part_eq.
  pose proof (range_getslice_cases 1440 w0) as H0.
  destruct (list_getslice (range 1440) w0) as [e0|l0]; cbn [bind];
    [right; apply H0|].
  pose proof (range_getslice_cases 720 w1) as H1.
  destruct (list_getslice (range 720) w1) as [e1|l1]; cbn [bind];
    [right; apply H1|].
  pose proof (range_getslice_cases 2 w2) as H2.
  destruct (list_getslice (range 2) w2) as [e2|l2]; cbn [bind];
    [right; apply H2|].
  pose proof (loops_keep_shape bytes index w0 w1 w2 _ _ _ l0 l1 l2 _
                (@np_empty3_shape Z (length l0) (length l1) (length l2))) as Hloops.
  match goal with |- match ?r with _ => _ end => destruct r as [e|buf] end.
  - left. exact Hloops.
  - eexists _, _, _. repeat (split; [reflexivity|]). rewrite !length_map. exact Hloops.
Qed.

(** ** The file names of the handler *)

Lemma match_word_spec ic body s s' :
  match_word ic body s = Some s'
  <-> exists w, s = w ++ s' /\ Forall2 (fun cs c => charset_match ic cs c = true) body w.
Proof.
  revert s. induction body as [|cs body IH]; intros s; cbn [match_word].
  - split.
    + intros H. injection H as ->. exists []. split; [reflexivity|constructor].
    + intros (w & -> & Hw). inversion Hw. reflexivity.
  - destruct s as [|c s].
    + split; [discriminate|]. intros (w & Hs & Hw). inversion Hw; subst. discriminate.
    + destruct (charset_match ic cs c) eqn:Hc.
      * rewrite IH. split.
        -- intros (w & -> & Hw). exists (c :: w). split; [reflexivity|].
           constructor; assumption.
        -- intros (w & Hs & Hw). inversion Hw as [|? c' ? w' Hc' Hw']; subst.
           injection Hs as -> ->. exists w'. split; [reflexivity|assumption].
      * split; [discriminate|]. intros (w & Hs & Hw).
        inversion Hw as [|? c' ? w' Hc' Hw']; subst. injection Hs as -> _. congruence.
Qed.

Lemma repeats_nil ic body n : body <> [] -> repeats ic body n [] -> n = O.
Proof.
  intros Hbody Hrep. inversion Hrep as [|n' w ws Hw Hws Hn Heq]; [reflexivity|].
  apply app_eq_nil in Heq as [-> _]. inversion Hw; subst. congruence.
Qed.

Lemma match_repeat_spec ic body lo hi k fuel count s :
  body <> [] -> (length s <= fuel)%nat ->
  match_repeat ic fuel body count lo hi k s = true
  <-> exists n w rest, s = w ++ rest /\ repeats ic body n w
        /\ (lo <= count + n)%nat
        /\ (match hi with None => True | Some h => n = O \/ (count + n <= h)%nat end)
        /\ k rest = true.
Proof.
  intros Hbody. revert count s.
  induction fuel as [|fuel IH]; intros count s Hfuel; cbn [match_repeat].
  - destruct s; [|cbn in Hfuel; lia]. cbn [orb]. split.
    + intros H. apply andb_true_iff in H as [Hlo Hk]. apply Nat.leb_le in Hlo.
      exists O, [], []. split; [reflexivity|]. split; [constructor|].
      split; [lia|]. split; [destruct hi; [left; reflexivity|exact I]|exact Hk].
    + intros (n & w & rest & Hs & Hrep & Hlo & _ & Hk).
      symmetry in Hs. apply app_eq_nil in Hs as [-> ->].
      rewrite (repeats_nil ic body n Hbody Hrep) in Hlo.
      apply andb_true_iff. split; [apply Nat.leb_le; lia|exact Hk].
  - split.
    + intros H. apply orb_true_iff in H as [H|H].
      * apply andb_true_iff in H as [Hhi H].
        destruct (match_word ic body s) as [s'|] eqn:Hword; [|discriminate].
        apply match_word_spec in Hword as (w0 & -> & Hw0).
        assert (Hlen : (length s' <= fuel)%nat).
        { rewrite length_app in Hfuel. destruct w0; [inversion Hw0; subst; congruence|].
          cbn in Hfuel. lia. }
        apply (IH (S count) s' Hlen) in H as (n & w & rest & -> & Hrep & Hlo & Hh & Hk).
        exists (S n), (w0 ++ w), rest. split; [rewrite app_assoc; reflexivity|].
        split; [constructor; assumption|]. split; [lia|]. split; [|exact Hk].
        destruct hi as [h|]; [|exact I]. apply Nat.ltb_lt in Hhi. right. lia.
      * apply andb_true_iff in H as [Hlo Hk]. apply Nat.leb_le in Hlo.
        exists O, [], s. split; [reflexivity|]. split; [constructor|].
        split; [lia|]. split; [destruct hi; [left; reflexivity|exact I]|exact Hk].
    + intros (n & w & rest & -> & Hrep & Hlo & Hh & Hk).
      inversion Hrep as [|n' w0 ws Hw0 Hws]; subst.
      * apply orb_true_iff. right. apply andb_true_iff.
        split; [apply Nat.leb_le; lia|exact Hk].
      * apply orb_true_iff. left. apply andb_true_iff. split.
        { destruct hi as [h|]; [|reflexivity]. apply Nat.ltb_lt. lia. }
        assert (Hword : match_word ic body ((w0 ++ ws) ++ rest) = Some (ws ++ rest))
          by (apply match_word_spec; exists w0; split; [rewrite app_assoc; reflexivity|exact Hw0]).
        rewrite Hword. apply IH.
        { rewrite !length_app in Hfuel. rewrite length_app.
          destruct w0; [inversion Hw0; subst; congruence|]. cbn in Hfuel. lia. }
        exists n', ws, rest. split; [reflexivity|]. split; [exact Hws|].
        split; [lia|]. split; [|exact Hk].
        destruct hi as [h|]; [|exact I]. right. lia.
Qed.

(** The matcher finds a match exactly when the pattern consumes a prefix of
    the input. *)
Lemma sre_match_spec ic pattern s :
  Forall (fun n => match n with MAX_REPEAT _ _ body => body <> [] | _ => True end) pattern ->
  sre_match ic pattern s = true <-> exists w rest, s = w ++ rest /\ consumes ic pattern w rest.
Proof.
  intros Hwf. revert s. induction Hwf as [|n pattern Hn Hwf IH]; intros s.
  - cbn. split; [|reflexivity]. intros _. exists [], s. split; reflexivity.
  - destruct n as [cs|lo hi body|]; cbn [sre_match consumes].
    + destruct s as [|c s].
      * split; [discriminate|]. intros (w & rest & Hs & c & w' & -> & _). discriminate.
      * rewrite andb_true_iff, IH. split.
        -- intros (Hc & w & rest & -> & Hw). exists (c :: w), rest.
           split; [reflexivity|]. exists c, w. repeat split; assumption.
        -- intros (w & rest & Hs & c' & w' & -> & Hc & Hw). injection Hs as -> ->.
           split; [exact Hc|]. exists w', rest. split; [reflexivity|exact Hw].
    + rewrite (match_repeat_spec ic body lo hi _ (length s) 0 s Hn (le_n _)). split.
      * intros (n & w1 & rest1 & -> & Hrep & Hlo & Hhi & Hk).
        apply IH in Hk as (w2 & rest & -> & Hw2).
        exists (w1 ++ w2), rest. split; [rewrite app_assoc; reflexivity|].
        exists n, w1, w2. split; [reflexivity|]. split; [exact Hrep|].
        split; [lia|]. split; [|exact Hw2].
        destruct hi as [h|]; [|exact I]. destruct Hhi as [->|Hhi]; lia.
      * intros (w & rest & -> & n & w1 & w2 & -> & Hrep & Hlo & Hhi & Hw2).
        exists n, w1, (w2 ++ rest). split; [rewrite app_assoc; reflexivity|].
        split; [exact Hrep|]. split; [lia|]. split.
        -- destruct hi as [h|]; [|exact I]. right. lia.
        -- apply IH. exists w2, rest. split; [reflexivity|exact Hw2].
    + rewrite andb_true_iff, IH. split.
      * intros (Hend & w & rest & -> & Hw). exists w, rest. split; [reflexivity|].
        split; [|exact Hw].
        destruct (w ++ rest) as [|c [|c' l]]; [left; reflexivity| |discriminate].
        right. cbn in Hend. apply Ascii.eqb_eq in Hend. subst. reflexivity.
      * intros (w & rest & -> & Hend & Hw). split; [|exists w, rest; split; [reflexivity|exact Hw]].
        destruct Hend as [->| ->]; reflexivity.
Qed.

Lemma repeats_one ic cs n w :
  repeats ic [cs] n w <-> length w = n /\ Forall (fun c => charset_match ic cs c = true) w.
Proof.
  split.
  - induction 1 as [|n w ws Hw Hws [IH1 IH2]]; [split; [reflexivity|constructor]|].
    inversion Hw as [|? c ? w' Hc Hw']; subst. inversion Hw'; subst.
    cbn. split; [lia|constructor; assumption].
  - intros [<- Hall]. induction Hall as [|c w Hc Hw IH]; [constructor|].
    apply (repeats_S ic [cs] (length w) [c] w); [repeat constructor; exact Hc|exact IH].
Qed.

Ltac each_ascii c :=
  destruct c as [[] [] [] [] [] [] [] []].

Lemma any_spec c : charset_match true ANY c = true <-> c <> newline.
Proof.
  cbn. rewrite negb_true_iff. split.
  - intros H ->. rewrite Ascii.eqb_refl in H. discriminate.
  - intros H. apply Ascii.eqb_neq. exact H.
Qed.

Lemma literal_spec (x c : ascii) :
  charset_match true (LITERAL x) c = true <-> sre_lower c = sre_lower x.
Proof. cbn. apply Ascii.eqb_eq. Qed.

Lemma lower_f c : sre_lower c = "f"%char <-> (c = "f" \/ c = "F")%char.
Proof.
  split; [|intros [->| ->]; reflexivity].
  each_ascii c; cbv; intros H; solve [discriminate H|left; reflexivity|right; reflexivity].
Qed.

Lemma lower_g c : sre_lower c = "g"%char <-> (c = "g" \/ c = "G")%char.
Proof.
  split; [|intros [->| ->]; reflexivity].
  each_ascii c; cbv; intros H; solve [discriminate H|left; reflexivity|right; reflexivity].
Qed.

Lemma lower_z c : sre_lower c = "z"%char <-> (c = "z" \/ c = "Z")%char.
Proof.
  split; [|intros [->| ->]; reflexivity].
  each_ascii c; cbv; intros H; solve [discriminate H|left; reflexivity|right; reflexivity].
Qed.

Lemma lower_dot c : sre_lower c = "."%char <-> c = "."%char.
Proof.
  split; [|intros ->; reflexivity].
  each_ascii c; cbv; intros H; solve [discriminate H|reflexivity].
Qed.

Lemma lower_underscore c : sre_lower c = "_"%char <-> c = "_"%char.
Proof.
  split; [|intros ->; reflexivity].
  each_ascii c; cbv; intros H; solve [discriminate H|reflexivity].
Qed.

Lemma digits_spec c : charset_match true (IN [("0", "9")]%char) c = is_digit c.
Proof. each_ascii c; reflexivity. Qed.

Lemma alnum_spec c :
  charset_match true (IN [("0", "9"); ("a", "z")]%char) c = is_digit c || is_letter c.
Proof. each_ascii c; reflexivity. Qed.

Lemma repeats_at_most_one ic body n w :
  repeats ic body n w -> (n <= 1)%nat ->
  w = [] \/ Forall2 (fun cs c => charset_match ic cs c = true) body w.
Proof.
  intros Hrep Hn. destruct Hrep as [|n w ws Hw Hws]; [left; reflexivity|].
  destruct Hws as [|n w' ws' _ _]; [|lia]. rewrite app_nil_r. right. exact Hw.
Qed.

Lemma extensions_well_formed :
  Forall (fun n => match n with MAX_REPEAT _ _ body => body <> [] | _ => True end) extensions.
Proof. unfold extensions. repeat constructor; discriminate. Qed.

(** X14: the file names the handler takes.  [extensions.match] succeeds on a
    path exactly when the path is made of anything without a newline, [f] and
    two digits, an underscore, eight digits, two letters or digits, possibly
    [.gz], and possibly one newline, with letters in either case: what comes
    before the [f] is free, so the name need not begin a component of the
    path, and nothing but a newline may follow the extension. *)
Theorem extensions_accepts (filepath : string) :
  extensions_match filepath = true <-> accepted (list_ascii_of_string filepath).
Proof.
  unfold extensions_match. rewrite (sre_match_spec true extensions _ extensions_well_formed).
  unfold extensions, accepted. cbn [consumes]. split.
  - intros (w & rest & Hs & n1 & dir & w2 & -> & Hdir & _ & _ & f & w3 & -> & Hf
            & n2 & sat & w4 & -> & Hsat & Hlo2 & Hhi2 & u & w5 & -> & Hu
            & n3 & date & w6 & -> & Hdate & Hlo3 & Hhi3
            & n4 & ver & w8 & -> & Hver & Hlo4 & Hhi4
            & n5 & ext & w10 & -> & Hext & _ & Hhi5 & Hend & ->).
    apply repeats_one in Hdir as [_ Hdir], Hsat as [Hn2 Hsat], Hdate as [Hn3 Hdate],
      Hver as [Hn4 Hver].
    apply literal_spec in Hf, Hu.
    apply (proj1 (lower_f f)) in Hf. apply (proj1 (lower_underscore u)) in Hu. subst u.
    exists dir, f, sat, date, ver, ext, rest. split.
    { rewrite Hs, app_nil_r. repeat (rewrite <- app_assoc; cbn [app]). reflexivity. }
    split; [eapply Forall_impl; [exact Hdir|intros c Hc; apply any_spec, Hc]|].
    split; [exact Hf|]. split; [lia|].
    split; [eapply Forall_impl; [exact Hsat|intros c Hc; rewrite <- digits_spec; exact Hc]|].
    split; [lia|].
    split; [eapply Forall_impl; [exact Hdate|intros c Hc; rewrite <- digits_spec; exact Hc]|].
    split; [lia|].
    split; [eapply Forall_impl; [exact Hver|intros c Hc; rewrite <- alnum_spec; exact Hc]|].
    split; [|exact Hend].
    destruct (repeats_at_most_one _ _ _ _ Hext Hhi5) as [->|Hword]; [left; reflexivity|].
    right. inversion Hword as [|? d ? l1 Hd H1]; subst.
    inversion H1 as [|? g ? l2 Hg H2]; subst. inversion H2 as [|? z ? l3 Hz H3]; subst.
    inversion H3; subst.
    apply literal_spec in Hd, Hg, Hz.
    apply (proj1 (lower_dot d)) in Hd. apply (proj1 (lower_g g)) in Hg.
    apply (proj1 (lower_z z)) in Hz. subst d.
    exists g, z. split; [reflexivity|split; assumption].
  - intros (dir & f & sat & date & ver & ext & eol & Hs & Hdir & Hf & Hn2 & Hsat & Hn3 & Hdate
            & Hn4 & Hver & Hext & Hend).
    exists (dir ++ f :: sat ++ "_"%char :: date ++ ver ++ ext), eol. split.
    { rewrite Hs. repeat (rewrite <- app_assoc; cbn [app]). reflexivity. }
    exists (length dir), dir, (f :: sat ++ "_"%char :: date ++ ver ++ ext).
    split; [reflexivity|]. split.
    { apply repeats_one. split; [reflexivity|].
      eapply Forall_impl; [exact Hdir|intros c Hc; apply any_spec, Hc]. }
    split; [lia|]. split; [exact I|].
    exists f, (sat ++ "_"%char :: date ++ ver ++ ext). split; [reflexivity|].
    split; [apply literal_spec, (proj2 (lower_f f)), Hf|].
    exists (length sat), sat, ("_"%char :: date ++ ver ++ ext). split; [reflexivity|]. split.
    { apply repeats_one. split; [reflexivity|].
      eapply Forall_impl; [exact Hsat|intros c Hc; rewrite digits_spec; exact Hc]. }
    split; [lia|]. split; [lia|].
    exists "_"%char, (date ++ ver ++ ext). split; [reflexivity|]. split; [reflexivity|].
    exists (length date), date, (ver ++ ext). split; [reflexivity|]. split.
    { apply repeats_one. split; [reflexivity|].
      eapply Forall_impl; [exact Hdate|intros c Hc; rewrite digits_spec; exact Hc]. }
    split; [lia|]. split; [lia|].
    exists (length ver), ver, ext. split; [reflexivity|]. split.
    { apply repeats_one. split; [reflexivity|].
      eapply Forall_impl; [exact Hver|intros c Hc; rewrite alnum_spec; exact Hc]. }
    split; [lia|]. split; [lia|].
    destruct Hext as [->|(g & z & -> & Hg & Hz)].
    + exists O, [], []. split; [reflexivity|]. split; [constructor|].
      split; [lia|]. split; [lia|]. split; [exact Hend|reflexivity].
    + exists 1%nat, ["."%char; g; z], []. split; [reflexivity|]. split.
      { apply (repeats_S true _ O ["."%char; g; z] []); [|constructor].
        constructor; [apply literal_spec; reflexivity|].
        constructor; [apply literal_spec, (proj2 (lower_g g)), Hg|].
        constructor; [apply literal_spec, (proj2 (lower_z z)), Hz|constructor]. }
      split; [lia|]. split; [lia|]. split; [exact Hend|reflexivity].
Qed.
